(** * FAISSIndexManager: the vector index of the retrieval backend

    A shallow embedding of [backend/services/faiss_index.py] and the
    properties of its incremental ingestion, deduplication, post-filtered
    search and persistence.

    Python values are modelled as they flow through the manager: metadata
    records are dictionaries from field names to scalar values, the identity
    map [_id_to_idx] is a dictionary keyed by the derived document
    identifier, exceptions are explicit results that keep whatever mutation
    happened before the raise.  The FAISS library itself is outside the
    repository; its index objects are modelled by the vectors they hold, the
    checks their Python wrappers perform, and an abstract nearest-neighbour
    oracle.

    Around the manager, the development also embeds the services that feed
    it: document ingestion ([document_ingestion.py]), chunking
    ([chunking.py]), the embedding cache ([embedding_service.py]) and the
    pipeline that composes them ([retrieval_pipeline.py]).  The
    sentence-transformer model, the hash function and the clock are
    parameters. *)

From Stdlib Require Import ZArith Ascii String Sorted.
From stdpp Require Import gmap strings list fin_maps pretty sorting.

Local Open Scope Z_scope.
Local Open Scope nat_scope.

Set Warnings "-clear-no-such-hyp".

(** ** Python values and dictionaries *)

Module Py.

(** The scalar values the pipeline stores in metadata dictionaries. *)
Inductive pyval :=
| PyNone
| PyInt (z : Z)
| PyStr (s : string).

#[global] Instance pyval_eq_dec : EqDecision pyval.
Proof. solve_decision. Defined.

Definition pyval_encode (v : pyval) : unit + (Z + string) :=
  match v with
  | PyNone => inl tt
  | PyInt z => inr (inl z)
  | PyStr s => inr (inr s)
  end.

Definition pyval_decode (x : unit + (Z + string)) : pyval :=
  match x with
  | inl _ => PyNone
  | inr (inl z) => PyInt z
  | inr (inr s) => PyStr s
  end.

#[global] Instance pyval_countable : Countable pyval.
Proof.
  apply (inj_countable' pyval_encode pyval_decode).
  by intros [].
Defined.

#[global] Instance PyStr_inj : Inj (=) (=) PyStr.
Proof. by intros s1 s2 [= ->]. Defined.

(** [isinstance(v, str)]. *)
Definition is_str (v : pyval) : bool :=
  match v with
  | PyStr _ => true
  | _ => false
  end.

(** [bool(v)]. *)
Definition truthy (v : pyval) : bool :=
  match v with
  | PyNone => false
  | PyInt z => negb (z =? 0)%Z
  | PyStr s => negb (String.eqb s "")
  end.

(** [a or b]. *)
Definition py_or (a b : pyval) : pyval :=
  if truthy a then a else b.

(** [d.get(k)] and [d.get(k, dflt)]. *)
Definition dict_get (d : gmap string pyval) (k : string) : pyval :=
  default PyNone (d !! k).

Definition dict_get_or (d : gmap string pyval) (k : string) (dflt : pyval) : pyval :=
  default dflt (d !! k).

(** [k in d] for a key whose value is held in an option. *)
Definition has_key {A} (o : option A) : bool :=
  match o with Some _ => true | None => false end.

(** Exceptions that the manager or the libraries under it can raise. *)
Inductive exn :=
| ValueError
| AssertionError
| RuntimeError
| IndexError
| TypeError
| AttributeError
| KeyError
| JSONDecodeError.

Inductive result (A : Type) :=
| Ok (a : A)
| Raise (e : exn).
Arguments Ok {A} a.
Arguments Raise {A} e.

Definition is_ok {A} (r : result A) : bool :=
  match r with Ok _ => true | Raise _ => false end.

(** [l[i]] on a Python list: negative indices count from the end. *)
Definition list_getitem {A} (l : list A) (i : Z) : result A :=
  let n := Z.of_nat (length l) in
  if (0 <=? i)%Z then
    match l !! Z.to_nat i with Some x => Ok x | None => Raise IndexError end
  else if (0 <=? n + i)%Z then
    match l !! Z.to_nat (n + i) with Some x => Ok x | None => Raise IndexError end
  else Raise IndexError.

(** [s.lower()], for strings of code points below 256.  There
    [str.lower] moves the letters A to Z (65 to 90) and the capital letters
    of Latin-1 (192 to 222, the multiplication sign 215 apart) up by 32,
    and leaves every other code point as it is. *)
Definition lower_char (c : ascii) : ascii :=
  let n := nat_of_ascii c in
  if (65 <=? n) && (n <=? 90) then ascii_of_nat (n + 32)
  else if (192 <=? n) && (n <=? 222) && negb (n =? 215) then ascii_of_nat (n + 32)
  else c.

Fixpoint lower (s : string) : string :=
  match s with
  | EmptyString => EmptyString
  | String c s' => String (lower_char c) (lower s')
  end.

(** [needle in hay] on strings. *)
Fixpoint str_contains (needle hay : string) : bool :=
  String.prefix needle hay ||
  match hay with
  | EmptyString => false
  | String _ hay' => str_contains needle hay'
  end.

End Py.
Export Py.

(** ** Configuration ([config.py]) *)

Definition EMBEDDING_DIMENSION : nat := 384.
Definition INDEX_TYPE : string := "flat".
Definition IVF_NLIST : nat := 100.
Definition IVF_NPROBE : nat := 10.

(** ** A small state-and-exception monad

    A method of the manager runs on a state, and either returns a value or
    raises; in both cases the state carries every mutation made so far. *)

Definition M (S A : Type) : Type := S → result A * S.

#[global] Instance M_ret {S} : MRet (M S) := λ A a s, (Ok a, s).

#[global] Instance M_bind {S} : MBind (M S) := λ A B f c s,
  match c s with
  | (Ok a, s') => f a s'
  | (Raise e, s') => (Raise e, s')
  end.

Definition raise {S A} (e : exn) : M S A := λ s, (Raise e, s).
Definition get {S} : M S S := λ s, (Ok s, s).
Definition modify {S} (f : S → S) : M S unit := λ s, (Ok tt, f s).

(** Lift a fallible pure computation. *)
Definition lift {S A} (r : result A) : M S A := λ s, (r, s).

(** [try: body except Exception: handler]. *)
Definition try_except {S A} (body : M S A) (handler : exn → M S A) : M S A := λ s,
  match body s with
  | (Ok a, s') => (Ok a, s')
  | (Raise e, s') => handler e s'
  end.

(** ** The FAISS index objects

    FAISS is a library outside the repository.  Its index objects are
    described by what the Python bindings do: an index holds its vectors in
    insertion order (the label of a vector is its position), [add], [train]
    and [search] assert that the array width equals the index dimension, an
    inverted-file index refuses [add] and [search] until it is trained, and
    k-means training needs at least [nlist] points. *)

Inductive index_class := IndexFlatIP | IndexIVFFlat.

#[global] Instance index_class_eq_dec : EqDecision index_class.
Proof. solve_decision. Defined.

Record faiss_index (F : Type) := FaissIndex {
  cls : index_class;
  d : nat;
  is_trained_flag : bool;
  xb : list (list F)
}.
Arguments FaissIndex {F} _ _ _ _.
Arguments cls {F} _.
Arguments d {F} _.
Arguments is_trained_flag {F} _.
Arguments xb {F} _.

Definition ntotal {F} (ix : faiss_index F) : nat := length (xb ix).

(** [n, d = x.shape]: a two-dimensional array is a list of rows of one
    common width. *)
Definition ncols {F} (x : list (list F)) : nat :=
  match x with
  | [] => 0
  | row :: _ => length row
  end.

Definition new_IndexFlatIP {F} (dim : nat) : faiss_index F :=
  FaissIndex IndexFlatIP dim true [].

Definition new_IndexIVFFlat {F} (dim : nat) : faiss_index F :=
  FaissIndex IndexIVFFlat dim false [].

Definition faiss_train {F} (ix : faiss_index F) (x : list (list F)) : result (faiss_index F) :=
  if negb (ncols x =? d ix) then Raise AssertionError
  else match cls ix with
       | IndexFlatIP => Ok ix
       | IndexIVFFlat =>
           if is_trained_flag ix then Ok ix
           else if length x <? IVF_NLIST then Raise RuntimeError
           else Ok (FaissIndex IndexIVFFlat (d ix) true (xb ix))
       end.

Definition faiss_add {F} (ix : faiss_index F) (x : list (list F)) : result (faiss_index F) :=
  if negb (ncols x =? d ix) then Raise AssertionError
  else if negb (is_trained_flag ix) then Raise RuntimeError
  else Ok (FaissIndex (cls ix) (d ix) (is_trained_flag ix) (xb ix ++ x)).

(** [index.search(x, k)] for a single query row: the ranked [(score, label)]
    pairs come from the oracle [knn]. *)
Definition faiss_search {F} (knn : faiss_index F → list F → Z → list (F * Z))
    (ix : faiss_index F) (q : list F) (k : Z) : result (list (F * Z)) :=
  if negb (length q =? d ix) then Raise AssertionError
  else if negb (0 <? k)%Z then Raise AssertionError
  else if negb (is_trained_flag ix) then Raise RuntimeError
  else Ok (knn ix q k).

(** ** Metadata, filters and the manager state *)

Abbreviation metadata := (gmap string pyval).

(** [meta.get("id") or meta.get("source_id", "")]. *)
Definition doc_id (meta : metadata) : pyval :=
  py_or (dict_get meta "id") (dict_get_or meta "source_id" (PyStr "")).

(** The filter dictionary built by the API layer from [MetadataFilter]: a
    key is present exactly when its field is [Some]. *)
Record filters := Filters {
  topics : option (list string);
  types : option (list string);
  paper_ids : option (list string);
  min_marks : option Z;
  max_marks : option Z
}.

Definition no_clauses : filters := Filters None None None None None.

(** [bool(d)] of the filter dictionary: it has at least one key. *)
Definition filters_nonempty (f : filters) : bool :=
  has_key (topics f) || has_key (types f) || has_key (paper_ids f)
  || has_key (min_marks f) || has_key (max_marks f).

#[global] Instance result_ret : MRet result := λ A a, Ok a.

#[global] Instance result_bind : MBind result := λ A B f r,
  match r with
  | Ok a => f a
  | Raise e => Raise e
  end.

(** [a < b] and [a > b] with an integer on the right: Python orders
    integers, and refuses to order [None] or a string against an integer. *)
Definition py_lt_int (a : pyval) (b : Z) : result bool :=
  match a with
  | PyInt z => Ok (z <? b)%Z
  | _ => Raise TypeError
  end.

Definition py_gt_int (a : pyval) (b : Z) : result bool :=
  match a with
  | PyInt z => Ok (b <? z)%Z
  | _ => Raise TypeError
  end.

(** [v in l] for a list of strings. *)
Definition in_strs (v : pyval) (l : list string) : bool :=
  match v with
  | PyStr s => existsb (String.eqb s) l
  | _ => false
  end.

(** The four clauses of [_matches_filters]; each answers [false] where the
    method executes [return False]. *)
Definition topic_clause (meta : metadata) (f : filters) : result bool :=
  match topics f with
  | Some (t :: ts) =>
      match dict_get_or meta "topic" (PyStr "") with
      | PyStr s =>
          let meta_topic := lower s in
          Ok (existsb (λ t', str_contains (lower t') meta_topic) (t :: ts))
      | _ => Raise AttributeError
      end
  | _ => Ok true
  end.

Definition type_clause (meta : metadata) (f : filters) : bool :=
  match types f with
  | Some (t :: ts) => in_strs (dict_get_or meta "type" (PyStr "")) (t :: ts)
  | _ => true
  end.

Definition paper_clause (meta : metadata) (f : filters) : bool :=
  match paper_ids f with
  | Some (p :: ps) => in_strs (dict_get_or meta "paper_id" (PyStr "")) (p :: ps)
  | _ => true
  end.

Definition marks_clause (meta : metadata) (f : filters) : result bool :=
  match dict_get meta "marks" with
  | PyNone => Ok true
  | meta_marks =>
      below ← match min_marks f with
              | Some lo => py_lt_int meta_marks lo
              | None => Ok false
              end;
      if below : bool then Ok false
      else
        above ← match max_marks f with
                | Some hi => py_gt_int meta_marks hi
                | None => Ok false
                end;
        if above : bool then Ok false else Ok true
  end.

Definition _matches_filters (meta : metadata) (f : filters) : result bool :=
  topic_ok ← topic_clause meta f;
  if negb topic_ok then Ok false
  else if negb (type_clause meta f) then Ok false
  else if negb (paper_clause meta f) then Ok false
  else marks_clause meta f.

Record manager (F : Type) := Manager {
  dimension : nat;
  index_type : string;
  _index : option (faiss_index F);
  _metadata : list metadata;
  _id_to_idx : gmap pyval nat
}.
Arguments Manager {F} _ _ _ _ _.
Arguments dimension {F} _.
Arguments index_type {F} _.
Arguments _index {F} _.
Arguments _metadata {F} _.
Arguments _id_to_idx {F} _.

(** ** The index directory

    Two files: the index blob written by [faiss.write_index] and the JSON
    sidecar.  A file that exists either parses or does not. *)

Inductive index_blob (F : Type) :=
| BlobIndex (ix : faiss_index F)
| BlobCorrupt.
Arguments BlobIndex {F} ix.
Arguments BlobCorrupt {F}.

(** A JSON object with the keys the sidecar may carry; object keys are
    strings, so the identity map is stored under string keys. *)
Record sidecar := Sidecar {
  sc_metadata : option (list metadata);
  sc_id_to_idx : option (gmap string nat);
  sc_index_type : option string;
  sc_dimension : option nat
}.

(** [SidecarCorrupt]: the text is not JSON, or its top level is not an
    object. *)
Inductive sidecar_blob :=
| SidecarJson (data : sidecar)
| SidecarCorrupt.

Record disk (F : Type) := Disk {
  index_file : option (index_blob F);
  metadata_file : option sidecar_blob
}.
Arguments Disk {F} _ _.
Arguments index_file {F} _.
Arguments metadata_file {F} _.

Record world (F : Type) := World {
  mgr : manager F;
  fs : disk F
}.
Arguments World {F} _ _.
Arguments mgr {F} _.
Arguments fs {F} _.

Definition empty_disk {F} : disk F := Disk None None.

(** ** The manager *)

Section Manager.
Context {F : Type}.

(** Rounding of a value to 32-bit precision ([astype(np.float32)]). *)
Variable f32 : F → F.

(** The nearest-neighbour oracle behind [index.search]. *)
Variable knn : faiss_index F → list F → Z → list (F * Z).

Definition set_index (o : option (faiss_index F)) (w : world F) : world F :=
  let m := mgr w in
  World (Manager (dimension m) (index_type m) o (_metadata m) (_id_to_idx m)) (fs w).

Definition set_index_type (t : string) (w : world F) : world F :=
  let m := mgr w in
  World (Manager (dimension m) t (_index m) (_metadata m) (_id_to_idx m)) (fs w).

Definition set_metadata (md : list metadata) (w : world F) : world F :=
  let m := mgr w in
  World (Manager (dimension m) (index_type m) (_index m) md (_id_to_idx m)) (fs w).

Definition set_id_to_idx (ids : gmap pyval nat) (w : world F) : world F :=
  let m := mgr w in
  World (Manager (dimension m) (index_type m) (_index m) (_metadata m) ids) (fs w).

Definition set_index_file (o : option (index_blob F)) (w : world F) : world F :=
  World (mgr w) (Disk o (metadata_file (fs w))).

Definition set_metadata_file (o : option sidecar_blob) (w : world F) : world F :=
  World (mgr w) (Disk (index_file (fs w)) o).

(** The [size] and [is_trained] properties. *)
Definition size (m : manager F) : nat :=
  match _index m with
  | None => 0
  | Some ix => ntotal ix
  end.

Definition is_trained (m : manager F) : bool :=
  match _index m with
  | None => false
  | Some ix => is_trained_flag ix
  end.

(** The object [_create_index] builds for the current configuration. *)
Definition new_index (m : manager F) : faiss_index F :=
  if String.eqb (index_type m) "ivf"
  then new_IndexIVFFlat (dimension m)
  else new_IndexFlatIP (dimension m).

Definition _create_index : M (world F) unit :=
  modify (λ w, set_index (Some (new_index (mgr w))) w).

(** The [index] property: get or create. *)
Definition index : M (world F) (faiss_index F) :=
  w ← get;
  match _index (mgr w) with
  | Some ix => mret ix
  | None => _create_index;; mret (new_index (mgr w))
  end.

(** [self.index.train(x)] and [self.index.add(x)] mutate the index object
    in place. *)
Definition index_train (x : list (list F)) : M (world F) unit :=
  ix ← index;
  ix' ← lift (faiss_train ix x);
  modify (set_index (Some ix')).

Definition index_add (x : list (list F)) : M (world F) unit :=
  ix ← index;
  ix' ← lift (faiss_add ix x);
  modify (set_index (Some ix')).

(** How [json.dump] writes a dictionary key.  Two distinct keys written
    alike (the integer 5 and the string ["5"]) collide in the file; which
    entry survives depends in Python on insertion order, which a finite map
    does not record, and here on the order of the map. *)
Definition json_key (k : pyval) : string :=
  match k with
  | PyNone => "null"
  | PyInt z => pretty z
  | PyStr s => s
  end.

Definition json_dump_ids (ids : gmap pyval nat) : gmap string nat :=
  list_to_map ((λ kv, (json_key kv.1, kv.2)) <$> map_to_list ids).

Definition json_load_ids (ids : gmap string nat) : gmap pyval nat :=
  kmap PyStr ids.

Definition _save_index : M (world F) unit :=
  w ← get;
  match _index (mgr w) with
  | None => raise TypeError
  | Some ix =>
      modify (set_index_file (Some (BlobIndex ix)));;
      modify (set_metadata_file (Some (SidecarJson
        (Sidecar (Some (_metadata (mgr w)))
                 (Some (json_dump_ids (_id_to_idx (mgr w))))
                 (Some (index_type (mgr w)))
                 (Some (dimension (mgr w)))))))
  end.

Definition read_index (b : index_blob F) : result (faiss_index F) :=
  match b with
  | BlobIndex ix => Ok ix
  | BlobCorrupt => Raise RuntimeError
  end.

Definition json_load (b : sidecar_blob) : result sidecar :=
  match b with
  | SidecarJson data => Ok data
  | SidecarCorrupt => Raise JSONDecodeError
  end.

(** The body of the [try] block of [_load_index]. *)
Definition load_body (ib : index_blob F) (sb : sidecar_blob) : M (world F) bool :=
  ix ← lift (read_index ib);
  modify (set_index (Some ix));;
  data ← lift (json_load sb);
  md ← lift (match sc_metadata data with
             | Some md => Ok md
             | None => Raise KeyError
             end);
  modify (set_metadata md);;
  modify (set_id_to_idx (json_load_ids (default ∅ (sc_id_to_idx data))));;
  modify (set_index_type (default "flat"%string (sc_index_type data)));;
  mret true.

Definition _load_index : M (world F) bool :=
  w ← get;
  match index_file (fs w), metadata_file (fs w) with
  | Some ib, Some sb => try_except (load_body ib sb) (λ _, mret false)
  | _, _ => mret false
  end.

(** [FAISSIndexManager(dimension, index_type, index_dir)]. *)
Definition fresh_manager (dim : nat) (type : string) : manager F :=
  Manager dim type None [] ∅.

Definition init (dim : nat) (type : string) (dir : disk F) : result unit * world F :=
  (_load_index;; mret tt) (World (fresh_manager dim type) dir).

Definition clear : M (world F) unit :=
  modify (set_index None);;
  modify (set_metadata []);;
  modify (set_id_to_idx ∅);;
  modify (set_index_file None);;
  modify (set_metadata_file None).

(** The loop of the deduplicating branch of [add_documents]: [base] is
    [len(self._metadata)], which the loop does not change. *)
Fixpoint dedup_loop (base : nat) (pairs : list (list F * metadata))
    (ids : gmap pyval nat) (new_embeddings : list (list F))
    (new_metadata : list metadata)
    : gmap pyval nat * list (list F) * list metadata :=
  match pairs with
  | [] => (ids, new_embeddings, new_metadata)
  | (emb, meta) :: rest =>
      match ids !! doc_id meta with
      | None =>
          let new_embeddings := new_embeddings ++ [emb] in
          let new_metadata := new_metadata ++ [meta] in
          dedup_loop base rest
            (<[doc_id meta := base + length new_metadata - 1]> ids)
            new_embeddings new_metadata
      | Some _ => dedup_loop base rest ids new_embeddings new_metadata
      end
  end.

(** The loop of the other branch: [for i, meta in enumerate(metadata)]. *)
Fixpoint register_all (base i : nat) (metas : list metadata)
    (ids : gmap pyval nat) : gmap pyval nat :=
  match metas with
  | [] => ids
  | meta :: rest => register_all base (S i) rest (<[doc_id meta := base + i]> ids)
  end.

Definition astype_float32 (x : list (list F)) : list (list F) :=
  map (map f32) x.

(** The tail of [add_documents], from the training decision on. *)
Definition commit (embeddings : list (list F)) (metas : list metadata)
    : M (world F) nat :=
  w ← get;
  (if String.eqb (index_type (mgr w)) "ivf" && negb (is_trained (mgr w)) then
     if IVF_NLIST <=? length embeddings then index_train embeddings
     else modify (set_index_type "flat");; _create_index
   else mret tt);;
  index_add embeddings;;
  modify (λ w, set_metadata (_metadata (mgr w) ++ metas) w);;
  _save_index;;
  mret (length embeddings).

Definition add_documents (embeddings : list (list F)) (metas : list metadata)
    (deduplicate : bool) : M (world F) nat :=
  if negb (length embeddings =? length metas) then raise ValueError
  else if length embeddings =? 0 then mret 0
  else
    let embeddings := astype_float32 embeddings in
    if deduplicate then
      w ← get;
      let '(ids, new_embeddings, new_metadata) :=
        dedup_loop (length (_metadata (mgr w))) (zip embeddings metas)
                   (_id_to_idx (mgr w)) [] [] in
      modify (set_id_to_idx ids);;
      match new_embeddings with
      | [] => mret 0
      | _ => commit new_embeddings new_metadata
      end
    else
      (modify (λ w, set_id_to_idx
                 (register_all (length (_metadata (mgr w))) 0 metas
                               (_id_to_idx (mgr w))) w));;
      commit embeddings metas.

(** The result loop of [search]. *)
Fixpoint collect_results (md : list metadata) (fo : option filters) (k : Z)
    (cands : list (F * Z)) (results : list (metadata * F))
    : result (list (metadata * F)) :=
  match cands with
  | [] => Ok results
  | (score, idx) :: rest =>
      if (idx =? -1)%Z then collect_results md fo k rest results
      else if (Z.of_nat (length md) <=? idx)%Z then collect_results md fo k rest results
      else
        meta ← list_getitem md idx;
        rejected ← match fo with
                   | Some f =>
                       if filters_nonempty f
                       then matched ← _matches_filters meta f; Ok (negb matched)
                       else Ok false
                   | None => Ok false
                   end;
        if rejected : bool then collect_results md fo k rest results
        else
          let results := results ++ [(meta, score)] in
          if (k <=? Z.of_nat (length results))%Z then Ok results
          else collect_results md fo k rest results
  end.

(** [bool(filters)] for the optional argument. *)
Definition filters_given (fo : option filters) : bool :=
  match fo with
  | Some f => filters_nonempty f
  | None => false
  end.

(** [search_k]: the number of raw candidates asked of the index. *)
Definition search_width (m : manager F) (k : Z) (fo : option filters) : Z :=
  if filters_given fo then Z.min (k * 3) (Z.of_nat (size m)) else k.

Definition search (m : manager F) (query_embedding : list F) (k : Z)
    (fo : option filters) : result (list (metadata * F)) :=
  if size m =? 0 then Ok []
  else
    let query := map f32 query_embedding in
    let ix := default (new_index m) (_index m) in
    cands ← faiss_search knn ix query (search_width m k fo);
    collect_results (_metadata m) fo k cands [].

Definition get_all_metadata (m : manager F) : list metadata := _metadata m.

(** ** Views of the state used by the properties *)

(** The vectors the index holds; position [i] is label [i]. *)
Definition vectors (m : manager F) : list (list F) :=
  match _index m with
  | None => []
  | Some ix => xb ix
  end.

(** The four index states of the specification, read off the manager. *)
Inductive index_state := UNINITIALIZED | FLAT | CLUSTERED_UNTRAINED | CLUSTERED_TRAINED.

Definition state_of (m : manager F) : index_state :=
  match _index m with
  | None => UNINITIALIZED
  | Some ix =>
      match cls ix with
      | IndexFlatIP => FLAT
      | IndexIVFFlat =>
          if is_trained_flag ix then CLUSTERED_TRAINED else CLUSTERED_UNTRAINED
      end
  end.

(** FAISS never holds vectors in an untrained index. *)
Definition untrained_is_empty (m : manager F) : Prop :=
  ∀ ix, _index m = Some ix → is_trained_flag ix = false → xb ix = [].

(** The deduplication invariant: stored records have pairwise distinct
    identifiers, all of them registered. *)
Definition distinct_registered (w : world F) : Prop :=
  untrained_is_empty (mgr w)
  ∧ NoDup (doc_id <$> _metadata (mgr w))
  ∧ ∀ meta, meta ∈ _metadata (mgr w) → doc_id meta ∈ dom (_id_to_idx (mgr w)).

(** The manager is configured for exact search and holds no clustered
    index. *)
Definition flat_only (m : manager F) : Prop :=
  index_type m = "flat"%string
  ∧ ∀ ix, _index m = Some ix → cls ix = IndexFlatIP.

(** The batch that reaches the training decision of [add_documents]: what
    the deduplicating loop kept, or the whole converted input. *)
Definition surviving (m : manager F) (embeddings : list (list F))
    (metas : list metadata) (deduplicate : bool) : list (list F) * list metadata :=
  let embeddings := astype_float32 embeddings in
  if deduplicate then
    let '(_, new_embeddings, new_metadata) :=
      dedup_loop (length (_metadata m)) (zip embeddings metas) (_id_to_idx m) [] [] in
    (new_embeddings, new_metadata)
  else (embeddings, metas).

(** How a kept result relates to the candidate it came from: it carries
    the candidate's score and the metadata at the candidate's position. *)
Definition resolves (md : list metadata) (r : metadata * F) (c : F * Z) : Prop :=
  r.2 = c.1 ∧ list_getitem md c.2 = Ok r.1.

(** Every registered identifier is a string, as [Dict[str, int]] declares. *)
Definition string_keys (ids : gmap pyval nat) : Prop :=
  map_Forall (λ key _, is_str key = true) ids.

#[global] Instance string_keys_dec ids : Decision (string_keys ids).
Proof. unfold string_keys. apply _. Defined.

(** A call of a public method of one manager instance. *)
Inductive call :=
| AddDocuments (embeddings : list (list F)) (metas : list metadata) (deduplicate : bool)
| Search (query_embedding : list F) (k : Z) (fo : option filters)
| Clear.

Definition run_call (c : call) (w : world F) : world F :=
  match c with
  | AddDocuments embeddings metas deduplicate =>
      (add_documents embeddings metas deduplicate w).2
  | Search _ _ _ => w
  | Clear => (clear w).2
  end.

Definition run_calls (cs : list call) (w : world F) : world F :=
  foldl (λ w c, run_call c w) w cs.

(** A sequence of [add_documents] calls given by their arguments. *)
Definition add_call (a : list (list F) * list metadata * bool) : call :=
  AddDocuments a.1.1 a.1.2 a.2.

(** The [(vector, metadata)] pairs a call offers, after conversion. *)
Definition offered (a : list (list F) * list metadata * bool) : list (list F * metadata) :=
  zip (astype_float32 a.1.1) a.1.2.

(** A manager constructed over an empty index directory. *)
Definition empty_world (dim : nat) (type : string) : world F :=
  (init dim type empty_disk).2.

End Manager.

(** A record with no usable identifier: no truthy ["id"] and no
    ["source_id"] key. *)
Definition identifier_less (meta : metadata) : bool :=
  negb (truthy (dict_get meta "id")) && negb (has_key (meta !! "source_id")).

(** Whether a marks value lies within the optional bounds. *)
Definition within_marks (lo hi : option Z) (v : Z) : Prop :=
  from_option (λ l, (l ≤ v)%Z) True lo ∧ from_option (λ h, (v ≤ h)%Z) True hi.

#[global] Instance within_marks_dec lo hi v : Decision (within_marks lo hi v).
Proof. unfold within_marks. destruct lo, hi; simpl; apply _. Defined.

(** Whether a candidate label addresses a stored metadata record. *)
Definition valid_position (n : nat) (c : Z) : bool :=
  (0 <=? c)%Z && (c <? Z.of_nat n)%Z.

(** What FAISS promises about labels: a position, or the sentinel [-1]. *)
Definition labels_from_minus_one {F} (knn : faiss_index F → list F → Z → list (F * Z)) : Prop :=
  ∀ ix q k, Forall (λ c : F * Z, (-1 ≤ c.2)%Z) (knn ix q k).

(** Whether both files of the index directory exist but one of them does
    not load: an unreadable blob, text that is not a JSON object, or an
    object without the ["metadata"] key. *)
Definition malformed {F} (dir : disk F) : bool :=
  match index_file dir, metadata_file dir with
  | Some ib, Some sb =>
      match ib, sb with
      | BlobIndex _, SidecarJson data => negb (has_key (sc_metadata data))
      | _, _ => true
      end
  | _, _ => false
  end.

(** ** An exact integer-valued instance

    Inner-product search by exhaustive ranking over integer vectors, padded
    with the sentinel label as FAISS pads; used to run the model. *)

Definition dot (a b : list Z) : Z := foldr Z.add 0%Z (zip_with Z.mul a b).

Definition score_ge (a b : Z * Z) : Prop := (b.1 ≤ a.1)%Z.

#[global] Instance score_ge_dec : RelDecision score_ge.
Proof. intros a b. unfold score_ge. apply _. Defined.

Definition exact_knn (ix : faiss_index Z) (q : list Z) (k : Z) : list (Z * Z) :=
  let scored := imap (λ i v, (dot q v, Z.of_nat i)) (xb ix) in
  let ranked := merge_sort score_ge scored in
  take (Z.to_nat k) ranked
  ++ replicate (Z.to_nat k - length ranked) ((-1000000)%Z, (-1)%Z).

Definition q1 : metadata :=
  {[ "id" := PyStr "q1"; "topic" := PyStr "Thermo"; "marks" := PyInt 5 ]}.

Definition q2 : metadata :=
  {[ "id" := PyStr "q2"; "topic" := PyStr "Optics"; "marks" := PyInt 10 ]}.

(** A hundred records with the identifiers [start], [start + 1], ... in
    decimal, and a hundred vectors of a given row. *)
Definition numbered (i : nat) : metadata := {[ "id" := PyStr (pretty i) ]}.

Definition hundred_records (start : nat) : list metadata := numbered <$> seq start 100.

Definition hundred_rows (row : list Z) : list (list Z) := replicate 100 row.

(** The example scenario of the specification: two unit vectors in two
    dimensions. *)
Definition scenario : world Z :=
  (add_documents id [[1; 0]; [0; 1]]%Z [q1; q2] true (empty_world 2 "flat")).2.

(** ** Further views of the manager *)

Section Views.
Context {F : Type}.

(** Whether a record is let through by the optional filter argument of
    [search]; [None] when evaluating the filter raises. *)
Definition lets_through (fo : option filters) (meta : metadata) : option bool :=
  match fo with
  | Some f =>
      if filters_nonempty f
      then match _matches_filters meta f with
           | Ok b => Some b
           | Raise _ => None
           end
      else Some true
  | None => Some true
  end.

(** What a raw candidate contributes to the answer of [search]: the
    metadata at its position with its score, when the position is valid and
    the record is let through. *)
Definition eligible (md : list metadata) (fo : option filters) (c : F * Z)
    : option (metadata * F) :=
  if valid_position (length md) c.2 then
    match md !! Z.to_nat c.2 with
    | Some meta =>
        match lets_through fo meta with
        | Some true => Some (meta, c.1)
        | _ => None
        end
    | None => None
    end
  else None.

(** The identity map and the metadata list agree: an identifier is
    registered exactly at the position of the record that carries it. *)
Definition ids_agree (m : manager F) : Prop :=
  (∀ key pos, _id_to_idx m !! key = Some pos →
     ∃ meta, _metadata m !! pos = Some meta ∧ doc_id meta = key)
  ∧ (∀ pos meta, _metadata m !! pos = Some meta →
       _id_to_idx m !! doc_id meta = Some pos).

(** A manager that will build, or has built, an exact index of its own
    dimension. *)
Definition exact_ready (m : manager F) : Prop :=
  index_type m ≠ "ivf"%string
  ∧ ∀ ix, _index m = Some ix →
      cls ix = IndexFlatIP ∧ d ix = dimension m ∧ is_trained_flag ix = true.


(** The files [_save_index] writes for a manager that holds an index. *)
Definition disk_image (m : manager F) : disk F :=
  Disk (BlobIndex <$> _index m)
       (Some (SidecarJson (Sidecar (Some (_metadata m))
                                   (Some (json_dump_ids (_id_to_idx m)))
                                   (Some (index_type m))
                                   (Some (dimension m))))).

(** The position [register_all] leaves for an identifier: that of its last
    occurrence in the batch. *)
Fixpoint last_position (key : pyval) (metas : list metadata) (i : nat) : option nat :=
  match metas with
  | [] => None
  | meta :: rest =>
      match last_position key rest (S i) with
      | Some pos => Some pos
      | None => if decide (doc_id meta = key) then Some i else None
      end
  end.

End Views.

(** A run of deduplicating calls that stops at the first one that raises. *)
Fixpoint run_dedup_checked {F} (f32 : F → F)
    (calls : list (list (list F) * list metadata)) (w : world F) : option (world F) :=
  match calls with
  | [] => Some w
  | (embeddings, metas) :: rest =>
      match add_documents f32 embeddings metas true w with
      | (Ok _, w') => run_dedup_checked f32 rest w'
      | (Raise _, _) => None
      end
  end.

(** ** Text

    A Python string is modelled by its characters; a character stands for
    a code point below 256. *)

Definition chars (s : string) : list ascii := list_ascii_of_string s.
Definition text_of (l : list ascii) : string := string_of_list_ascii l.

(** [s[:n]]: a negative bound counts from the end. *)
Definition py_slice_to (s : string) (n : Z) : string :=
  let l := chars s in
  if (0 <=? n)%Z then text_of (take (Z.to_nat n) l)
  else text_of (take (Z.to_nat (Z.of_nat (length l) + n)) l).

(** [str(v)], as an f-string formats a value. *)
Definition py_str (v : pyval) : string :=
  match v with
  | PyNone => "None"
  | PyInt z => pretty z
  | PyStr s => s
  end.

(** [c.isspace()], which is also the class [\s] of a regular expression on
    text. *)
Definition py_isspace (c : ascii) : bool :=
  let n := nat_of_ascii c in
  ((9 <=? n) && (n <=? 13)) || ((28 <=? n) && (n <=? 32)) || (n =? 133) || (n =? 160).

Fixpoint drop_while {A} (p : A → bool) (l : list A) : list A :=
  match l with
  | [] => []
  | x :: rest => if p x then drop_while p rest else l
  end.

(** [s.strip()] and [s.strip(cs)]: [p] tells the characters to remove at
    both ends. *)
Definition py_strip (p : ascii → bool) (s : string) : string :=
  text_of (reverse (drop_while p (reverse (drop_while p (chars s))))).

(** The characters of [" |"]. *)
Definition space_or_bar (c : ascii) : bool :=
  Ascii.eqb c " " || Ascii.eqb c "|".

(** [bool(s)] of a string. *)
Definition nonempty (s : string) : bool := negb (String.eqb s "").

(** ** Ingested documents ([document_ingestion.py], [models/schemas.py]) *)

Record QuestionDocument := MkQuestion {
  q_id : string;
  q_text : string;
  q_topic : string;
  q_marks : option Z;
  q_type : string;
  q_paper_id : string;
  q_page_number : option Z;
  q_main_question_number : option string;
  q_sub_question_label : option string
}.

(** The dictionary [_process_document] builds; its keys are fixed, so it
    is a record.  [doc_metadata] is the inner dictionary. *)
Record processed_doc := ProcessedDoc {
  doc_ident : string;
  doc_text : string;
  content_hash : string;
  doc_metadata : metadata
}.

(** The character class [[\x00-\x08\x0b\x0c\x0e-\x1f]]. *)
Definition is_control (c : ascii) : bool :=
  let n := nat_of_ascii c in
  (n <=? 8) || (n =? 11) || (n =? 12) || ((14 <=? n) && (n <=? 31)).

(** [re.sub(r'\s+', ' ', s)]: every maximal run of whitespace becomes one
    space; [in_run] tells that the previous character was whitespace. *)
Fixpoint sub_spaces (in_run : bool) (l : list ascii) : list ascii :=
  match l with
  | [] => []
  | c :: rest =>
      if py_isspace c then
        if in_run then sub_spaces true rest else " "%char :: sub_spaces true rest
      else c :: sub_spaces false rest
  end.

Definition _clean_text (text : string) : string :=
  if negb (nonempty text) then ""%string
  else
    let cleaned := py_strip py_isspace text in
    let cleaned := sub_spaces false (chars cleaned) in
    text_of (filter (λ c, negb (is_control c)) cleaned).

Definition of_opt_int (o : option Z) : pyval :=
  match o with Some z => PyInt z | None => PyNone end.

Definition of_opt_str (o : option string) : pyval :=
  match o with Some s => PyStr s | None => PyNone end.

(** The ["metadata"] dictionary [_process_document] builds for a document
    ingested at a given time. *)
Definition question_metadata (doc : QuestionDocument) (ingested_at : string) : metadata :=
  {[ "topic" := PyStr (q_topic doc);
     "type" := PyStr (q_type doc);
     "marks" := of_opt_int (q_marks doc);
     "paper_id" := PyStr (q_paper_id doc);
     "page_number" := of_opt_int (q_page_number doc);
     "main_question_number" := of_opt_str (q_main_question_number doc);
     "sub_question_label" := of_opt_str (q_sub_question_label doc);
     "ingested_at" := PyStr ingested_at ]}.

(** One entry of [_ingestion_log]. *)
Record log_entry := LogEntry {
  timestamp : string;
  total_received : nat;
  successfully_processed : nat;
  skipped : Z
}.

(** The ingestion service: its log, and the clock it reads.  [utcnow] is
    the sequence of readings of [datetime.utcnow().isoformat()]; [ticks]
    counts the readings made. *)
Record ingestion_service := IngestionService {
  _ingestion_log : list log_entry;
  ticks : nat
}.

Section Ingestion.

(** [hashlib.sha256(text.encode('utf-8')).hexdigest()]. *)
Variable sha256_hex : string → string.

Variable utcnow : nat → string.

Definition now : M ingestion_service string := λ s,
  (Ok (utcnow (ticks s)), IngestionService (_ingestion_log s) (S (ticks s))).

Definition _generate_hash (text : string) : string :=
  py_slice_to (sha256_hex text) 16.

Definition _process_document (doc : QuestionDocument)
    : M ingestion_service (option processed_doc) :=
  let cleaned_text := _clean_text (q_text doc) in
  if negb (nonempty cleaned_text) then mret None
  else
    let content_hash := _generate_hash cleaned_text in
    ingested_at ← now;
    mret (Some (ProcessedDoc (q_id doc) cleaned_text content_hash
                             (question_metadata doc ingested_at))).

Definition _log_ingestion (total processed : nat) : M ingestion_service unit :=
  stamp ← now;
  modify (λ s, IngestionService
    (_ingestion_log s
     ++ [LogEntry stamp total processed (Z.of_nat total - Z.of_nat processed)])
    (ticks s)).

(** The loop of [ingest]. *)
Fixpoint ingest_loop (documents : list QuestionDocument)
    (processed_docs : list processed_doc) : M ingestion_service (list processed_doc) :=
  match documents with
  | [] => mret processed_docs
  | doc :: rest =>
      processed ← _process_document doc;
      match processed with
      | Some p => ingest_loop rest (processed_docs ++ [p])
      | None => ingest_loop rest processed_docs
      end
  end.

Definition ingest (documents : list QuestionDocument)
    : M ingestion_service (list processed_doc) :=
  processed_docs ← ingest_loop documents [];
  _log_ingestion (length documents) (length processed_docs);;
  mret processed_docs.

(** The dictionary [get_ingestion_stats] returns; [last_ingestion] is
    absent while the log is empty. *)
Record ingestion_stats := IngestionStats {
  total_ingestions : nat;
  total_documents : nat;
  last_ingestion : option log_entry
}.

Definition get_ingestion_stats (s : ingestion_service) : ingestion_stats :=
  match _ingestion_log s with
  | [] => IngestionStats 0 0 None
  | log =>
      IngestionStats (length log)
                     (foldr Nat.add 0 (successfully_processed <$> log))
                     (last log)
  end.

End Ingestion.

(** ** Chunking ([chunking.py]) *)

Inductive ChunkingStrategy := QUESTION_BASED | TOPIC_BASED | HYBRID.

Record Chunk := MkChunk {
  chunk_id : string;
  chunk_text : string;
  chunk_source_id : string;
  chunk_metadata : metadata
}.

(** The truncation step shared by two strategies:
    [if len(t) > max_chunk_size: t = t[:max_chunk_size - 3] + "..."]. *)
Definition truncate (max_chunk_size : Z) (t : string) : string :=
  if (max_chunk_size <? Z.of_nat (String.length t))%Z
  then (py_slice_to t (max_chunk_size - 3) +:+ "...")%string
  else t.

Definition _chunk_by_question (max_chunk_size : Z) (documents : list processed_doc)
    : list Chunk :=
  (λ doc, MkChunk ("chunk_" +:+ doc_ident doc)
                  (truncate max_chunk_size (doc_text doc))
                  (doc_ident doc)
                  (doc_metadata doc)) <$> documents.

(** [prefix_parts] of the hybrid strategy. *)
Definition prefix_parts (md : metadata) : list string :=
  (if truthy (dict_get md "topic") then ["Topic: " +:+ py_str (dict_get md "topic")] else [])
  ++ (if truthy (dict_get md "type") then ["Type: " +:+ py_str (dict_get md "type")] else [])
  ++ (if truthy (dict_get md "marks") then ["Marks: " +:+ py_str (dict_get md "marks")] else []).

Definition enriched_text (doc : processed_doc) : string :=
  let prefix := String.concat " | " (prefix_parts (doc_metadata doc)) in
  if nonempty prefix then ("[" +:+ prefix +:+ "] " +:+ doc_text doc)%string
  else doc_text doc.

Definition _chunk_hybrid (max_chunk_size : Z) (documents : list processed_doc)
    : list Chunk :=
  (λ doc, MkChunk ("hybrid_" +:+ doc_ident doc)
                  (truncate max_chunk_size (enriched_text doc))
                  (doc_ident doc)
                  (doc_metadata doc)) <$> documents.

(** [topic_groups]: a dictionary, which keeps its keys in insertion
    order. *)
Fixpoint group_add (topic : pyval) (doc : processed_doc)
    (groups : list (pyval * list processed_doc)) : list (pyval * list processed_doc) :=
  match groups with
  | [] => [(topic, [doc])]
  | (t, docs) :: rest =>
      if decide (t = topic) then (t, docs ++ [doc]) :: rest
      else (t, docs) :: group_add topic doc rest
  end.

Definition topic_of (doc : processed_doc) : pyval :=
  dict_get_or (doc_metadata doc) "topic" (PyStr "General").

Definition group_by_topic (documents : list processed_doc)
    : list (pyval * list processed_doc) :=
  foldl (λ groups doc, group_add (topic_of doc) doc groups) [] documents.

(** The chunk built at both places of [_chunk_by_topic]; [n] is
    [len(chunks)]. *)
Definition topic_chunk (topic : pyval) (n : nat) (t : string)
    (source_ids : list string) : Chunk :=
  MkChunk ("topic_" +:+ py_str topic +:+ "_" +:+ pretty n)
          t
          (String.concat "," source_ids)
          {[ "topic" := topic;
             "question_count" := PyInt (Z.of_nat (length source_ids)) ]}.

(** The inner loop over the documents of one topic. *)
Fixpoint topic_loop (max_chunk_size : Z) (topic : pyval) (docs : list processed_doc)
    (combined_text : string) (source_ids : list string) (chunks : list Chunk)
    : string * list string * list Chunk :=
  match docs with
  | [] => (combined_text, source_ids, chunks)
  | doc :: rest =>
      let question_text := doc_text doc in
      if (max_chunk_size <? Z.of_nat (String.length combined_text)
                            + Z.of_nat (String.length question_text) + 4)%Z
      then
        let chunks :=
          if nonempty combined_text
          then chunks ++ [topic_chunk topic (length chunks)
                            (py_strip py_isspace combined_text) source_ids]
          else chunks in
        topic_loop max_chunk_size topic rest
                   (question_text +:+ " | ") [doc_ident doc] chunks
      else
        topic_loop max_chunk_size topic rest
                   (combined_text +:+ question_text +:+ " | ")
                   (source_ids ++ [doc_ident doc]) chunks
  end.

(** The body of the outer loop, for one topic. *)
Definition topic_step (max_chunk_size : Z) (chunks : list Chunk)
    (group : pyval * list processed_doc) : list Chunk :=
  let '(combined_text, source_ids, chunks) :=
    topic_loop max_chunk_size group.1 group.2 "" [] chunks in
  if nonempty combined_text
  then chunks ++ [topic_chunk group.1 (length chunks)
                    (py_strip space_or_bar combined_text) source_ids]
  else chunks.

Definition _chunk_by_topic (max_chunk_size : Z) (documents : list processed_doc)
    : list Chunk :=
  foldl (topic_step max_chunk_size) [] (group_by_topic documents).

(** The dispatch of [chunk]; its last branch, for a value that is none of
    the three strategies, cannot be reached with a [ChunkingStrategy]. *)
Definition chunk (max_chunk_size : Z) (documents : list processed_doc)
    (strategy : ChunkingStrategy) : list Chunk :=
  match strategy with
  | QUESTION_BASED => _chunk_by_question max_chunk_size documents
  | TOPIC_BASED => _chunk_by_topic max_chunk_size documents
  | HYBRID => _chunk_hybrid max_chunk_size documents
  end.

(** [question_count] of a chunk, 0 when the metadata does not carry it. *)
Definition question_count (c : Chunk) : nat :=
  match dict_get (chunk_metadata c) "question_count" with
  | PyInt n => Z.to_nat n
  | _ => 0
  end.

(** The number of questions a list of chunks accounts for. *)
Definition total_questions (chunks : list Chunk) : nat :=
  foldr Nat.add 0 (question_count <$> chunks).

(** The number of documents held by the groups. *)
Definition grouped (groups : list (pyval * list processed_doc)) : nat :=
  foldr Nat.add 0 ((λ g, length g.2) <$> groups).

(** Whether [ingest] keeps a question: its cleaned text is not empty. *)
Definition kept (q : QuestionDocument) : bool := nonempty (_clean_text (q_text q)).

(** A processed document that [_process_document] made of a question, at
    some time. *)
Definition processed_from (q : QuestionDocument) (p : processed_doc) : Prop :=
  doc_ident p = q_id q
  ∧ doc_text p = _clean_text (q_text q)
  ∧ ∃ stamp, doc_metadata p = question_metadata q stamp.

(** A run of [ingest] calls on one service. *)
Definition run_ingests (sha256_hex : string → string) (utcnow : nat → string)
    (batches : list (list QuestionDocument)) (s : ingestion_service) : ingestion_service :=
  foldl (λ s batch, (ingest sha256_hex utcnow batch s).2) s batches.

(** The loop state is in step: identifiers are pending exactly when text
    is. *)
Definition in_step (combined_text : string) (source_ids : list string) : Prop :=
  combined_text = ""%string ↔ source_ids = [].

(** ** The embedding service ([embedding_service.py])

    The sentence-transformer model is outside the repository; [encode] is
    what [model.encode] returns for a batch, one row per text.  The cache is
    a dictionary, whose keys keep their insertion order. *)

Definition _cache_max_size : nat := 1000.

Fixpoint dict_lookup {V} (k : string) (dict : list (string * V)) : option V :=
  match dict with
  | [] => None
  | (k', v) :: rest => if decide (k' = k) then Some v else dict_lookup k rest
  end.

(** [dict[k] = v]: a key that is present keeps its place. *)
Fixpoint dict_set {V} (k : string) (v : V) (dict : list (string * V)) : list (string * V) :=
  match dict with
  | [] => [(k, v)]
  | (k', v') :: rest =>
      if decide (k' = k) then (k', v) :: rest else (k', v') :: dict_set k v rest
  end.

(** [del dict[k]]. *)
Fixpoint dict_del {V} (k : string) (dict : list (string * V)) : list (string * V) :=
  match dict with
  | [] => []
  | (k', v') :: rest => if decide (k' = k) then rest else (k', v') :: dict_del k rest
  end.

Definition _get_cache_key (text : string) : string :=
  (py_slice_to text 100 +:+ "_" +:+ pretty (String.length text))%string.

(** [np.vstack] of a list of rows: it needs at least one row, and rows of
    one width. *)
Definition vstack {F} (rows : list (list F)) : result (list (list F)) :=
  match rows with
  | [] => Raise ValueError
  | row :: rest =>
      if forallb (λ r, length r =? length row) rest then Ok rows else Raise ValueError
  end.

(** [l.sort(key=lambda x: x[0])]: a stable sort by the first component. *)
Fixpoint insert_by_index {A} (x : nat * A) (l : list (nat * A)) : list (nat * A) :=
  match l with
  | [] => [x]
  | y :: rest => if x.1 <=? y.1 then x :: l else y :: insert_by_index x rest
  end.

Definition sort_by_index {A} (l : list (nat * A)) : list (nat * A) :=
  foldr insert_by_index [] l.

Abbreviation cache F := (list (string * list F)).

(** The [texts] argument of [embed]: one string, or a list. *)
Inductive text_input :=
| Single (t : string)
| Many (ts : list string).

(** Order by the first component. *)
Definition index_le {A} (a b : nat * A) : Prop := a.1 ≤ b.1.

Section Embedding.
Context {F : Type}.

Variable encode : list string → list (list F).

Definition _embed_batch (texts : list string) : list (list F) := encode texts.

Definition _add_to_cache (text : string) (embedding : list F) : M (cache F) unit :=
  c ← get;
  (if _cache_max_size <=? length c then
     let keys_to_remove := take 100 (c.*1) in
     modify (λ c, foldl (λ c key, dict_del key c) c keys_to_remove)
   else mret tt);;
  modify (dict_set (_get_cache_key text) embedding).

(** The first loop of [embed]: cached texts go to [embeddings_list] with
    their position, the others to [texts_to_embed] and [text_indices]. *)
Fixpoint split_cached (c : cache F) (i : nat) (texts : list string)
    (embeddings_list : list (nat * list F)) (texts_to_embed : list string)
    (text_indices : list nat) : list (nat * list F) * list string * list nat :=
  match texts with
  | [] => (embeddings_list, texts_to_embed, text_indices)
  | text :: rest =>
      match dict_lookup (_get_cache_key text) c with
      | Some e =>
          split_cached c (S i) rest (embeddings_list ++ [(i, e)])
                       texts_to_embed text_indices
      | None =>
          split_cached c (S i) rest embeddings_list
                       (texts_to_embed ++ [text]) (text_indices ++ [i])
      end
  end.

(** [for text, embedding in zip(...): self._add_to_cache(text, embedding)]. *)
Fixpoint cache_all (pairs : list (string * list F)) : M (cache F) unit :=
  match pairs with
  | [] => mret tt
  | (text, embedding) :: rest => _add_to_cache text embedding;; cache_all rest
  end.

Definition embed (texts : text_input) (use_cache : bool) : M (cache F) (list (list F)) :=
  let texts := match texts with Single t => [t] | Many ts => ts end in
  match texts with
  | [] => mret []
  | _ =>
      if use_cache then
        c ← get;
        let '(embeddings_list, texts_to_embed, text_indices) :=
          split_cached c 0 texts [] [] [] in
        embeddings_list ←
          match texts_to_embed with
          | [] => mret embeddings_list
          | _ =>
              let new_embeddings := _embed_batch texts_to_embed in
              cache_all (zip texts_to_embed new_embeddings);;
              mret (embeddings_list ++ zip text_indices new_embeddings)
          end;
        lift (vstack ((sort_by_index embeddings_list).*2))
      else mret (_embed_batch texts)
  end.

Definition embed_query (query : string) : M (cache F) (list F) :=
  rows ← embed (Many [query]) false;
  lift (list_getitem rows 0).

Definition clear_cache : M (cache F) unit := modify (λ _, []).

(** What a cached [embed] stacks: for each text in turn the cached vector
    under its key, or else the next of the vectors newly computed. *)
Fixpoint fill (c : cache F) (texts : list string) (fresh : list (list F)) : list (list F) :=
  match texts with
  | [] => []
  | text :: rest =>
      match dict_lookup (_get_cache_key text) c with
      | Some e => e :: fill c rest fresh
      | None =>
          match fresh with
          | e :: fresh' => e :: fill c rest fresh'
          | [] => fill c rest []
          end
      end
  end.

(** The texts of a batch whose key is not cached. *)
Definition misses (c : cache F) (texts : list string) : list string :=
  filter (λ text, dict_lookup (_get_cache_key text) c = None) texts.

(** The same, with the position of each text; and the two lists the first
    loop of [embed] builds. *)
Fixpoint fill_ix (c : cache F) (i : nat) (texts : list string) (fresh : list (list F))
    : list (nat * list F) :=
  match texts with
  | [] => []
  | text :: rest =>
      match dict_lookup (_get_cache_key text) c with
      | Some e => (i, e) :: fill_ix c (S i) rest fresh
      | None =>
          match fresh with
          | e :: fresh' => (i, e) :: fill_ix c (S i) rest fresh'
          | [] => fill_ix c (S i) rest []
          end
      end
  end.

Fixpoint hits_of (c : cache F) (i : nat) (texts : list string) : list (nat * list F) :=
  match texts with
  | [] => []
  | text :: rest =>
      match dict_lookup (_get_cache_key text) c with
      | Some e => (i, e) :: hits_of c (S i) rest
      | None => hits_of c (S i) rest
      end
  end.

Fixpoint miss_ix (c : cache F) (i : nat) (texts : list string) : list nat :=
  match texts with
  | [] => []
  | text :: rest =>
      match dict_lookup (_get_cache_key text) c with
      | Some _ => miss_ix c (S i) rest
      | None => i :: miss_ix c (S i) rest
      end
  end.

(** The invariant of the cache: distinct keys, at most [_cache_max_size]
    of them. *)
Definition cache_ok (c : cache F) : Prop :=
  NoDup (c.*1) ∧ length c ≤ _cache_max_size.

(** A run of [embed] calls on one service. *)
Definition run_embeds (calls : list (text_input * bool)) (c : cache F) : cache F :=
  foldl (λ c call, (embed call.1 call.2 c).2) c calls.

End Embedding.

(** Every cached vector has [n] components. *)
Definition cache_rows {F} (n : nat) (c : cache F) : Prop :=
  Forall (λ kv, length kv.2 = n) c.

(** What the pipeline expects of the model: one row of [n] components per
    text. *)
Definition good_encoder {F} (encode : list string → list (list F)) (n : nat) : Prop :=
  ∀ texts, length (encode texts) = length texts
           ∧ Forall (λ row, length row = n) (encode texts).

(** ** The retrieval pipeline ([retrieval_pipeline.py])

    The pipeline owns one service of each kind; its index manager lives
    with its index directory.  Wall-clock timings ([processing_time_seconds],
    [query_time_ms]) are left out of the returned dictionaries. *)

Record pipeline (F : Type) := Pipeline {
  chunking_strategy : ChunkingStrategy;
  _ingestion_service : ingestion_service;
  _embedding_service : cache F;
  _index_manager : world F
}.
Arguments Pipeline {F} _ _ _ _.
Arguments chunking_strategy {F} _.
Arguments _ingestion_service {F} _.
Arguments _embedding_service {F} _.
Arguments _index_manager {F} _.

(** [ChunkingService()]: the default [max_chunk_size]. *)
Definition DEFAULT_MAX_CHUNK_SIZE : Z := 512.

(** The dictionary [ingest] returns: the warning or the success form. *)
Inductive ingest_report :=
| IngestWarning (documents_ingested index_size : nat)
| IngestSuccess (documents_ingested documents_processed chunks_created index_size : nat).

Definition documents_ingested (r : ingest_report) : nat :=
  match r with
  | IngestWarning n _ => n
  | IngestSuccess n _ _ _ => n
  end.

Definition reported_index_size (r : ingest_report) : nat :=
  match r with
  | IngestWarning _ n => n
  | IngestSuccess _ _ _ n => n
  end.

(** One entry of ["results"] in the dictionary [query] returns. *)
Record query_result (F : Type) := QueryResult {
  r_id : pyval;
  r_text : pyval;
  r_topic : pyval;
  r_type : pyval;
  r_marks : pyval;
  r_paper_id : pyval;
  r_score : F;
  r_page_number : pyval;
  r_main_question_number : pyval;
  r_sub_question_label : pyval
}.
Arguments QueryResult {F} _ _ _ _ _ _ _ _ _ _.
Arguments r_id {F} _.
Arguments r_text {F} _.
Arguments r_topic {F} _.
Arguments r_type {F} _.
Arguments r_marks {F} _.
Arguments r_paper_id {F} _.
Arguments r_score {F} _.
Arguments r_page_number {F} _.
Arguments r_main_question_number {F} _.
Arguments r_sub_question_label {F} _.

Record query_response (F : Type) := QueryResponse {
  results : list (query_result F);
  response_total_documents : nat;
  response_message : option string
}.
Arguments QueryResponse {F} _ _ _.
Arguments results {F} _.
Arguments response_total_documents {F} _.
Arguments response_message {F} _.

(** The metadata dictionary [ingest] stores for a chunk; the keys of
    [chunk.metadata] come last and win. *)
Definition chunk_record (c : Chunk) : metadata :=
  chunk_metadata c
  ∪ {[ "id" := PyStr (chunk_id c);
       "source_id" := PyStr (chunk_source_id c);
       "text" := PyStr (chunk_text c) ]}.

Module RetrievalPipeline.
Section RetrievalPipeline.
Context {F : Type}.

Variable f32 : F → F.
Variable knn : faiss_index F → list F → Z → list (F * Z).
Variable encode : list string → list (list F).
Variable sha256_hex : string → string.
Variable utcnow : nat → string.

(** [round(score, 4)]. *)
Variable round4 : F → F.

(** Running a method of one of the services on its part of the state. *)
Definition on_ingestion {A} (c : M ingestion_service A) : M (pipeline F) A := λ p,
  let '(r, s) := c (_ingestion_service p) in
  (r, Pipeline (chunking_strategy p) s (_embedding_service p) (_index_manager p)).

Definition on_embedding {A} (c : M (cache F) A) : M (pipeline F) A := λ p,
  let '(r, s) := c (_embedding_service p) in
  (r, Pipeline (chunking_strategy p) (_ingestion_service p) s (_index_manager p)).

Definition on_index {A} (c : M (world F) A) : M (pipeline F) A := λ p,
  let '(r, s) := c (_index_manager p) in
  (r, Pipeline (chunking_strategy p) (_ingestion_service p) (_embedding_service p) s).

(** [RetrievalPipeline(chunking_strategy)] over an index directory: the
    manager is built with the configured dimension and index type, and loads
    what the directory holds. *)
Definition init (strategy : ChunkingStrategy) (dir : disk F) : pipeline F :=
  Pipeline strategy (IngestionService [] 0) []
           (init EMBEDDING_DIMENSION INDEX_TYPE dir).2.

Definition index_size (p : pipeline F) : nat := size (mgr (_index_manager p)).

Definition ingest (questions : list QuestionDocument) : M (pipeline F) ingest_report :=
  processed_docs ← on_ingestion (ingest sha256_hex utcnow questions);
  match processed_docs with
  | [] => p ← get; mret (IngestWarning 0 (index_size p))
  | _ =>
      p ← get;
      let chunks := chunk DEFAULT_MAX_CHUNK_SIZE processed_docs (chunking_strategy p) in
      let chunk_texts := chunk_text <$> chunks in
      embeddings ← on_embedding (embed encode (Many chunk_texts) true);
      let metadata_list := chunk_record <$> chunks in
      added_count ← on_index (add_documents f32 embeddings metadata_list true);
      p ← get;
      mret (IngestSuccess added_count (length processed_docs) (length chunks)
                          (index_size p))
  end.

(** The dictionary built for one search result. *)
Definition format_result (r : metadata * F) : query_result F :=
  let metadata := r.1 in
  QueryResult (py_or (dict_get metadata "source_id") (dict_get metadata "id"))
              (dict_get_or metadata "text" (PyStr ""))
              (dict_get_or metadata "topic" (PyStr "Unknown"))
              (dict_get_or metadata "type" (PyStr "Unknown"))
              (dict_get metadata "marks")
              (dict_get_or metadata "paper_id" (PyStr ""))
              (round4 r.2)
              (dict_get metadata "page_number")
              (dict_get metadata "main_question_number")
              (dict_get metadata "sub_question_label").

Definition query (query_text : string) (top_k : Z) (fo : option filters)
    : M (pipeline F) (query_response F) :=
  p ← get;
  if index_size p =? 0 then
    mret (QueryResponse [] 0 (Some "Index is empty. Please ingest documents first."%string))
  else
    query_embedding ← on_embedding (embed_query encode query_text);
    p ← get;
    search_results ← lift (search f32 knn (mgr (_index_manager p)) query_embedding top_k fo);
    mret (QueryResponse (format_result <$> search_results) (index_size p) None).

Definition clear_index : M (pipeline F) unit :=
  on_index clear;;
  on_embedding clear_cache.

(** A run of [ingest] calls on one pipeline. *)
Definition run_ingests (batches : list (list QuestionDocument)) (p : pipeline F)
    : pipeline F :=
  foldl (λ p batch, (ingest batch p).2) p batches.

End RetrievalPipeline.
End RetrievalPipeline.

(** The state in which the pipeline keeps its services when it is built
    over an empty directory and the model returns rows of the configured
    dimension: an exact index of that dimension, and cached vectors of that
    dimension. *)
Definition pipeline_ready {F} (p : pipeline F) : Prop :=
  exact_ready (mgr (_index_manager p))
  ∧ dimension (mgr (_index_manager p)) = EMBEDDING_DIMENSION
  ∧ cache_rows EMBEDDING_DIMENSION (_embedding_service p).

(** The processed document of a question, its time of ingestion and its
    content hash left blank. *)
Definition canonical (q : QuestionDocument) : processed_doc :=
  ProcessedDoc (q_id q) (_clean_text (q_text q)) "" (question_metadata q "").

(** The chunk identifiers [ingest] derives from a batch of questions. *)
Definition batch_chunk_ids (strategy : ChunkingStrategy)
    (questions : list QuestionDocument) : list string :=
  chunk_id <$> chunk DEFAULT_MAX_CHUNK_SIZE
                     (canonical <$> filter (λ q, kept q = true) questions) strategy.

(** Two processed documents that the chunking strategies cannot tell
    apart by identifier, text or topic. *)
Definition same_content (d d' : processed_doc) : Prop :=
  doc_ident d = doc_ident d' ∧ doc_text d = doc_text d' ∧ topic_of d = topic_of d'.

(** The chunk the question strategy makes of a question ingested at a
    given time. *)
Definition question_chunk (q : QuestionDocument) (stamp : string) : Chunk :=
  MkChunk ("chunk_" +:+ q_id q)
          (truncate DEFAULT_MAX_CHUNK_SIZE (_clean_text (q_text q)))
          (q_id q)
          (question_metadata q stamp).

(** The identifiers of the batches are registered in the index manager. *)
Definition batches_registered {F} (p : pipeline F)
    (batches : list (list QuestionDocument)) : Prop :=
  ∀ batch i, batch ∈ batches → i ∈ batch_chunk_ids (chunking_strategy p) batch →
             PyStr i ∈ dom (_id_to_idx (mgr (_index_manager p))).

(** Every stored record is that of a question of [history] whose text was
    kept. *)
Definition stores_questions {F} (p : pipeline F) (history : list QuestionDocument) : Prop :=
  Forall (λ meta, ∃ q stamp, q ∈ history ∧ kept q = true
                             ∧ meta = chunk_record (question_chunk q stamp))
         (_metadata (mgr (_index_manager p))).

(** Every stored record is that of a topic chunk, for a topic that is a
    string. *)
Definition stores_topics {F} (p : pipeline F) : Prop :=
  Forall (λ meta, ∃ s n t source_ids,
                    meta = chunk_record (topic_chunk (PyStr s) n t source_ids))
         (_metadata (mgr (_index_manager p))).

(** ** A run of the pipeline

    A model that gives every text the zero vector of the configured
    dimension, a clock that counts, and a few questions; used to run the
    model of the pipeline. *)

Definition zero_encoder (texts : list string) : list (list Z) :=
  (λ _, replicate EMBEDDING_DIMENSION 0%Z) <$> texts.

Definition counting_clock (n : nat) : string := pretty n.

Definition entropy_question : QuestionDocument :=
  MkQuestion "q1" "  Define   entropy. " "Thermodynamics" (Some 5%Z) "Short Answer"
             "paper_2024" None None None.

Definition lens_question : QuestionDocument :=
  MkQuestion "q2" "State the lens formula." "Optics" None "Short Answer"
             "paper_2023" (Some 2%Z) (Some "3"%string) (Some "a"%string).

Definition heat_question : QuestionDocument :=
  MkQuestion "q9" "Define heat." "Thermodynamics" (Some 2%Z) "Short Answer"
             "paper_2025" None None None.

Definition blank_question : QuestionDocument :=
  MkQuestion "q3" "   " "General" None "Unknown" "paper_2023" None None None.

(** A text of 101 characters: a hundred times [a], then [last]. *)
Definition long_text (last : ascii) : string :=
  text_of (replicate 100 "a"%char ++ [last]).

(** A model that gives a text its length. *)
Definition length_encoder (texts : list string) : list (list Z) :=
  (λ t, [Z.of_nat (String.length t)]) <$> texts.

(** ** The save step left open

    [_save_index] above writes both files and cannot fail.  In the code
    [faiss.write_index] and [open] can raise, and they run after the index
    and the metadata list have grown.  [commit_with] and
    [add_documents_with] are [commit] and [add_documents] with the call
    [self._save_index()] as a parameter: a step that may raise, and may
    leave the directory in any state. *)

Section OpenSave.
Context {F : Type}.
Variable f32 : F → F.
Variable save : M (world F) unit.

Definition commit_with (embeddings : list (list F)) (metas : list metadata)
    : M (world F) nat :=
  w ← get;
  (if String.eqb (index_type (mgr w)) "ivf" && negb (is_trained (mgr w)) then
     if IVF_NLIST <=? length embeddings then index_train embeddings
     else modify (set_index_type "flat");; _create_index
   else mret tt);;
  index_add embeddings;;
  modify (λ w, set_metadata (_metadata (mgr w) ++ metas) w);;
  save;;
  mret (length embeddings).

Definition add_documents_with (embeddings : list (list F)) (metas : list metadata)
    (deduplicate : bool) : M (world F) nat :=
  if negb (length embeddings =? length metas) then raise ValueError
  else if length embeddings =? 0 then mret 0
  else
    let embeddings := astype_float32 f32 embeddings in
    if deduplicate then
      w ← get;
      let '(ids, new_embeddings, new_metadata) :=
        dedup_loop (length (_metadata (mgr w))) (zip embeddings metas)
                   (_id_to_idx (mgr w)) [] [] in
      modify (set_id_to_idx ids);;
      match new_embeddings with
      | [] => mret 0
      | _ => commit_with new_embeddings new_metadata
      end
    else
      (modify (λ w, set_id_to_idx
                 (register_all (length (_metadata (mgr w))) 0 metas
                               (_id_to_idx (mgr w))) w));;
      commit_with embeddings metas.

End OpenSave.

(** The save step that writes nothing: with it, what remains of
    [commit_with] is the part of [add_documents] that runs in memory. *)
Definition no_save {F} : M (world F) unit := mret tt.

(** A directory that refuses the first write: [faiss.write_index]
    raises, and nothing is written. *)
Definition refused_write {F} : M (world F) unit := raise RuntimeError.

(** A save step that only writes files: it leaves the manager as it is. *)
Definition writes_only {F} (save : M (world F) unit) : Prop :=
  ∀ w, mgr (save w).2 = mgr w.

(** * Properties *)

(** Unfolding of the monadic plumbing. *)
Ltac unmonad :=
  unfold mbind, M_bind, mret, M_ret, result_bind, result_ret,
    raise, get, modify, lift, try_except in *.

(** ** Filter evaluation *)

Lemma dict_get_insert (meta : metadata) k v : dict_get (<[k := v]> meta) k = v.
Proof. unfold dict_get. by rewrite lookup_insert_eq. Qed.

Lemma dict_get_delete (meta : metadata) k : dict_get (delete k meta) k = PyNone.
Proof. unfold dict_get. by rewrite lookup_delete_eq. Qed.

Lemma marks_clause_absent (meta : metadata) f :
  dict_get meta "marks" = PyNone → marks_clause meta f = Ok true.
Proof. unfold marks_clause. by intros ->. Qed.

Lemma marks_clause_int (meta : metadata) f v :
  dict_get meta "marks" = PyInt v →
  marks_clause meta f = Ok (bool_decide (within_marks (min_marks f) (max_marks f) v)).
Proof.
  unfold marks_clause, within_marks. intros ->. unmonad.
  destruct (min_marks f) as [lo|], (max_marks f) as [hi|]; simpl;
    repeat match goal with
           | |- context [(?a <? ?b)%Z] => destruct (Z.ltb_spec a b)
           end; simpl; f_equal; symmetry;
    first [ apply bool_decide_eq_true | apply bool_decide_eq_false ]; lia.
Qed.

Lemma matches_marks_only (meta : metadata) lo hi :
  _matches_filters meta (Filters None None None lo hi)
  = marks_clause meta (Filters None None None lo hi).
Proof. reflexivity. Qed.

(** C7. The marks-range clause of [_matches_filters]: a record without a
    marks value (the key missing, or holding [None]) passes whatever the
    bounds; a record with integer marks [v] passes exactly when [v] is at
    least [min_marks] (if given) and at most [max_marks] (if given).  Marks 7
    is rejected by [min_marks = 8] and accepted by [min_marks = 5],
    [max_marks = 10].  On a filter carrying only marks bounds the clause is
    the whole answer of [_matches_filters]. *)
Theorem marks_range_clause (meta : metadata) (f : filters) (lo hi : option Z) (v : Z) :
  marks_clause (delete "marks" meta) f = Ok true
  ∧ marks_clause (<["marks" := PyNone]> meta) f = Ok true
  ∧ _matches_filters (delete "marks" meta) (Filters None None None lo hi) = Ok true
  ∧ marks_clause (<["marks" := PyInt v]> meta) f
    = Ok (bool_decide (within_marks (min_marks f) (max_marks f) v))
  ∧ _matches_filters (<["marks" := PyInt v]> meta) (Filters None None None lo hi)
    = Ok (bool_decide (within_marks lo hi v))
  ∧ _matches_filters (<["marks" := PyInt 7]> meta) (Filters None None None (Some 8%Z) None)
    = Ok false
  ∧ _matches_filters (<["marks" := PyInt 7]> meta)
      (Filters None None None (Some 5%Z) (Some 10%Z))
    = Ok true.
Proof.
  repeat split.
  - apply marks_clause_absent, dict_get_delete.
  - apply marks_clause_absent, dict_get_insert.
  - rewrite matches_marks_only. apply marks_clause_absent, dict_get_delete.
  - apply marks_clause_int, dict_get_insert.
  - rewrite matches_marks_only.
    by rewrite (marks_clause_int _ _ v) by apply dict_get_insert.
  - rewrite matches_marks_only.
    by rewrite (marks_clause_int _ _ 7%Z) by apply dict_get_insert.
  - rewrite matches_marks_only.
    by rewrite (marks_clause_int _ _ 7%Z) by apply dict_get_insert.
Qed.

Section Properties.
Context {F : Type} (f32 : F → F) (knn : faiss_index F → list F → Z → list (F * Z)).

Implicit Types (w : world F) (m : manager F) (ix : faiss_index F).
Implicit Types (metas : list metadata) (ids : gmap pyval nat).

(** ** Rejected and empty calls *)

(** C5. [add_documents] with arrays of different lengths raises
    [ValueError] and changes nothing: the manager (index, metadata, identity
    map, index type) and the files are as before.  With empty input of
    matching length it returns 0, again with the state untouched. *)
Theorem add_documents_rejects_or_skips (embeddings : list (list F)) metas
    (deduplicate : bool) w :
  length embeddings ≠ length metas ∨ (embeddings = [] ∧ metas = []) →
  add_documents f32 embeddings metas deduplicate w
  = (if length embeddings =? length metas then Ok 0 else Raise ValueError, w).
Proof.
  intros [Hne | [-> ->]]; [| reflexivity].
  unfold add_documents.
  destruct (Nat.eqb_spec (length embeddings) (length metas)); [done |].
  reflexivity.
Qed.

(** ** The deduplicating loop *)

Lemma dedup_loop_spec (pairs : list (list F * metadata)) :
  ∀ base ids (ne : list (list F)) (nm : list metadata),
  ∃ ids' surv,
    dedup_loop base pairs ids ne nm = (ids', ne ++ surv.*1, nm ++ surv.*2)
    ∧ sublist surv pairs
    ∧ dom ids' = dom ids ∪ list_to_set (doc_id <$> pairs.*2)
    ∧ (∀ p, p ∈ surv → doc_id p.2 ∉ dom ids)
    ∧ NoDup (doc_id <$> surv.*2)
    ∧ (surv = [] → ids' = ids).
Proof.
  induction pairs as [| [emb meta] rest IH]; intros base ids ne nm; simpl.
  - exists ids, []. rewrite !app_nil_r. repeat split; try done.
    + set_solver.
    + intros p Hp. by apply elem_of_nil in Hp.
    + constructor.
  - destruct (ids !! doc_id meta) as [pos|] eqn:Hlook.
    + destruct (IH base ids ne nm) as (ids' & surv & -> & Hsub & Hdom & Hnew & Hnd & Hnil).
      exists ids', surv. repeat split; try done.
      * by apply sublist_cons.
      * rewrite Hdom. apply elem_of_dom_2 in Hlook. set_solver.
    + destruct (IH base (<[doc_id meta := base + length (nm ++ [meta]) - 1]> ids)
                  (ne ++ [emb]) (nm ++ [meta]))
        as (ids' & surv & -> & Hsub & Hdom & Hnew & Hnd & Hnil).
      exists ids', ((emb, meta) :: surv). simpl.
      rewrite <- !app_assoc. simpl. repeat split; try done.
      * by apply sublist_skip.
      * rewrite Hdom, dom_insert_L. set_solver.
      * intros p [-> | Hp]%elem_of_cons; simpl.
        -- by apply not_elem_of_dom.
        -- specialize (Hnew p Hp). rewrite dom_insert_L in Hnew. set_solver.
      * constructor; [| done].
        intros (p & Hp1 & Hp2)%list_elem_of_fmap.
        apply list_elem_of_fmap in Hp2 as (pr & -> & Hpr).
        specialize (Hnew pr Hpr). rewrite dom_insert_L in Hnew. set_solver.
Qed.

Lemma dedup_loop_all_known (pairs : list (list F * metadata)) base ids
    (ne : list (list F)) (nm : list metadata) :
  (∀ p, p ∈ pairs → doc_id p.2 ∈ dom ids) →
  dedup_loop base pairs ids ne nm = (ids, ne, nm).
Proof.
  induction pairs as [| [emb meta] rest IH]; intros Hknown; simpl; [done |].
  assert (doc_id meta ∈ dom ids) as [pos ->]%elem_of_dom.
  { apply (Hknown (emb, meta)). by left. }
  apply IH. intros p Hp. apply Hknown. by right.
Qed.

(** ** The tail of [add_documents] *)

#[local] Arguments Nat.leb : simpl never.
#[local] Arguments Nat.ltb : simpl never.
#[local] Arguments Nat.eqb : simpl never.
#[local] Arguments String.eqb : simpl never.

(** Two facts about one training flag that cannot both hold. *)
Ltac trained_clash :=
  exfalso;
  match goal with
  | H1 : is_trained_flag ?f = _, H2 : context [negb (is_trained_flag ?f)] |- _ =>
      rewrite H1 in H2; simpl in H2; rewrite ?andb_false_r in H2; congruence
  | H : _ && false = true |- _ => rewrite andb_false_r in H; congruence
  end.

Lemma commit_spec (embeddings : list (list F)) metas w :
  untrained_is_empty (mgr w) →
  ∃ r w',
    commit embeddings metas w = (r, w')
    ∧ untrained_is_empty (mgr w')
    ∧ _id_to_idx (mgr w') = _id_to_idx (mgr w)
    ∧ ((r = Ok (length embeddings)
        ∧ vectors (mgr w') = vectors (mgr w) ++ embeddings
        ∧ _metadata (mgr w') = _metadata (mgr w) ++ metas)
       ∨ ((∃ e, r = Raise e)
          ∧ vectors (mgr w') = vectors (mgr w)
          ∧ _metadata (mgr w') = _metadata (mgr w))).
Proof.
  intros Hwf. destruct w as [[dim ty oix md ids] [fi fm]].
  unfold untrained_is_empty in *. simpl in Hwf.
  unfold commit, index_train, index_add, _save_index, index, _create_index,
    is_trained, new_index, faiss_train, faiss_add, vectors,
    set_index, set_index_type, set_metadata, set_index_file, set_metadata_file,
    new_IndexIVFFlat, new_IndexFlatIP.
  unmonad. simpl.
  repeat (case_match; simpl in *; simplify_eq).
  all: eexists _, _; split; [reflexivity |]; simpl.
  all: try by trained_clash.
  all: split;
    [intros ? ? ?; simplify_eq; simpl in *; first [ done | by trained_clash | by eauto ] |].
  all: try match goal with
            | H : _ && negb (is_trained_flag ?f) = true |- _ =>
                apply andb_true_iff in H as [_ H]; apply negb_true_iff in H
            end.
  all: repeat match goal with
              | H : is_trained_flag ?f = false |- _ =>
                  rewrite (Hwf f eq_refl H) in *; clear H
              end.
  all: split; [done |].
  all: first [ left; by rewrite ?app_nil_l | right; by eauto ].
Qed.

Lemma register_all_dom metas : ∀ base i ids,
  dom ids ⊆ dom (register_all base i metas ids).
Proof.
  induction metas as [| meta rest IH]; intros base i ids; simpl; [done |].
  etrans; [| apply IH]. rewrite dom_insert_L. set_solver.
Qed.

Lemma astype_float32_length (x : list (list F)) :
  length (astype_float32 f32 x) = length x.
Proof. unfold astype_float32. by rewrite length_map. Qed.

(** ** What one call of [add_documents] does

    Whether it returns or raises, a call appends to the vectors and to the
    metadata the two halves of one list of offered pairs. *)
Lemma add_documents_effect (embeddings : list (list F)) metas (deduplicate : bool) w :
  untrained_is_empty (mgr w) →
  ∃ r w' appended,
    add_documents f32 embeddings metas deduplicate w = (r, w')
    ∧ untrained_is_empty (mgr w')
    ∧ sublist appended (zip (astype_float32 f32 embeddings) metas)
    ∧ vectors (mgr w') = vectors (mgr w) ++ appended.*1
    ∧ _metadata (mgr w') = _metadata (mgr w) ++ appended.*2
    ∧ match r with Ok n => n = length appended | Raise _ => appended = [] end
    ∧ dom (_id_to_idx (mgr w)) ⊆ dom (_id_to_idx (mgr w'))
    ∧ (deduplicate = true →
       Forall (λ p, doc_id p.2 ∉ dom (_id_to_idx (mgr w))) appended
       ∧ Forall (λ p, doc_id p.2 ∈ dom (_id_to_idx (mgr w'))) appended
       ∧ NoDup (doc_id <$> appended.*2)).
Proof.
  intros Hwf. unfold add_documents.
  destruct (Nat.eqb_spec (length embeddings) (length metas)) as [Hlen | Hlen]; simpl.
  2: { exists (Raise ValueError), w, []. rewrite !app_nil_r.
       repeat split; try done; try apply sublist_nil_l; constructor. }
  destruct (Nat.eqb_spec (length embeddings) 0) as [Hz | Hz].
  { exists (Ok 0), w, []. rewrite !app_nil_r.
    repeat split; try done; try apply sublist_nil_l; constructor. }
  destruct deduplicate.
  - unmonad.
    destruct (dedup_loop_spec (zip (astype_float32 f32 embeddings) metas)
                (length (_metadata (mgr w))) (_id_to_idx (mgr w)) [] [])
      as (ids' & surv & Hloop & Hsub & Hdom & Hnew & Hnd & Hnil).
    rewrite Hloop, !app_nil_l. cbv beta iota.
    destruct (surv.*1) as [| e0 es] eqn:Hs.
    + apply fmap_nil_inv in Hs as ->.
      exists (Ok 0), (set_id_to_idx ids' w), []. rewrite !app_nil_r, Hnil by done.
      destruct w as [[? ? ? ? ?] ?]. simpl in *.
      repeat split; try done; constructor.
    + rewrite <- Hs.
      destruct (commit_spec (surv.*1) (surv.*2) (set_id_to_idx ids' w))
        as (r & w' & Hc & Hwf' & Hids & Hres).
      { by destruct w as [[? ? ? ? ?] ?]. }
      rewrite Hc.
      assert (_id_to_idx (mgr w') = ids') as Hids'.
      { rewrite Hids. by destruct w as [[? ? ? ? ?] ?]. }
      assert (Forall (λ p, doc_id p.2 ∉ dom (_id_to_idx (mgr w))) surv) as Hfresh.
      { apply Forall_forall. intros p Hp. by apply Hnew. }
      assert (Forall (λ p, doc_id p.2 ∈ dom ids') surv) as Hreg.
      { apply Forall_forall. intros p Hp. rewrite Hdom.
        apply elem_of_union_r, elem_of_list_to_set, list_elem_of_fmap.
        exists p.2. split; [done |]. apply list_elem_of_fmap.
        exists p. split; [done |]. eapply elem_of_sublist; eauto. }
      assert (dom (_id_to_idx (mgr w)) ⊆ dom ids') as Hgrow.
      { rewrite Hdom. set_solver. }
      destruct Hres as [(-> & Hv & Hm) | ((e & ->) & Hv & Hm)].
      * exists (Ok (length (surv.*1))), w', surv.
        rewrite Hids'. repeat split; try done.
        by rewrite length_fmap.
      * exists (Raise e), w', []. rewrite !app_nil_r, Hids'.
        repeat split; try done; try apply sublist_nil_l; constructor.
  - unmonad.
    set (w1 := set_id_to_idx _ w).
    destruct (commit_spec (astype_float32 f32 embeddings) metas w1)
      as (r & w' & Hc & Hwf' & Hids & Hres).
    { by destruct w as [[? ? ? ? ?] ?]. }
    rewrite Hc.
    assert (dom (_id_to_idx (mgr w)) ⊆ dom (_id_to_idx (mgr w'))) as Hgrow.
    { rewrite Hids. subst w1. destruct w as [[? ? ? ? ?] ?]. simpl.
      apply register_all_dom. }
    destruct Hres as [(-> & Hv & Hm) | ((e & ->) & Hv & Hm)].
    + exists (Ok (length (astype_float32 f32 embeddings))), w',
        (zip (astype_float32 f32 embeddings) metas).
      rewrite fst_zip, snd_zip by (rewrite astype_float32_length; lia).
      repeat split; try done.
      rewrite length_zip, astype_float32_length. lia.
    + exists (Raise e), w', []. rewrite !app_nil_r.
      repeat split; try done; apply sublist_nil_l.
Qed.

(** ** Alignment of vectors and metadata *)

Lemma size_vectors m : size m = length (vectors m).
Proof. unfold size, vectors, ntotal. by destruct (_index m). Qed.

Lemma empty_world_unfold dim type :
  empty_world dim type = World (fresh_manager dim type) (@empty_disk F).
Proof. reflexivity. Qed.

Lemma run_adds_aligned (calls : list (list (list F) * list metadata * bool)) :
  ∀ w (before : list (list F * metadata)),
    untrained_is_empty (mgr w) →
    vectors (mgr w) = before.*1 →
    _metadata (mgr w) = before.*2 →
    ∃ accepted,
      sublist accepted (concat (offered f32 <$> calls))
      ∧ vectors (mgr (run_calls f32 (add_call <$> calls) w)) = (before ++ accepted).*1
      ∧ _metadata (mgr (run_calls f32 (add_call <$> calls) w)) = (before ++ accepted).*2.
Proof.
  induction calls as [| [[embeddings metas] deduplicate] rest IH];
    intros w before Hwf Hv Hm; simpl.
  - exists []. rewrite app_nil_r. by split; [apply sublist_nil_l |].
  - destruct (add_documents_effect embeddings metas deduplicate w Hwf)
      as (r & w' & appended & Hrun & Hwf' & Hsub & Hv' & Hm' & _).
    unfold add_call at 1. simpl. rewrite Hrun. simpl.
    destruct (IH w' (before ++ appended) Hwf') as (accepted & Hsub' & Hv'' & Hm'').
    { by rewrite Hv', Hv, fmap_app. }
    { by rewrite Hm', Hm, fmap_app. }
    exists (appended ++ accepted). rewrite !(assoc_L (++)).
    split; [| done]. by apply sublist_app.
Qed.

(** C1. After any sequence of [add_documents] calls on a manager created
    over an empty index directory (each call with or without deduplication,
    returning or raising), the stored vectors, the metadata list and the
    reported [size] have one length, and position by position they are the
    two halves of one list of accepted pairs, each of which is a pair
    [(vector, metadata)] offered together by one of the calls, in the order
    offered. *)
Theorem alignment_invariant (dim : nat) (type : string)
    (calls : list (list (list F) * list metadata * bool)) :
  let m := mgr (run_calls f32 (add_call <$> calls) (empty_world dim type)) in
  length (vectors m) = length (_metadata m)
  ∧ length (_metadata m) = size m
  ∧ ∃ accepted : list (list F * metadata),
      sublist accepted (concat (offered f32 <$> calls))
      ∧ vectors m = accepted.*1
      ∧ _metadata m = accepted.*2
      ∧ ∀ i, (vectors m !! i, _metadata m !! i)
             = (fst <$> accepted !! i, snd <$> accepted !! i).
Proof.
  intros m. subst m.
  destruct (run_adds_aligned calls (empty_world dim type) []) as (accepted & Hsub & Hv & Hm);
    try done.
  simpl in Hv, Hm. rewrite size_vectors, Hv, Hm, !length_fmap.
  repeat split. exists accepted. repeat split; try done.
  intros i. by rewrite !list_lookup_fmap.
Qed.

(** ** Deduplication *)

Lemma commit_ids (embeddings : list (list F)) metas w :
  _id_to_idx (mgr (commit embeddings metas w).2) = _id_to_idx (mgr w).
Proof.
  destruct w as [[dim ty oix md ids] [fi fm]].
  unfold commit, index_train, index_add, _save_index, index, _create_index,
    is_trained, new_index, faiss_train, faiss_add,
    set_index, set_index_type, set_metadata, set_index_file, set_metadata_file,
    new_IndexIVFFlat, new_IndexFlatIP.
  unmonad. simpl.
  repeat (case_match; simpl in *; simplify_eq); done.
Qed.

Lemma set_id_to_idx_same w : set_id_to_idx (_id_to_idx (mgr w)) w = w.
Proof. by destruct w as [[? ? ? ? ?] ?]. Qed.

(** After a deduplicating call every offered identifier is registered. *)
Lemma add_documents_registers (embeddings : list (list F)) metas w :
  length embeddings = length metas →
  embeddings ≠ [] →
  ∀ p, p ∈ zip (astype_float32 f32 embeddings) metas →
       doc_id p.2 ∈ dom (_id_to_idx (mgr (add_documents f32 embeddings metas true w).2)).
Proof.
  intros Hlen Hne p Hp. unfold add_documents.
  rewrite Hlen, Nat.eqb_refl. simpl.
  destruct (Nat.eqb_spec (length metas) 0) as [Hz | Hz].
  { destruct embeddings; [done | simpl in *; lia]. }
  unmonad.
  destruct (dedup_loop_spec (zip (astype_float32 f32 embeddings) metas)
              (length (_metadata (mgr w))) (_id_to_idx (mgr w)) [] [])
    as (ids' & surv & Hloop & Hsub & Hdom & Hnew & Hnd & Hnil).
  rewrite Hloop. simpl.
  assert (doc_id p.2 ∈ dom ids') as Hin.
  { rewrite Hdom. apply elem_of_union_r, elem_of_list_to_set, list_elem_of_fmap.
    exists p.2. split; [done |]. apply list_elem_of_fmap. by exists p. }
  destruct (surv.*1) as [| e0 es] eqn:Hs; simpl.
  - by destruct w as [[? ? ? ? ?] ?].
  - rewrite commit_ids. by destruct w as [[? ? ? ? ?] ?].
Qed.

(** A deduplicating call whose identifiers are all registered already
    returns 0 and leaves the manager and the files as they were. *)
Lemma add_documents_all_known (embeddings : list (list F)) metas w :
  length embeddings = length metas →
  (∀ p, p ∈ zip (astype_float32 f32 embeddings) metas →
        doc_id p.2 ∈ dom (_id_to_idx (mgr w))) →
  add_documents f32 embeddings metas true w = (Ok 0, w).
Proof.
  intros Hlen Hknown. unfold add_documents.
  rewrite Hlen, Nat.eqb_refl. simpl.
  destruct (Nat.eqb_spec (length metas) 0) as [Hz | Hz]; [done |].
  unmonad. rewrite dedup_loop_all_known by done. simpl.
  by rewrite set_id_to_idx_same.
Qed.

(** C2. Calling [add_documents] twice in succession on the same batch of
    [(vector, metadata)] pairs with [deduplicate = True]: the second call
    returns 0 and leaves the whole state as the first call left it, so the
    reported size, the stored metadata, the identity map and the files are
    unchanged. *)
Theorem dedup_idempotent (batch : list (list F * metadata)) w :
  let w1 := (add_documents f32 (batch.*1) (batch.*2) true w).2 in
  add_documents f32 (batch.*1) (batch.*2) true w1 = (Ok 0, w1)
  ∧ size (mgr (add_documents f32 (batch.*1) (batch.*2) true w1).2) = size (mgr w1)
  ∧ _metadata (mgr (add_documents f32 (batch.*1) (batch.*2) true w1).2) = _metadata (mgr w1)
  ∧ _id_to_idx (mgr (add_documents f32 (batch.*1) (batch.*2) true w1).2) = _id_to_idx (mgr w1).
Proof.
  intros w1.
  assert (add_documents f32 (batch.*1) (batch.*2) true w1 = (Ok 0, w1)) as Hsecond.
  { assert (length (batch.*1) = length (batch.*2)) as Hlen by by rewrite !length_fmap.
    destruct (decide (batch.*1 = [])) as [Hnil | Hne].
    - apply add_documents_all_known; [done |]. rewrite Hnil. simpl.
      intros p Hp. by apply elem_of_nil in Hp.
    - apply add_documents_all_known; [done |]. subst w1.
      by apply add_documents_registers. }
  by rewrite Hsecond.
Qed.

(** ** Records without an identifier *)

Lemma identifier_less_doc_id (meta : metadata) :
  identifier_less meta = true → doc_id meta = PyStr "".
Proof.
  unfold identifier_less, doc_id, py_or, dict_get_or.
  intros [Hid Hsrc]%andb_true_iff.
  apply negb_true_iff in Hid. rewrite Hid.
  by destruct (meta !! "source_id").
Qed.

(** Among records with pairwise distinct identifiers at most one has the
    empty identifier. *)
Lemma identifier_less_at_most_one metas :
  NoDup (doc_id <$> metas) →
  length (filter (λ meta, identifier_less meta = true) metas) ≤ 1.
Proof.
  induction metas as [| meta rest IH]; simpl; [lia |].
  intros [Hnotin Hnd]%NoDup_cons. rewrite filter_cons.
  destruct (decide (identifier_less meta = true)) as [Hless | _]; [| by apply IH].
  simpl.
  destruct (filter (λ meta, identifier_less meta = true) rest) as [| meta' others] eqn:Hf;
    [simpl; lia |].
  exfalso.
  assert (meta' ∈ filter (λ meta, identifier_less meta = true) rest)
    as [Hless' Hin]%list_elem_of_filter by (rewrite Hf; left).
  apply Hnotin.
  rewrite (identifier_less_doc_id _ Hless), <- (identifier_less_doc_id _ Hless').
  apply list_elem_of_fmap. by exists meta'.
Qed.

Lemma add_documents_distinct (embeddings : list (list F)) metas w :
  distinct_registered w →
  ∃ r w' appended,
    add_documents f32 embeddings metas true w = (r, w')
    ∧ distinct_registered w'
    ∧ _metadata (mgr w') = _metadata (mgr w) ++ appended
    ∧ match r with Ok n => n = length appended | Raise _ => appended = [] end.
Proof.
  intros (Hwf & Hnd & Hreg).
  destruct (add_documents_effect embeddings metas true w Hwf)
    as (r & w' & appended & Hrun & Hwf' & Hsub & Hv & Hm & Hr & Hgrow & Hded).
  destruct (Hded eq_refl) as (Hnew & Hregd & Hnd').
  rewrite Forall_forall in Hnew, Hregd.
  exists r, w', (appended.*2).
  split; [done |]. split; [| split; [done |]].
  - split; [done |]. split.
    + rewrite Hm, fmap_app. apply NoDup_app. split; [done |]. split; [| done].
      intros i (meta & -> & Hin)%list_elem_of_fmap (meta' & Heq & Hin')%list_elem_of_fmap.
      apply list_elem_of_fmap in Hin' as (p & -> & Hp).
      apply (Hnew p Hp). rewrite <- Heq. by apply Hreg.
    + intros meta. rewrite Hm. intros [Hin | Hin]%elem_of_app.
      * by apply Hgrow, Hreg.
      * apply list_elem_of_fmap in Hin as (p & -> & Hp). by apply Hregd.
  - destruct r; [by rewrite length_fmap | by subst].
Qed.

Lemma run_dedup_distinct (calls : list (list (list F) * list metadata)) : ∀ w,
  distinct_registered w →
  distinct_registered
    (run_calls f32 ((λ a, AddDocuments a.1 a.2 true) <$> calls) w).
Proof.
  induction calls as [| [embeddings metas] rest IH]; intros w Hinv; simpl; [done |].
  destruct (add_documents_distinct embeddings metas w Hinv)
    as (r & w' & appended & Hrun & Hinv' & _).
  rewrite Hrun. simpl. by apply IH.
Qed.

(** C10. Under [deduplicate = True] a record with neither a truthy ["id"]
    nor a ["source_id"] key gets the empty string as its identifier.  So,
    after any sequence of deduplicating calls on a manager created over an
    empty directory, one further deduplicating call appends some records,
    returns their number (or raises and appends none), and the metadata then
    holds at most one identifier-less record: once one is stored, every
    identifier-less record of a later batch is left out of what is appended
    and of the returned count, and of several in one batch at most one is
    appended. *)
Theorem identifier_less_at_most_once (dim : nat) (type : string)
    (calls : list (list (list F) * list metadata))
    (embeddings : list (list F)) metas (meta : metadata) :
  let w := run_calls f32 ((λ a, AddDocuments a.1 a.2 true) <$> calls)
                     (empty_world dim type) in
  let out := add_documents f32 embeddings metas true w in
  (if identifier_less meta then doc_id meta = PyStr "" else True)
  ∧ ∃ appended,
      _metadata (mgr out.2) = _metadata (mgr w) ++ appended
      ∧ match out.1 with Ok n => n = length appended | Raise _ => appended = [] end
      ∧ length (filter (λ meta, identifier_less meta = true)
                       (_metadata (mgr w) ++ appended)) ≤ 1.
Proof.
  intros w out. split.
  { destruct (identifier_less meta) eqn:Hless; [| done]. by apply identifier_less_doc_id. }
  assert (distinct_registered w) as Hinv.
  { apply run_dedup_distinct. repeat split; try done; simpl.
    - constructor.
    - intros ? Hin. by apply elem_of_nil in Hin. }
  destruct (add_documents_distinct embeddings metas w Hinv)
    as (r & w' & appended & Hrun & (_ & Hnd & _) & Hm & Hr).
  subst out. rewrite Hrun. simpl. exists appended. repeat split; try done.
  rewrite <- Hm. by apply identifier_less_at_most_one.
Qed.

(** ** The training fallback *)

Lemma commit_falls_back (embeddings : list (list F)) metas w :
  index_type (mgr w) = "ivf"%string →
  is_trained (mgr w) = false →
  length embeddings < IVF_NLIST →
  flat_only (mgr (commit embeddings metas w).2)
  ∧ state_of (mgr (commit embeddings metas w).2) = FLAT.
Proof.
  destruct w as [[dim ty oix md ids] [fi fm]]. simpl.
  intros -> Htrained Hsmall.
  apply Nat.leb_gt in Hsmall.
  unfold commit, flat_only, state_of. unmonad. simpl.
  rewrite Htrained, Hsmall. simpl.
  unfold index_add, index, faiss_add, _save_index, new_index. unmonad. simpl.
  destruct (ncols embeddings =? dim); simpl;
    (split; [split; [done | by intros ? [= <-]] | done]).
Qed.

Lemma commit_flat_only (embeddings : list (list F)) metas w :
  flat_only (mgr w) → flat_only (mgr (commit embeddings metas w).2).
Proof.
  destruct w as [[dim ty oix md ids] [fi fm]]. intros [Hty Hcls]. simpl in *. subst ty.
  unfold commit, flat_only. unmonad. simpl.
  unfold index_add, index, faiss_add, _save_index, _create_index, new_index.
  unmonad. simpl.
  destruct oix as [ix |]; simpl.
  - specialize (Hcls ix eq_refl).
    repeat (case_match; simpl in *; simplify_eq);
      (split; [done | by intros ? [= <-]]).
  - repeat (case_match; simpl in *; simplify_eq);
      (split; [done | by intros ? [= <-]]).
Qed.

Lemma add_documents_flat_only (embeddings : list (list F)) metas deduplicate w :
  flat_only (mgr w) → flat_only (mgr (add_documents f32 embeddings metas deduplicate w).2).
Proof.
  intros Hflat. unfold add_documents.
  repeat (case_match; simpl; try done); unmonad.
  - destruct (dedup_loop _ _ _ _ _) as [[ids ne] nm]. simpl.
    destruct ne; simpl.
    + by destruct w as [[? ? ? ? ?] ?].
    + apply commit_flat_only. by destruct w as [[? ? ? ? ?] ?].
  - apply commit_flat_only. by destruct w as [[? ? ? ? ?] ?].
Qed.

Lemma run_calls_flat_only (cs : list (call (F:=F))) : ∀ w,
  flat_only (mgr w) → flat_only (mgr (run_calls f32 cs w)).
Proof.
  induction cs as [| c rest IH]; intros w Hflat; simpl; [done |].
  apply IH. destruct c; simpl; [by apply add_documents_flat_only | done |].
  destruct w as [[? ? ? ? ?] ?]. destruct Hflat as [Hty _]. by split.
Qed.

Lemma flat_only_state m :
  flat_only m → state_of m = FLAT ∨ state_of m = UNINITIALIZED.
Proof.
  intros [_ Hcls]. unfold state_of. destruct (_index m) as [ix |]; [| by right].
  rewrite (Hcls ix eq_refl). by left.
Qed.

(** C3, as the code has it.  A manager configured for clustered search and
    not yet trained that receives a call whose surviving batch is non-empty
    and smaller than [IVF_NLIST] ends that call in state [FLAT] with
    [index_type = "flat"], whether the call returns or raises; and after any
    further calls of [add_documents] (of any size, with or without
    deduplication), [search] and [clear] the index type is still ["flat"] and
    the state is [FLAT], or [UNINITIALIZED] after a [clear], never
    clustered. *)
Theorem undersized_batch_falls_back_for_good (embeddings : list (list F)) metas
    (deduplicate : bool) w (later : list (call (F:=F))) :
  index_type (mgr w) = "ivf"%string →
  is_trained (mgr w) = false →
  length embeddings = length metas →
  0 < length (surviving f32 (mgr w) embeddings metas deduplicate).1 < IVF_NLIST →
  let w1 := (add_documents f32 embeddings metas deduplicate w).2 in
  let w2 := run_calls f32 later w1 in
  state_of (mgr w1) = FLAT
  ∧ index_type (mgr w1) = "flat"%string
  ∧ index_type (mgr w2) = "flat"%string
  ∧ (state_of (mgr w2) = FLAT ∨ state_of (mgr w2) = UNINITIALIZED).
Proof.
  intros Hty Htrained Hlen [Hpos Hsmall] w1 w2.
  assert (flat_only (mgr w1) ∧ state_of (mgr w1) = FLAT) as [Hflat Hstate].
  { subst w1 w2. unfold add_documents, surviving in *.
    rewrite Hlen, Nat.eqb_refl. simpl.
    destruct (Nat.eqb_spec (length metas) 0) as [Hz | Hz].
    { exfalso. destruct deduplicate.
      - destruct embeddings; simpl in *; [lia | lia].
      - simpl in Hpos. rewrite astype_float32_length in Hpos. lia. }
    destruct deduplicate; unmonad.
    - destruct (dedup_loop _ _ _ _ _) as [[ids ne] nm]. simpl in *.
      destruct ne as [| e0 ne']; [simpl in Hpos; lia |].
      apply commit_falls_back; by destruct w as [[? ? ? ? ?] ?].
    - simpl in *. apply commit_falls_back; by destruct w as [[? ? ? ? ?] ?]. }
  pose proof (run_calls_flat_only later w1 Hflat) as Hlater.
  repeat split; try done.
  - by destruct Hflat.
  - by destruct Hlater.
  - by apply flat_only_state.
Qed.

(** ** Search *)

Lemma collect_results_spec md fo (k : Z) (cands : list (F * Z)) :
  ∀ (acc results : list (metadata * F)),
    collect_results md fo k cands acc = Ok results →
    ∃ fresh kept,
      results = acc ++ fresh
      ∧ sublist kept cands
      ∧ Forall2 (resolves md) fresh kept
      ∧ ((Z.of_nat (length acc) < k)%Z → (Z.of_nat (length results) ≤ k)%Z).
Proof.
  induction cands as [| [score idx] rest IH]; intros acc results; simpl.
  - intros [= <-]. exists [], []. rewrite app_nil_r.
    repeat split; [done | constructor | lia].
  - destruct (idx =? -1)%Z.
    { intros (fresh & kept & -> & Hsub & Hres & Hlen)%IH.
      exists fresh, kept. repeat split; try done. by apply sublist_cons. }
    destruct (Z.of_nat (length md) <=? idx)%Z.
    { intros (fresh & kept & -> & Hsub & Hres & Hlen)%IH.
      exists fresh, kept. repeat split; try done. by apply sublist_cons. }
    unmonad. destruct (list_getitem md idx) as [meta |] eqn:Hget; [| done].
    destruct (match fo with
              | Some f => if filters_nonempty f
                          then match _matches_filters meta f with
                               | Ok a => Ok (negb a)
                               | Raise e => Raise e
                               end
                          else Ok false
              | None => Ok false
              end) as [[|] |]; [| | done].
    { intros (fresh & kept & -> & Hsub & Hres & Hlen)%IH.
      exists fresh, kept. repeat split; try done. by apply sublist_cons. }
    destruct (Z.leb_spec k (Z.of_nat (length (acc ++ [(meta, score)])))) as [Hfull | Hroom].
    + intros [= <-]. exists [(meta, score)], [(score, idx)].
      repeat split; try done.
      * apply sublist_skip, sublist_nil_l.
      * by repeat constructor.
      * rewrite length_app in *. simpl in *. lia.
    + intros (fresh & kept & -> & Hsub & Hres & Hlen)%IH.
      exists ((meta, score) :: fresh), ((score, idx) :: kept).
      rewrite <- app_assoc in *. repeat split; try done.
      * by apply sublist_skip.
      * by constructor.
      * intros _. by apply Hlen.
Qed.

Lemma resolves_scores md (fresh : list (metadata * F)) (kept : list (F * Z)) :
  Forall2 (resolves md) fresh kept → fresh.*2 = kept.*1.
Proof. induction 1 as [| r c ? ? [Hs _]]; simpl; [done |]. by f_equal. Qed.

(** C8. On a non-empty index and for [k >= 1], [search] asks the index for
    exactly [min(3*k, size)] raw candidates when a filter is present (the
    [filters] argument is truthy: a dictionary with at least one key) and for
    exactly [k] when it is not ([None] or no key); what it returns has at
    most [k] pairs, each the score of a candidate with the metadata at that
    candidate's position, in the order in which the candidates were ranked. *)
Theorem search_width_and_order m (query_embedding : list F) (k : Z) (fo : option filters) :
  0 < size m →
  (1 ≤ k)%Z →
  let ix := default (new_index m) (_index m) in
  let asked := if filters_given fo then Z.min (3 * k) (Z.of_nat (size m)) else k in
  search_width m k fo = asked
  ∧ search f32 knn m query_embedding k fo
    = (cands ← faiss_search knn ix (map f32 query_embedding) asked;
       collect_results (_metadata m) fo k cands [])
  ∧ match search f32 knn m query_embedding k fo with
    | Ok results =>
        (Z.of_nat (length results) ≤ k)%Z
        ∧ ∃ kept,
            sublist kept (knn ix (map f32 query_embedding) asked)
            ∧ Forall2 (resolves (_metadata m)) results kept
            ∧ sublist (results.*2) ((knn ix (map f32 query_embedding) asked).*1)
    | Raise _ => True
    end.
Proof.
  intros Hsize Hk ix asked.
  assert (search_width m k fo = asked) as Hw.
  { unfold search_width. subst asked. by rewrite (Z.mul_comm k 3). }
  assert (search f32 knn m query_embedding k fo
          = (cands ← faiss_search knn ix (map f32 query_embedding) asked;
             collect_results (_metadata m) fo k cands [])) as Hs.
  { unfold search. destruct (Nat.eqb_spec (size m) 0); [lia |]. by rewrite Hw. }
  repeat split; try done.
  rewrite Hs. unmonad.
  destruct (faiss_search knn ix (map f32 query_embedding) asked) as [cands |] eqn:Hf; [| done].
  destruct (collect_results (_metadata m) fo k cands []) as [results |] eqn:Hc; [| done].
  apply collect_results_spec in Hc as (fresh & kept & -> & Hsub & Hres & Hlen).
  rewrite app_nil_l in *. simpl in Hlen.
  assert (cands = knn ix (map f32 query_embedding) asked) as <-.
  { unfold faiss_search in Hf. repeat case_match; by simplify_eq. }
  split; [apply Hlen; lia |].
  exists kept. repeat split; try done.
  rewrite (resolves_scores _ _ _ Hres). by apply fmap_sublist.
Qed.

(** ** Validation of candidate positions *)

Lemma list_getitem_valid {A} (l : list A) (i : Z) :
  (-1 ≤ i)%Z → (i =? -1)%Z = false → (Z.of_nat (length l) <=? i)%Z = false →
  valid_position (length l) i = true
  ∧ list_getitem l i = from_option Ok (Raise IndexError) (l !! Z.to_nat i)
  ∧ is_Some (l !! Z.to_nat i).
Proof.
  intros Hlow Hsent%Z.eqb_neq Hhigh%Z.leb_gt.
  unfold valid_position, list_getitem.
  assert (0 ≤ i)%Z as Hpos by lia.
  apply Z.leb_le in Hpos as Hpos'. rewrite Hpos'.
  assert ((i <? Z.of_nat (length l))%Z = true) as -> by (apply Z.ltb_lt; lia).
  assert (is_Some (l !! Z.to_nat i)) as [x Hx].
  { apply lookup_lt_is_Some. lia. }
  rewrite Hx. simpl. eauto.
Qed.

Lemma collect_results_valid md fo (k : Z) (cands : list (F * Z)) :
  Forall (λ c : F * Z, (-1 ≤ c.2)%Z) cands →
  ∀ acc : list (metadata * F),
    collect_results md fo k cands acc ≠ Raise IndexError
    ∧ collect_results md fo k cands acc
      = collect_results md fo k
          (filter (λ c : F * Z, valid_position (length md) c.2 = true) cands) acc.
Proof.
  induction 1 as [| [score idx] rest Hlow Hrest IH]; intros acc; simpl; [done |].
  rewrite filter_cons. simpl in *.
  destruct (idx =? -1)%Z eqn:Hsent.
  { apply Z.eqb_eq in Hsent as ->.
    destruct (decide (valid_position (length md) (-1) = true)) as [Hv | _]; [done |].
    apply IH. }
  destruct (Z.of_nat (length md) <=? idx)%Z eqn:Hhigh.
  { destruct (decide (valid_position (length md) idx = true)) as [Hv | _]; [| apply IH].
    unfold valid_position in Hv. apply andb_true_iff in Hv as [_ Hv%Z.ltb_lt].
    apply Z.leb_le in Hhigh. lia. }
  destruct (list_getitem_valid md idx Hlow Hsent Hhigh) as (Hv & Hget & [meta Hmeta]).
  rewrite decide_True by done. simpl. rewrite Hsent, Hhigh, Hget, Hmeta. simpl.
  unmonad.
  destruct (match fo with
            | Some f => if filters_nonempty f
                        then match _matches_filters meta f with
                             | Ok a => Ok (negb a)
                             | Raise e => Raise e
                             end
                        else Ok false
            | None => Ok false
            end) as [[|] | e] eqn:Hrej; try apply IH.
  - destruct (k <=? Z.of_nat (length (acc ++ [(meta, score)])))%Z; [done | apply IH].
  - split; [| done]. intros [= ->].
    destruct fo as [f |]; [| done]. destruct (filters_nonempty f); [| done].
    unfold _matches_filters, topic_clause, marks_clause, py_lt_int, py_gt_int in Hrej.
    unmonad. repeat (case_match; simplify_eq); done.
Qed.

(** C9. Provided the nearest-neighbour structure labels its candidates as
    FAISS does (a position, or the sentinel [-1]), [search] never fails with
    an out-of-range read of the metadata list, in any state of the manager
    and for any query and [k]: candidates labelled [-1] and candidates
    labelled at or beyond [len(self._metadata)] are passed over, so the
    answer is the one obtained from the candidates with a valid position
    alone. *)
Theorem candidates_validated m (query_embedding : list F) (k : Z) (fo : option filters) :
  labels_from_minus_one knn →
  search f32 knn m query_embedding k fo ≠ Raise IndexError
  ∧ search f32 knn m query_embedding k fo
    = search f32
        (λ ix q n, filter (λ c : F * Z, valid_position (length (_metadata m)) c.2 = true)
                          (knn ix q n))
        m query_embedding k fo.
Proof.
  intros Hlabels. unfold search.
  destruct (size m =? 0); [done |].
  unfold faiss_search. unmonad.
  repeat (case_match; simplify_eq; try done).
  apply collect_results_valid, Hlabels.
Qed.

(** ** Loading at construction *)

(** C4, as the code has it.  When both files exist, [_load_index] never
    raises: it answers [False] when the blob is unreadable or the sidecar is
    not a JSON object with a ["metadata"] key, and [True] otherwise, so the
    constructor always completes.  After a failed load the metadata list and
    the identity map are empty and the index type is the configured one.
    After a successful load the manager holds the index of the blob and the
    sidecar's metadata, identity map and index type, and keeps the
    configured dimension: the dimension declared in the sidecar and the
    dimension of the loaded index are not compared with it.  The files are
    left as they were. *)
Theorem load_never_raises (dim : nat) (type : string) (dir : disk F)
    (ib : index_blob F) (sb : sidecar_blob) :
  index_file dir = Some ib →
  metadata_file dir = Some sb →
  let out := _load_index (World (fresh_manager dim type) dir) in
  out.1 = Ok (negb (malformed dir))
  ∧ (init dim type dir).1 = Ok tt
  ∧ fs out.2 = dir
  ∧ if malformed dir
    then _metadata (mgr out.2) = []
         ∧ _id_to_idx (mgr out.2) = ∅
         ∧ index_type (mgr out.2) = type
    else match ib, sb with
         | BlobIndex ix, SidecarJson data =>
             mgr out.2
             = Manager dim (default "flat"%string (sc_index_type data)) (Some ix)
                       (default [] (sc_metadata data))
                       (json_load_ids (default ∅ (sc_id_to_idx data)))
         | _, _ => False
         end.
Proof.
  destruct dir as [fi fm]. simpl. intros -> ->.
  unfold init, _load_index, load_body, malformed. unmonad. simpl.
  destruct ib as [ix |], sb as [[md oids otype odim] |]; simpl; try done.
  destruct md as [md |]; simpl; done.
Qed.

(** ** Save and reload *)

Lemma json_ids_round_trip ids :
  string_keys ids →
  json_load_ids (json_dump_ids ids) = ids.
Proof.
  intros Hkeys. unfold json_load_ids, json_dump_ids.
  assert (∀ key, key ∈ dom ids → ∃ s, key = PyStr s) as Hstr.
  { intros key [v Hv]%elem_of_dom. specialize (Hkeys key v Hv). simpl in Hkeys.
    destruct key; try done. by eexists. }
  assert (∀ key, (∀ s, key ≠ PyStr s) → ids !! key = None) as Hother.
  { intros key Hkey. apply not_elem_of_dom. intros [s ->]%Hstr. by apply (Hkey s). }
  assert (NoDup (((λ kv : pyval * nat, (json_key kv.1, kv.2)) <$> map_to_list ids).*1))
    as Hnd.
  { rewrite <- list_fmap_compose.
    apply NoDup_fmap_2_strong; [| apply NoDup_map_to_list].
    intros [k1 v1] [k2 v2] Hin1%elem_of_map_to_list Hin2%elem_of_map_to_list Heq.
    simpl in Heq.
    destruct (Hstr k1) as [s1 ->]; [by apply elem_of_dom_2 in Hin1 |].
    destruct (Hstr k2) as [s2 ->]; [by apply elem_of_dom_2 in Hin2 |].
    simpl in Heq. subst s2. congruence. }
  apply map_eq. intros key.
  destruct key as [| z | s].
  - rewrite (Hother PyNone) by done. apply lookup_kmap_None; [apply _ |]. by intros s [=].
  - rewrite (Hother (PyInt z)) by done. apply lookup_kmap_None; [apply _ |]. by intros s [=].
  - rewrite lookup_kmap by apply _. apply option_eq. intros v.
    rewrite <- elem_of_list_to_map by done.
    rewrite list_elem_of_fmap. split.
    + intros ([key v'] & [= -> ->] & Hin%elem_of_map_to_list). simpl.
      destruct (Hstr key) as [s' ->]; [by apply elem_of_dom_2 in Hin |]. done.
    + intros Hin. exists (PyStr s, v). split; [done |]. by apply elem_of_map_to_list.
Qed.

(** C6.  For a manager that holds an index, its identifiers being strings
    as the interface declares them, [_save_index] followed by the
    construction of a new manager over the same directory (with whatever
    configured dimension and index type) gives a manager with the same
    [size], the same identity map and the same metadata, and [search]
    answers every probe, [k] and filter with the same results as before the
    save: the same records in the same order, and equal scores, which is
    within any tolerance. *)
Theorem save_load_round_trip m (dir : disk F) (dim' : nat) (type' : string) :
  is_Some (_index m) →
  string_keys (_id_to_idx m) →
  let saved := _save_index (World m dir) in
  let m' := mgr (init dim' type' (fs saved.2)).2 in
  saved.1 = Ok tt
  ∧ size m' = size m
  ∧ _id_to_idx m' = _id_to_idx m
  ∧ _metadata m' = _metadata m
  ∧ ∀ query_embedding k fo,
      search f32 knn m' query_embedding k fo = search f32 knn m query_embedding k fo.
Proof.
  destruct m as [dim type oix md ids]. simpl. intros [ix ->] Hstr.
  unfold _save_index, init, _load_index, load_body. unmonad. simpl.
  rewrite (json_ids_round_trip ids Hstr).
  repeat split.
Qed.

(** ** More on [search] *)

Lemma run_calls_app (cs1 cs2 : list (call (F:=F))) w :
  run_calls f32 (cs1 ++ cs2) w = run_calls f32 cs2 (run_calls f32 cs1 w).
Proof. unfold run_calls. by rewrite foldl_app. Qed.

(** X1. Right after [clear], whatever calls came before it, and on a
    manager just constructed over an empty directory, [search] returns the
    empty list for every query, every [k] (zero and negative ones too) and
    every filter: it returns before the query is handed to the index. *)
Theorem search_after_clear_is_empty (cs : list (call (F:=F))) w (dim : nat) (type : string)
    (query_embedding : list F) (k : Z) (fo : option filters) :
  search f32 knn (mgr (run_calls f32 (cs ++ [Clear]) w)) query_embedding k fo = Ok []
  ∧ size (mgr (run_calls f32 (cs ++ [Clear]) w)) = 0
  ∧ search f32 knn (mgr (empty_world dim type)) query_embedding k fo = Ok [].
Proof.
  rewrite run_calls_app. simpl.
  destruct (run_calls f32 cs w) as [[? ? ? ? ?] ?]. done.
Qed.

Lemma collect_results_pass md f (k : Z) (cands : list (F * Z)) :
  filters_nonempty f = true →
  ∀ acc results : list (metadata * F),
    Forall (λ r, _matches_filters r.1 f = Ok true) acc →
    collect_results md (Some f) k cands acc = Ok results →
    Forall (λ r, _matches_filters r.1 f = Ok true) results.
Proof.
  intros Hne. induction cands as [| [score idx] rest IH]; intros acc results Hacc; simpl.
  - by intros [= <-].
  - destruct (idx =? -1)%Z; [by apply IH |].
    destruct (Z.of_nat (length md) <=? idx)%Z; [by apply IH |].
    unmonad. destruct (list_getitem md idx) as [meta |]; [| done].
    rewrite Hne. destruct (_matches_filters meta f) as [[|] |] eqn:Hm; simpl; [| by apply IH | done].
    assert (Forall (λ r : metadata * F, _matches_filters r.1 f = Ok true)
                   (acc ++ [(meta, score)])) as Hacc'.
    { apply Forall_app. split; [done |]. by repeat constructor. }
    destruct (k <=? Z.of_nat (length (acc ++ [(meta, score)])))%Z; [by intros [= <-] |].
    by apply IH.
Qed.

(** X2. With a filter that has at least one key, every record [search]
    returns satisfies the filter: [_matches_filters] answers [True] on it. *)
Theorem search_results_pass_filter m (query_embedding : list F) (k : Z) (f : filters) :
  filters_nonempty f = true →
  match search f32 knn m query_embedding k (Some f) with
  | Ok results => Forall (λ r, _matches_filters r.1 f = Ok true) results
  | Raise _ => True
  end.
Proof.
  intros Hne. unfold search. destruct (size m =? 0); [constructor |].
  unmonad. destruct (faiss_search _ _ _ _) as [cands |]; [| done].
  destruct (collect_results _ _ _ _ _) as [results |] eqn:Hc; [| done].
  eapply collect_results_pass; [done | | done]. constructor.
Qed.

Lemma rejected_lets_through (fo : option filters) (meta : metadata) b :
  lets_through fo meta = Some b →
  match fo with
  | Some f =>
      if filters_nonempty f
      then match _matches_filters meta f with
           | Ok matched => Ok (negb matched)
           | Raise e => Raise e
           end
      else Ok false
  | None => Ok false
  end = Ok (negb b).
Proof.
  unfold lets_through. unmonad. destruct fo as [f |]; [| by intros [= <-]].
  destruct (filters_nonempty f); [| by intros [= <-]].
  destruct (_matches_filters meta f); [by intros [= <-] | done].
Qed.

(** [take n (l ++ x :: t)] as [take n ((l ++ [x]) ++ t)]. *)
Ltac regroup :=
  match goal with
  | |- context [take ?n (?l ++ ?x :: ?t)] =>
      replace (l ++ x :: t) with ((l ++ [x]) ++ t) by (by rewrite <- app_assoc)
  end.

Lemma collect_results_take md (fo : option filters) (k : Z) (cands : list (F * Z)) :
  Forall (λ c : F * Z, (-1 ≤ c.2)%Z) cands →
  Forall (λ meta, is_Some (lets_through fo meta)) md →
  ∀ acc : list (metadata * F),
    (Z.of_nat (length acc) < k)%Z →
    collect_results md fo k cands acc
    = Ok (take (Z.to_nat k) (acc ++ omap (eligible md fo) cands)).
Proof.
  intros Hlabels Htotal.
  induction Hlabels as [| [score idx] rest Hlow Hrest IH]; intros acc Hroom; simpl.
  - rewrite app_nil_r, take_ge by lia. done.
  - unfold eligible at 1. simpl in *.
    destruct (idx =? -1)%Z eqn:Hsent.
    { apply Z.eqb_eq in Hsent as ->. simpl. by apply IH. }
    destruct (Z.of_nat (length md) <=? idx)%Z eqn:Hhigh.
    { assert (valid_position (length md) idx = false) as ->.
      { unfold valid_position. apply Z.leb_le in Hhigh.
        apply andb_false_iff. right. apply Z.ltb_ge. lia. }
      by apply IH. }
    destruct (list_getitem_valid md idx Hlow Hsent Hhigh) as (-> & -> & [meta Hmeta]).
    rewrite Hmeta. simpl.
    assert (is_Some (lets_through fo meta)) as [b Hb].
    { rewrite Forall_forall in Htotal. apply Htotal. by eapply list_elem_of_lookup_2. }
    unmonad. rewrite (rejected_lets_through fo meta b Hb), Hb.
    destruct b; simpl; [| by apply IH].
    destruct (Z.leb_spec k (Z.of_nat (length (acc ++ [(meta, score)])))) as [Hfull | Hmore].
    + rewrite length_app in Hfull. simpl in Hfull.
      regroup. rewrite take_app_length'; [done |].
      rewrite length_app. simpl. lia.
    + regroup. by apply IH.
Qed.

(** X3. What [search] returns, on a non-empty index, for [k >= 1], when the
    index labels candidates as FAISS does and the filter can be evaluated on
    every stored record: the first [k] of the raw candidates that have a
    valid position and pass the filter, each as the metadata at its position
    with its score.  Records outside the [search_k] candidates asked of the
    index cannot be returned, whether or not they pass. *)
Theorem search_first_k_eligible m (query_embedding : list F) (k : Z) (fo : option filters) :
  labels_from_minus_one knn →
  Forall (λ meta, is_Some (lets_through fo meta)) (_metadata m) →
  0 < size m →
  (1 ≤ k)%Z →
  search f32 knn m query_embedding k fo
  = (cands ← faiss_search knn (default (new_index m) (_index m))
                          (map f32 query_embedding) (search_width m k fo);
     Ok (take (Z.to_nat k) (omap (eligible (_metadata m) fo) cands))).
Proof.
  intros Hlabels Htotal Hsize Hk. unfold search.
  destruct (Nat.eqb_spec (size m) 0); [lia |].
  unmonad. destruct (faiss_search _ _ _ _) as [cands |] eqn:Hf; [| done].
  rewrite (collect_results_take _ _ _ _) with (acc := []); try done.
  - unfold faiss_search in Hf. repeat case_match; simplify_eq. apply Hlabels.
  - simpl. lia.
Qed.

Lemma collect_results_no_clauses md (k : Z) (cands : list (F * Z)) :
  ∀ acc : list (metadata * F),
    collect_results md (Some no_clauses) k cands acc = collect_results md None k cands acc.
Proof.
  induction cands as [| [score idx] rest IH]; intros acc; simpl; [done |].
  rewrite !IH. unmonad. destruct (list_getitem md idx); [| done]. simpl.
  by rewrite IH.
Qed.

(** X4. A filter dictionary without keys (what the API layer builds from a
    [MetadataFilter] whose fields are all unset) is the same as no filter:
    the same number of candidates is asked of the index and the same results
    come back. *)
Theorem search_empty_filter_is_no_filter m (query_embedding : list F) (k : Z) :
  search_width m k (Some no_clauses) = search_width m k None
  ∧ search f32 knn m query_embedding k (Some no_clauses)
    = search f32 knn m query_embedding k None.
Proof.
  split; [done |]. unfold search. destruct (size m =? 0); [done |].
  unmonad. change (search_width m k (Some no_clauses)) with (search_width m k None).
  destruct (faiss_search _ _ _ _); [| done]. apply collect_results_no_clauses.
Qed.

(** ** More on [add_documents] *)

Ltac unfold_commit :=
  unfold commit, index_train, index_add, _save_index, index, _create_index,
    is_trained, new_index, faiss_train, faiss_add, disk_image,
    set_index, set_index_type, set_metadata, set_index_file, set_metadata_file,
    new_IndexIVFFlat, new_IndexFlatIP;
  unmonad; simpl.

(** A call of [commit] that returns has appended the whole batch and
    written both files from the state it leaves. *)
Lemma commit_ok (embeddings : list (list F)) metas w n w' :
  commit embeddings metas w = (Ok n, w') →
  n = length embeddings
  ∧ _metadata (mgr w') = _metadata (mgr w) ++ metas
  ∧ _id_to_idx (mgr w') = _id_to_idx (mgr w)
  ∧ dimension (mgr w') = dimension (mgr w)
  ∧ fs w' = disk_image (mgr w')
  ∧ is_Some (_index (mgr w')).
Proof.
  destruct w as [[dim ty oix md ids] [fi fm]]. unfold_commit.
  repeat (case_match; simpl in *; simplify_eq); intros; simplify_eq; simpl;
    repeat split; eauto.
Qed.

(** A call of [commit] that raises has touched neither the metadata, nor
    the identity map, nor the files. *)
Lemma commit_raise (embeddings : list (list F)) metas w e w' :
  commit embeddings metas w = (Raise e, w') →
  _metadata (mgr w') = _metadata (mgr w)
  ∧ _id_to_idx (mgr w') = _id_to_idx (mgr w)
  ∧ dimension (mgr w') = dimension (mgr w)
  ∧ fs w' = fs w.
Proof.
  destruct w as [[dim ty oix md ids] [fi fm]]. unfold_commit.
  repeat (case_match; simpl in *; simplify_eq); intros; simplify_eq; simpl;
    repeat split; eauto.
Qed.

(** The deduplicating branch, with its loop named. *)
Lemma add_documents_dedup_unfold (embeddings : list (list F)) metas w :
  length embeddings = length metas →
  embeddings ≠ [] →
  add_documents f32 embeddings metas true w
  = let '(ids, new_embeddings, new_metadata) :=
      dedup_loop (length (_metadata (mgr w)))
                 (zip (astype_float32 f32 embeddings) metas) (_id_to_idx (mgr w)) [] [] in
    match new_embeddings with
    | [] => (Ok 0, set_id_to_idx ids w)
    | _ => commit new_embeddings new_metadata (set_id_to_idx ids w)
    end.
Proof.
  intros Hlen Hne. unfold add_documents. rewrite Hlen, Nat.eqb_refl. simpl.
  destruct (Nat.eqb_spec (length metas) 0) as [Hz | Hz].
  { destruct embeddings; [done | simpl in *; lia]. }
  unmonad. destruct (dedup_loop _ _ _ _ _) as [[ids ne] nm]. simpl.
  by destruct ne.
Qed.

Lemma add_documents_plain_unfold (embeddings : list (list F)) metas w :
  length embeddings = length metas →
  embeddings ≠ [] →
  add_documents f32 embeddings metas false w
  = commit (astype_float32 f32 embeddings) metas
      (set_id_to_idx (register_all (length (_metadata (mgr w))) 0 metas
                                   (_id_to_idx (mgr w))) w).
Proof.
  intros Hlen Hne. unfold add_documents. rewrite Hlen, Nat.eqb_refl. simpl.
  destruct (Nat.eqb_spec (length metas) 0) as [Hz | Hz].
  { destruct embeddings; [done | simpl in *; lia]. }
  by unmonad.
Qed.

(** Where the loop registers identifiers. *)
Lemma dedup_loop_positions (pairs : list (list F * metadata)) (base : nat) :
  ∀ ids (ne : list (list F)) (nm : list metadata),
  ∃ ids' ne' added,
    dedup_loop base pairs ids ne nm = (ids', ne', nm ++ added)
    ∧ (∀ key pos, ids !! key = Some pos → ids' !! key = Some pos)
    ∧ (∀ key pos, ids' !! key = Some pos →
         ids !! key = Some pos
         ∨ ∃ j meta, added !! j = Some meta ∧ doc_id meta = key
                     ∧ pos = base + length nm + j)
    ∧ (∀ j meta, added !! j = Some meta →
         ids' !! doc_id meta = Some (base + length nm + j)).
Proof.
  induction pairs as [| [emb meta] rest IH]; intros ids ne nm; simpl.
  - exists ids, ne, []. rewrite app_nil_r. repeat split; eauto.
    intros j meta Hj. by rewrite lookup_nil in Hj.
  - destruct (ids !! doc_id meta) as [p |] eqn:Hlook; [apply IH |].
    destruct (IH (<[doc_id meta := base + length (nm ++ [meta]) - 1]> ids)
                 (ne ++ [emb]) (nm ++ [meta]))
      as (ids' & ne' & added & -> & Hmono & Hback & Hfwd).
    rewrite length_app in *. simpl in *.
    replace (base + (length nm + 1) - 1) with (base + length nm) in * by lia.
    exists ids', ne', (meta :: added). rewrite <- app_assoc. simpl.
    split; [done |]. split; [| split].
    + intros key pos Hkey. apply Hmono. rewrite lookup_insert_ne; [done |].
      intros <-. congruence.
    + intros key pos [Hkey | (j & meta' & Hj & Hid & ->)]%Hback.
      * destruct (decide (doc_id meta = key)) as [<- | Hne].
        -- rewrite lookup_insert_eq in Hkey. simplify_eq.
           right. exists 0, meta. split; [done |]. split; [done |]. lia.
        -- rewrite lookup_insert_ne in Hkey by done. by left.
      * right. exists (S j), meta'. split; [done |]. split; [done |]. lia.
    + intros [| j] meta' Hj; simpl in Hj.
      * simplify_eq. apply Hmono. rewrite lookup_insert_eq. f_equal. lia.
      * rewrite (Hfwd j meta' Hj). f_equal. lia.
Qed.

Lemma add_documents_ids_agree (embeddings : list (list F)) metas w n w' :
  ids_agree (mgr w) →
  add_documents f32 embeddings metas true w = (Ok n, w') →
  ids_agree (mgr w').
Proof.
  intros [Hback Hfwd].
  destruct (decide (length embeddings = length metas)) as [Hlen | Hlen].
  2: { unfold add_documents. apply Nat.eqb_neq in Hlen. by rewrite Hlen. }
  destruct (decide (embeddings = [])) as [-> | Hne].
  { destruct metas; [| done]. by intros [= <- <-]. }
  rewrite add_documents_dedup_unfold by done.
  destruct (dedup_loop_positions (zip (astype_float32 f32 embeddings) metas)
              (length (_metadata (mgr w))) (_id_to_idx (mgr w)) [] [])
    as (ids' & ne' & added & Hloop & Hmono & Hnew & Hreg).
  destruct (dedup_loop_spec (zip (astype_float32 f32 embeddings) metas)
              (length (_metadata (mgr w))) (_id_to_idx (mgr w)) [] [])
    as (ids'' & surv & Hloop' & _).
  rewrite Hloop in Hloop'. rewrite !app_nil_l in *. simplify_eq.
  rewrite Hloop. simpl in *.
  assert (∀ md', (md' = _metadata (mgr w) ++ surv.*2) →
            (∀ key pos, ids'' !! key = Some pos →
               ∃ meta, md' !! pos = Some meta ∧ doc_id meta = key)
            ∧ (∀ pos meta, md' !! pos = Some meta → ids'' !! doc_id meta = Some pos))
    as Hagree.
  { intros md' ->. split.
    - intros key pos [Hold | (j & meta & Hj & Hid & ->)]%Hnew.
      + destruct (Hback key pos Hold) as (meta & Hm & Hid).
        exists meta. split; [| done]. by apply lookup_app_l_Some.
      + exists meta. split; [| done].
        rewrite lookup_app_r by lia.
        by replace (length (_metadata (mgr w)) + 0 + j - length (_metadata (mgr w)))
          with j by lia.
    - intros pos meta Hpos. apply lookup_app_Some in Hpos as [Hpos | [Hge Hpos]].
      + by apply Hmono, Hfwd.
      + rewrite (Hreg _ meta Hpos). f_equal. lia. }
  destruct (surv.*1) as [| e0 es] eqn:Hs.
  - apply fmap_nil_inv in Hs as ->. intros [= <- <-].
    destruct (Hagree (_metadata (mgr w))) as [H1 H2]; [by rewrite app_nil_r |].
    destruct w as [[? ? ? ? ?] ?]. by split.
  - intros (_ & Hm & Hids & _)%commit_ok.
    destruct (Hagree (_metadata (mgr w'))) as [H1 H2].
    { rewrite Hm. by destruct w as [[? ? ? ? ?] ?]. }
    assert (_id_to_idx (mgr w') = ids'') as Hids'.
    { rewrite Hids. by destruct w as [[? ? ? ? ?] ?]. }
    split; by rewrite Hids'.
Qed.

(** X5. While every call so far deduplicated and returned, the identity
    map and the metadata list agree: an identifier is registered at position
    [i] exactly when the record stored at position [i] carries it, so
    [_metadata[_id_to_idx[id]]] is the record with that identifier and no
    two stored records share one. *)
Theorem identity_map_points_home (dim : nat) (type : string)
    (calls : list (list (list F) * list metadata)) :
  match run_dedup_checked f32 calls (empty_world dim type) with
  | Some w => ids_agree (mgr w) ∧ NoDup (doc_id <$> _metadata (mgr w))
  | None => True
  end.
Proof.
  assert (∀ w, ids_agree (mgr w) →
            match run_dedup_checked f32 calls w with
            | Some w' => ids_agree (mgr w')
            | None => True
            end) as Hrun.
  { induction calls as [| [embeddings metas] rest IH]; intros w Hw; simpl; [done |].
    destruct (add_documents f32 embeddings metas true w) as [[n | e] w'] eqn:Hcall; [| done].
    apply IH. by eapply add_documents_ids_agree. }
  specialize (Hrun (empty_world dim type)).
  destruct (run_dedup_checked f32 calls (empty_world dim type)) as [w |]; [| done].
  assert (ids_agree (mgr w)) as [Hback Hfwd].
  { apply Hrun. split; simpl.
    - intros key pos Hkey. by rewrite lookup_empty in Hkey.
    - intros pos meta Hpos. by rewrite lookup_nil in Hpos. }
  split; [by split |].
  apply NoDup_alt. intros i j key Hi Hj.
  apply list_lookup_fmap_Some in Hi as (mi & -> & Hi).
  apply list_lookup_fmap_Some in Hj as (mj & Heq & Hj).
  apply Hfwd in Hi, Hj. rewrite Heq in Hi. congruence.
Qed.

(** ** Batches of the right width *)

Lemma ncols_width (x : list (list F)) (n : nat) :
  x ≠ [] → Forall (λ row, length row = n) x → ncols x = n.
Proof. destruct x as [| row rest]; [done |]. intros _ Hw. by inversion Hw. Qed.

Lemma astype_float32_width (x : list (list F)) (n : nat) :
  Forall (λ row, length row = n) x →
  Forall (λ row, length row = n) (astype_float32 f32 x).
Proof.
  unfold astype_float32. intros Hw. apply Forall_fmap.
  eapply Forall_impl; [done |]. intros row Hrow. simpl. by rewrite length_map.
Qed.

Lemma surviving_width m (embeddings : list (list F)) metas (deduplicate : bool) (n : nat) :
  Forall (λ row, length row = n) embeddings →
  Forall (λ row, length row = n) (surviving f32 m embeddings metas deduplicate).1.
Proof.
  intros Hw%astype_float32_width. unfold surviving. destruct deduplicate; [| done].
  destruct (dedup_loop_spec (zip (astype_float32 f32 embeddings) metas)
              (length (_metadata m)) (_id_to_idx m) [] [])
    as (ids' & surv & -> & Hsub & _).
  simpl. apply Forall_forall. intros row (p & -> & Hp)%list_elem_of_fmap.
  rewrite Forall_forall in Hw. apply Hw.
  eapply elem_of_sublist in Hp; [| done].
  destruct p as [row meta]. by apply elem_of_zip_l in Hp.
Qed.

(** On a manager ready for exact search [commit] accepts any non-empty
    batch of the manager's dimension. *)
Lemma commit_exact (embeddings : list (list F)) metas w :
  exact_ready (mgr w) →
  ncols embeddings = dimension (mgr w) →
  ∃ w', commit embeddings metas w = (Ok (length embeddings), w')
        ∧ exact_ready (mgr w')
        ∧ dimension (mgr w') = dimension (mgr w)
        ∧ size (mgr w') = size (mgr w) + length embeddings.
Proof.
  destruct w as [[dim ty oix md ids] [fi fm]]. intros [Hty Hix] Hcols. simpl in *.
  assert (String.eqb ty "ivf" = false) as Hty' by by apply String.eqb_neq.
  unfold_commit. rewrite Hty'. simpl. unfold exact_ready, size, ntotal. simpl.
  destruct oix as [ix |]; simpl.
  - destruct (Hix ix eq_refl) as (Hcls & Hd & Htr).
    rewrite Hd, Hcols, Nat.eqb_refl, Htr. simpl.
    eexists. split; [done |]. simpl. rewrite length_app.
    split; [| done]. split; [done |]. by intros ? [= <-].
  - rewrite Hty'. simpl. rewrite Hcols, Nat.eqb_refl. simpl.
    eexists. split; [done |]. simpl.
    split; [| done]. split; [done |]. by intros ? [= <-].
Qed.

Lemma commit_keeps_exact (embeddings : list (list F)) metas w :
  exact_ready (mgr w) →
  exact_ready (mgr (commit embeddings metas w).2)
  ∧ dimension (mgr (commit embeddings metas w).2) = dimension (mgr w).
Proof.
  destruct w as [[dim ty oix md ids] [fi fm]]. intros [Hty Hix]. simpl in *.
  assert (String.eqb ty "ivf" = false) as Hty' by by apply String.eqb_neq.
  unfold_commit. rewrite Hty'. simpl. unfold exact_ready. simpl.
  destruct oix as [ix |]; simpl.
  - destruct (Hix ix eq_refl) as (Hcls & Hd & Htr). rewrite Htr. simpl.
    destruct (ncols embeddings =? d ix); simpl;
      (split; [split; [done |]; by intros ? [= <-] | done]).
  - rewrite Hty'. simpl.
    destruct (ncols embeddings =? dim); simpl;
      (split; [split; [done |]; by intros ? [= <-] | done]).
Qed.

Lemma add_documents_keeps_exact (embeddings : list (list F)) metas (deduplicate : bool) w :
  exact_ready (mgr w) →
  exact_ready (mgr (add_documents f32 embeddings metas deduplicate w).2)
  ∧ dimension (mgr (add_documents f32 embeddings metas deduplicate w).2) = dimension (mgr w).
Proof.
  intros Hready. unfold add_documents.
  repeat (case_match; simpl; try done); unmonad.
  - destruct (dedup_loop _ _ _ _ _) as [[ids ne] nm]. simpl.
    destruct ne as [| e0 ne']; simpl.
    + by destruct w as [[? ? ? ? ?] ?].
    + destruct (commit_keeps_exact (e0 :: ne') nm (set_id_to_idx ids w)) as [Hk1 Hk2];
        by destruct w as [[? ? ? ? ?] ?].
  - match goal with
    | |- context [commit ?e ?ms ?w0] =>
        destruct (commit_keeps_exact e ms w0) as [Hk1 Hk2]
    end; by destruct w as [[? ? ? ? ?] ?].
Qed.

Lemma run_calls_keeps_exact (cs : list (call (F:=F))) : ∀ w,
  exact_ready (mgr w) →
  exact_ready (mgr (run_calls f32 cs w))
  ∧ dimension (mgr (run_calls f32 cs w)) = dimension (mgr w).
Proof.
  induction cs as [| c rest IH]; intros w Hready; simpl; [done |].
  assert (exact_ready (mgr (run_call f32 c w))
          ∧ dimension (mgr (run_call f32 c w)) = dimension (mgr w)) as [H1 H2].
  { destruct c; simpl; [by apply add_documents_keeps_exact | done |].
    destruct w as [[? ? ? ? ?] ?]. destruct Hready as [Hty _]. by repeat split. }
  destruct (IH _ H1) as [H3 H4]. split; [done |]. by rewrite H4.
Qed.

(** ** Training the clustered index *)







(** ** Persistence after a call *)

Lemma init_disk_image m ix (dim : nat) (type : string) :
  _index m = Some ix →
  mgr (init dim type (disk_image m)).2
  = Manager dim (index_type m) (Some ix) (_metadata m)
            (json_load_ids (json_dump_ids (_id_to_idx m))).
Proof.
  destruct m as [dim0 ty oix md ids]. simpl. intros ->.
  unfold init, _load_index, load_body, disk_image. unmonad. done.
Qed.

(** X8. A call of [add_documents] that returns a positive count has
    written both files from the state it leaves; when the registered
    identifiers are strings, a manager constructed afterwards over the same
    directory (a restart, with whatever configured dimension and index type)
    holds the same index, metadata, identity map and index type. *)
Theorem successful_add_survives_restart (embeddings : list (list F)) metas
    (deduplicate : bool) w (n : nat) w' (dim : nat) (type : string) :
  add_documents f32 embeddings metas deduplicate w = (Ok n, w') →
  0 < n →
  string_keys (_id_to_idx (mgr w')) →
  let m' := mgr (init dim type (fs w')).2 in
  fs w' = disk_image (mgr w')
  ∧ _index m' = _index (mgr w')
  ∧ _metadata m' = _metadata (mgr w')
  ∧ _id_to_idx m' = _id_to_idx (mgr w')
  ∧ index_type m' = index_type (mgr w')
  ∧ size m' = size (mgr w').
Proof.
  intros Hcall Hpos Hkeys m'.
  assert (fs w' = disk_image (mgr w') ∧ is_Some (_index (mgr w'))) as [Hfs [ix Hix]].
  { destruct (decide (length embeddings = length metas)) as [Hlen | Hlen].
    2: { unfold add_documents in Hcall. apply Nat.eqb_neq in Hlen.
         by rewrite Hlen in Hcall. }
    destruct (decide (embeddings = [])) as [-> | Hne].
    { destruct metas; [| done].
      assert ((Ok n, w') = (Ok 0, w)) as Hz by (by rewrite <- Hcall).
      simplify_eq. lia. }
    destruct deduplicate.
    - rewrite add_documents_dedup_unfold in Hcall by done.
      destruct (dedup_loop _ _ _ _ _) as [[ids ne] nm].
      destruct ne as [| e0 ne']; [simplify_eq; lia |].
      by apply commit_ok in Hcall as (_ & _ & _ & _ & ? & ?).
    - rewrite add_documents_plain_unfold in Hcall by done.
      by apply commit_ok in Hcall as (_ & _ & _ & _ & ? & ?). }
  subst m'. rewrite Hfs, (init_disk_image _ ix) by done.
  rewrite (json_ids_round_trip _ Hkeys). unfold size. simpl. by rewrite Hix.
Qed.

(** ** Without deduplication *)

Lemma register_all_lookup metas : ∀ (base i : nat) ids (key : pyval),
  register_all base i metas ids !! key
  = match last_position key metas (base + i) with
    | Some pos => Some pos
    | None => ids !! key
    end.
Proof.
  induction metas as [| meta rest IH]; intros base i ids key; simpl; [done |].
  rewrite IH. replace (base + S i) with (S (base + i)) by lia.
  destruct (last_position key rest (S (base + i))); [done |].
  destruct (decide (doc_id meta = key)) as [<- | Hne].
  - by rewrite lookup_insert_eq.
  - by rewrite lookup_insert_ne.
Qed.

Lemma last_position_Some (key : pyval) metas : ∀ (start pos : nat),
  last_position key metas start = Some pos →
  start ≤ pos ∧ ∃ meta, metas !! (pos - start) = Some meta ∧ doc_id meta = key.
Proof.
  induction metas as [| meta rest IH]; intros start pos; simpl; [done |].
  destruct (last_position key rest (S start)) as [pos' |] eqn:Hrest.
  - intros [= ->]. destruct (IH _ _ Hrest) as (Hle & meta' & Hm & Hid).
    split; [lia |]. exists meta'. split; [| done].
    replace (pos - start) with (S (pos - S start)) by lia. done.
  - destruct (decide (doc_id meta = key)) as [Hid | _]; [| done].
    intros [= ->]. split; [lia |]. exists meta. by rewrite Nat.sub_diag.
Qed.

Lemma last_position_is_Some metas : ∀ (start : nat) meta,
  meta ∈ metas → is_Some (last_position (doc_id meta) metas start).
Proof.
  induction metas as [| meta0 rest IH]; intros start meta Hin; simpl.
  - by apply elem_of_nil in Hin.
  - destruct (last_position (doc_id meta) rest (S start)) eqn:Hrest; [by eexists |].
    apply elem_of_cons in Hin as [-> | Hin].
    + rewrite decide_True by done. by eexists.
    + destruct (IH (S start) meta Hin) as [? ?]. congruence.
Qed.

(** X11. A call with [deduplicate = False] that returns has appended every
    record of the batch, duplicates included, and has re-registered each
    identifier of the batch at the position of the last record of the batch
    that carries it; identifiers not in the batch keep their position.  So
    every record of the batch has its identifier registered at a stored
    record with that identifier. *)
Theorem plain_add_registers_last (embeddings : list (list F)) metas w (n : nat) w' :
  add_documents f32 embeddings metas false w = (Ok n, w') →
  n = length metas
  ∧ _metadata (mgr w') = _metadata (mgr w) ++ metas
  ∧ (∀ key, _id_to_idx (mgr w') !! key
            = match last_position key metas (length (_metadata (mgr w))) with
              | Some pos => Some pos
              | None => _id_to_idx (mgr w) !! key
              end)
  ∧ Forall (λ meta, ∃ pos meta', _id_to_idx (mgr w') !! doc_id meta = Some pos
                                 ∧ _metadata (mgr w') !! pos = Some meta'
                                 ∧ doc_id meta' = doc_id meta) metas.
Proof.
  intros Hcall.
  assert (n = length metas
          ∧ _metadata (mgr w') = _metadata (mgr w) ++ metas
          ∧ _id_to_idx (mgr w')
            = register_all (length (_metadata (mgr w))) 0 metas (_id_to_idx (mgr w)))
    as (Hn & Hm & Hids).
  { destruct (decide (length embeddings = length metas)) as [Hlen | Hlen].
    2: { unfold add_documents in Hcall. apply Nat.eqb_neq in Hlen.
         by rewrite Hlen in Hcall. }
    destruct (decide (embeddings = [])) as [-> | Hne].
    { destruct metas; [| done].
      assert ((Ok n, w') = (Ok 0, w)) as Hz by (by rewrite <- Hcall).
      simplify_eq. by rewrite app_nil_r. }
    rewrite add_documents_plain_unfold in Hcall by done.
    apply commit_ok in Hcall as (-> & Hm & Hids & _).
    rewrite astype_float32_length. destruct w as [[? ? ? ? ?] ?]. done. }
  assert (∀ key, _id_to_idx (mgr w') !! key
                 = match last_position key metas (length (_metadata (mgr w))) with
                   | Some pos => Some pos
                   | None => _id_to_idx (mgr w) !! key
                   end) as Hlook.
  { intros key. rewrite Hids, register_all_lookup. by rewrite Nat.add_0_r. }
  repeat split; try done.
  apply Forall_forall. intros meta Hin.
  destruct (last_position_is_Some metas (length (_metadata (mgr w))) meta Hin) as [pos Hpos].
  destruct (last_position_Some _ _ _ _ Hpos) as (Hle & meta' & Hm' & Hid).
  exists pos, meta'. rewrite Hlook, Hpos. split; [done |]. split; [| done].
  rewrite Hm, lookup_app_r by lia. done.
Qed.

End Properties.

(** * The model at work *)

Lemma exact_knn_labels : labels_from_minus_one exact_knn.
Proof.
  intros ix q k. unfold exact_knn. apply Forall_app. split.
  - apply Forall_take. rewrite merge_sort_Permutation.
    apply Forall_forall. intros c (i & v & -> & _)%elem_of_lookup_imap. simpl. lia.
  - apply Forall_replicate. simpl. lia.
Qed.

(** The example scenario of the specification. *)
Example scenario_unfiltered :
  search id exact_knn (mgr scenario) [1; 0]%Z 1 None = Ok [(q1, 1%Z)].
Proof. vm_compute. reflexivity. Qed.

Example scenario_min_marks :
  search id exact_knn (mgr scenario) [1; 0]%Z 1
         (Some (Filters None None None (Some 8%Z) None))
  = Ok [(q2, 0%Z)].
Proof. vm_compute. reflexivity. Qed.

Example scenario_topic :
  search id exact_knn (mgr scenario) [1; 0]%Z 2
         (Some (Filters (Some ["OPT"%string]) None None None None))
  = Ok [(q2, 0%Z)].
Proof. vm_compute. reflexivity. Qed.

Example lower_ex : lower "Thermo Dynamics" = "thermo dynamics"%string.
Proof. reflexivity. Qed.

Example list_getitem_ex :
  list_getitem [10; 20; 30] (-1)%Z = Ok 30
  ∧ list_getitem [10; 20; 30] 3%Z = Raise IndexError.
Proof. split; reflexivity. Qed.

(** ** C3: a call without survivors does not fall back *)

(** An empty call on a manager configured for clustered search has a
    surviving batch of size 0, below [IVF_NLIST], yet leaves the manager as
    it was; and a batch all of whose identifiers are registered (here after
    a first call that raised in training) survives as nothing and returns 0
    before the training decision.  In both cases the state is not [FLAT],
    and a later batch of a hundred vectors trains the clustered index. *)
Lemma no_survivors_stays_clustered :
  let w := empty_world (F:=Z) 2 "ivf" in
  let w1 := (add_documents id [] [] true w).2 in
  let w2 := (add_documents id (hundred_rows [1; 0]%Z) (hundred_records 0) true w1).2 in
  let v := (add_documents id (hundred_rows [1; 0; 0]%Z) (hundred_records 0) true w).2 in
  let v1 := (add_documents id [[1; 0]%Z] [numbered 0] true v).2 in
  let v2 := (add_documents id (hundred_rows [1; 0]%Z) (hundred_records 100) true v1).2 in
  (index_type (mgr w) = "ivf"%string
   ∧ is_trained (mgr w) = false
   ∧ length (surviving id (mgr w) [] [] true).1 < IVF_NLIST
   ∧ state_of (mgr w1) ≠ FLAT
   ∧ state_of (mgr w2) = CLUSTERED_TRAINED)
  ∧ (index_type (mgr v) = "ivf"%string
     ∧ is_trained (mgr v) = false
     ∧ length (surviving id (mgr v) [[1; 0]%Z] [numbered 0] true).1 < IVF_NLIST
     ∧ (add_documents id [[1; 0]%Z] [numbered 0] true v).1 = Ok 0
     ∧ state_of (mgr v1) ≠ FLAT
     ∧ state_of (mgr v2) = CLUSTERED_TRAINED).
Proof. vm_compute. repeat split; try lia; discriminate. Qed.

Lemma undersized_batch_witness :
  let w := empty_world (F:=Z) 2 "ivf" in
  let later := [AddDocuments (hundred_rows [1; 0]%Z) (hundred_records 0) true;
                Search [1; 0]%Z 3%Z None; Clear;
                AddDocuments (hundred_rows [0; 1]%Z) (hundred_records 100) false] in
  let w1 := (add_documents id [[1; 0]; [0; 1]]%Z [q1; q2] true w).2 in
  let w2 := run_calls id later w1 in
  (index_type (mgr w) = "ivf"%string
   ∧ is_trained (mgr w) = false
   ∧ length [[1; 0]; [0; 1]]%Z = length [q1; q2]
   ∧ 0 < length (surviving id (mgr w) [[1; 0]; [0; 1]]%Z [q1; q2] true).1 < IVF_NLIST)
  ∧ state_of (mgr w1) = FLAT
  ∧ index_type (mgr w1) = "flat"%string
  ∧ index_type (mgr w2) = "flat"%string
  ∧ (state_of (mgr w2) = FLAT ∨ state_of (mgr w2) = UNINITIALIZED).
Proof.
  intros w later w1 w2.
  assert (index_type (mgr w) = "ivf"%string) as H1 by reflexivity.
  assert (is_trained (mgr w) = false) as H2 by reflexivity.
  assert (length [[1; 0]; [0; 1]]%Z = length [q1; q2]) as H3 by reflexivity.
  assert (0 < length (surviving id (mgr w) [[1; 0]; [0; 1]]%Z [q1; q2] true).1 < IVF_NLIST)
    as H4 by (vm_compute; lia).
  split; [done |].
  exact (undersized_batch_falls_back_for_good id _ _ true w later H1 H2 H3 H4).
Defined.

(** ** C4: corrupt files load silently *)

(** With a readable blob next to a sidecar that is not JSON, and with a
    sidecar and blob of dimension 2 under a manager configured for
    [EMBEDDING_DIMENSION], construction raises nothing: the first manager
    comes up with no metadata, the second loads the mismatched index. *)
Lemma corrupt_files_load_silently :
  let blob := BlobIndex (FaissIndex IndexFlatIP 2 true [[1; 0]%Z]) in
  let torn := Disk (Some blob) (Some SidecarCorrupt) in
  let other_dimension :=
    Disk (Some blob)
         (Some (SidecarJson (Sidecar (Some [q1]) (Some {[ "q1"%string := 0 ]})
                                     (Some "flat"%string) (Some 2)))) in
  (malformed torn = true
   ∧ (init EMBEDDING_DIMENSION INDEX_TYPE torn).1 = Ok tt
   ∧ (_load_index (World (fresh_manager EMBEDDING_DIMENSION INDEX_TYPE) torn)).1 = Ok false
   ∧ _metadata (mgr (init EMBEDDING_DIMENSION INDEX_TYPE torn).2) = [])
  ∧ ((init EMBEDDING_DIMENSION INDEX_TYPE other_dimension).1 = Ok tt
     ∧ (_load_index (World (fresh_manager EMBEDDING_DIMENSION INDEX_TYPE) other_dimension)).1
       = Ok true
     ∧ dimension (mgr (init EMBEDDING_DIMENSION INDEX_TYPE other_dimension).2) = 384
     ∧ d <$> _index (mgr (init EMBEDDING_DIMENSION INDEX_TYPE other_dimension).2) = Some 2
     ∧ size (mgr (init EMBEDDING_DIMENSION INDEX_TYPE other_dimension).2) = 1).
Proof. vm_compute. repeat split. Qed.

Lemma load_never_raises_witness :
  let dir : disk Z := Disk (Some BlobCorrupt)
                           (Some (SidecarJson (Sidecar (Some [q1]) None None (Some 2)))) in
  let out := _load_index (World (fresh_manager 384 "ivf") dir) in
  (index_file dir = Some BlobCorrupt
   ∧ metadata_file dir = Some (SidecarJson (Sidecar (Some [q1]) None None (Some 2))))
  ∧ out.1 = Ok false
  ∧ (init 384 "ivf" dir).1 = Ok tt
  ∧ fs out.2 = dir
  ∧ _metadata (mgr out.2) = []
  ∧ _id_to_idx (mgr out.2) = ∅
  ∧ index_type (mgr out.2) = "ivf"%string.
Proof.
  intros dir out.
  assert (index_file dir = Some BlobCorrupt) as H1 by reflexivity.
  assert (metadata_file dir = Some (SidecarJson (Sidecar (Some [q1]) None None (Some 2))))
    as H2 by reflexivity.
  split; [done |].
  exact (load_never_raises 384 "ivf" dir _ _ H1 H2).
Defined.

(** ** C5 *)

Lemma add_documents_rejects_witness :
  (length [[1; 0]%Z] ≠ length (@nil metadata)
   ∧ add_documents id [[1; 0]%Z] [] true scenario = (Raise ValueError, scenario))
  ∧ ((@nil (list Z) = [] ∧ @nil metadata = [])
     ∧ add_documents id [] [] false scenario = (Ok 0, scenario)).
Proof.
  assert (length [[1; 0]%Z] ≠ length (@nil metadata)) as H by (simpl; lia).
  assert (@nil (list Z) = [] ∧ @nil metadata = []) as H' by (split; reflexivity).
  split; (split; [done |]).
  - exact (add_documents_rejects_or_skips id [[1; 0]%Z] [] true scenario (or_introl H)).
  - exact (add_documents_rejects_or_skips id [] [] false scenario (or_intror H')).
Defined.

Lemma save_load_round_trip_witness :
  let m := mgr scenario in
  let saved := _save_index (World m empty_disk) in
  let m' := mgr (init 384 "ivf" (fs saved.2)).2 in
  (is_Some (_index m) ∧ string_keys (_id_to_idx m))
  ∧ saved.1 = Ok tt
  ∧ size m' = size m
  ∧ _id_to_idx m' = _id_to_idx m
  ∧ _metadata m' = _metadata m
  ∧ ∀ query_embedding k fo,
      search id exact_knn m' query_embedding k fo
      = search id exact_knn m query_embedding k fo.
Proof.
  intros m saved m'.
  assert (is_Some (_index m)) as H1 by (vm_compute; by eexists).
  assert (string_keys (_id_to_idx m)) as H2.
  { apply (bool_decide_unpack (string_keys _)). vm_compute. exact I. }
  split; [done |].
  exact (save_load_round_trip id exact_knn m empty_disk 384 "ivf" H1 H2).
Defined.

(** ** C8, C9 *)

Lemma search_width_and_order_witness :
  let m := mgr scenario in
  let fo := Some (Filters None None None (Some 8%Z) None) in
  let ix := default (new_index m) (_index m) in
  let asked := if filters_given fo then Z.min (3 * 1) (Z.of_nat (size m)) else 1%Z in
  (0 < size m ∧ (1 ≤ 1)%Z)
  ∧ search_width m 1 fo = asked
  ∧ search id exact_knn m [1; 0]%Z 1 fo
    = (cands ← faiss_search exact_knn ix (map id [1; 0]%Z) asked;
       collect_results (_metadata m) fo 1 cands [])
  ∧ match search id exact_knn m [1; 0]%Z 1 fo with
    | Ok results =>
        (Z.of_nat (length results) ≤ 1)%Z
        ∧ ∃ kept,
            sublist kept (exact_knn ix (map id [1; 0]%Z) asked)
            ∧ Forall2 (resolves (_metadata m)) results kept
            ∧ sublist (results.*2) ((exact_knn ix (map id [1; 0]%Z) asked).*1)
    | Raise _ => True
    end.
Proof.
  intros m fo ix asked.
  assert (0 < size m) as H1 by (vm_compute; lia).
  assert (1 ≤ 1)%Z as H2 by lia.
  split; [done |].
  exact (search_width_and_order id exact_knn m [1; 0]%Z 1 fo H1 H2).
Defined.

Lemma candidates_validated_witness :
  let m := mgr scenario in
  labels_from_minus_one exact_knn
  ∧ search id exact_knn m [1; 0]%Z 5 None ≠ Raise IndexError
  ∧ search id exact_knn m [1; 0]%Z 5 None
    = search id
        (λ ix q n, filter (λ c : Z * Z, valid_position (length (_metadata m)) c.2 = true)
                          (exact_knn ix q n))
        m [1; 0]%Z 5 None.
Proof.
  intros m. split; [exact exact_knn_labels |].
  exact (candidates_validated id exact_knn m [1; 0]%Z 5 None exact_knn_labels).
Defined.

(** ** X2, X3: filtered search on the example scenario *)

Lemma search_results_pass_filter_witness :
  let f := Filters None None None (Some 8%Z) None in
  filters_nonempty f = true
  ∧ match search id exact_knn (mgr scenario) [1; 0]%Z 1 (Some f) with
    | Ok results => Forall (λ r, _matches_filters r.1 f = Ok true) results
    | Raise _ => True
    end.
Proof.
  intros f. assert (filters_nonempty f = true) as H by reflexivity.
  split; [done |].
  exact (search_results_pass_filter id exact_knn (mgr scenario) [1; 0]%Z 1 f H).
Defined.

Lemma search_first_k_eligible_witness :
  let m := mgr scenario in
  let fo := Some (Filters (Some ["optics"%string]) None None None (Some 10%Z)) in
  (labels_from_minus_one exact_knn
   ∧ Forall (λ meta, is_Some (lets_through fo meta)) (_metadata m)
   ∧ 0 < size m
   ∧ (1 ≤ 2)%Z)
  ∧ search id exact_knn m [1; 0]%Z 2 fo
    = (cands ← faiss_search exact_knn (default (new_index m) (_index m))
                            (map id [1; 0]%Z) (search_width m 2 fo);
       Ok (take (Z.to_nat 2) (omap (eligible (_metadata m) fo) cands))).
Proof.
  intros m fo.
  assert (Forall (λ meta, is_Some (lets_through fo meta)) (_metadata m)) as H2.
  { vm_compute. repeat constructor; by eexists. }
  assert (0 < size m) as H3 by (vm_compute; lia).
  assert (1 ≤ 2)%Z as H4 by lia.
  split; [by repeat split; try apply exact_knn_labels |].
  exact (search_first_k_eligible id exact_knn m [1; 0]%Z 2 fo exact_knn_labels H2 H3 H4).
Defined.

(** ** X6, X8, X11: calls on small managers *)


Lemma successful_add_survives_restart_witness :
  let w := empty_world (F:=Z) 2 "flat" in
  let m' := mgr (init 384 "ivf" (fs scenario)).2 in
  (add_documents id [[1; 0]; [0; 1]]%Z [q1; q2] true w = (Ok 2, scenario)
   ∧ 0 < 2
   ∧ string_keys (_id_to_idx (mgr scenario)))
  ∧ fs scenario = disk_image (mgr scenario)
  ∧ _index m' = _index (mgr scenario)
  ∧ _metadata m' = _metadata (mgr scenario)
  ∧ _id_to_idx m' = _id_to_idx (mgr scenario)
  ∧ index_type m' = index_type (mgr scenario)
  ∧ size m' = size (mgr scenario).
Proof.
  intros w m'.
  assert (add_documents id [[1; 0]; [0; 1]]%Z [q1; q2] true w = (Ok 2, scenario)) as H1
    by (vm_compute; reflexivity).
  assert (0 < 2) as H2 by lia.
  assert (string_keys (_id_to_idx (mgr scenario))) as H3.
  { apply (bool_decide_unpack (string_keys _)). vm_compute. exact I. }
  split; [done |].
  exact (successful_add_survives_restart id _ _ true w 2 scenario 384 "ivf" H1 H2 H3).
Defined.

Lemma plain_add_registers_last_witness :
  let w := empty_world (F:=Z) 2 "flat" in
  let w' := (add_documents id [[1; 0]; [0; 1]]%Z [q1; q1] false w).2 in
  add_documents id [[1; 0]; [0; 1]]%Z [q1; q1] false w = (Ok 2, w')
  ∧ 2 = length [q1; q1]
  ∧ _metadata (mgr w') = _metadata (mgr w) ++ [q1; q1]
  ∧ (∀ key, _id_to_idx (mgr w') !! key
            = match last_position key [q1; q1] (length (_metadata (mgr w))) with
              | Some pos => Some pos
              | None => _id_to_idx (mgr w) !! key
              end)
  ∧ Forall (λ meta, ∃ pos meta', _id_to_idx (mgr w') !! doc_id meta = Some pos
                                 ∧ _metadata (mgr w') !! pos = Some meta'
                                 ∧ doc_id meta' = doc_id meta) [q1; q1].
Proof.
  intros w w'.
  assert (add_documents id [[1; 0]; [0; 1]]%Z [q1; q1] false w = (Ok 2, w')) as H1
    by (vm_compute; reflexivity).
  split; [done |].
  exact (plain_add_registers_last id _ _ w 2 w' H1).
Defined.

(** ** X10, X12: the membership clauses of [_matches_filters] *)

Lemma lower_empty (t : string) : lower t = ""%string → t = ""%string.
Proof. by destruct t. Qed.

Lemma str_contains_in_empty (t : string) : t ≠ ""%string → str_contains t "" = false.
Proof. by destruct t. Qed.

Lemma topic_clause_lower (meta : metadata) (f : filters) (s s' : string)
    (ts ts' : list string) :
  lower s = lower s' →
  Forall2 (λ t t', lower t = lower t') ts ts' →
  topic_clause (<["topic" := PyStr s]> meta)
               (Filters (Some ts) (types f) (paper_ids f) (min_marks f) (max_marks f))
  = topic_clause (<["topic" := PyStr s']> meta)
                 (Filters (Some ts') (types f) (paper_ids f) (min_marks f) (max_marks f)).
Proof.
  intros Hs Hts. unfold topic_clause, dict_get_or. simpl.
  rewrite !lookup_insert_eq. simpl. rewrite Hs.
  destruct Hts as [| t t' ts0 ts0' Ht Hrest]; [done |].
  f_equal. simpl. rewrite Ht. f_equal.
  induction Hrest as [| u u' us us' Hu _ IH]; simpl; [done |]. by rewrite Hu, IH.
Qed.

(** X10. The topic clause ignores letter case: replacing the record's
    topic and the filter's topic strings by strings with the same lowercase
    form does not change the answer of [_matches_filters]. *)
Theorem topic_filter_ignores_case (meta : metadata) (f : filters) (s s' : string)
    (ts ts' : list string) :
  lower s = lower s' →
  Forall2 (λ t t', lower t = lower t') ts ts' →
  _matches_filters (<["topic" := PyStr s]> meta)
                   (Filters (Some ts) (types f) (paper_ids f) (min_marks f) (max_marks f))
  = _matches_filters (<["topic" := PyStr s']> meta)
                     (Filters (Some ts') (types f) (paper_ids f) (min_marks f) (max_marks f)).
Proof.
  intros Hs Hts. unfold _matches_filters.
  rewrite (topic_clause_lower meta f s s' ts ts' Hs Hts).
  unfold type_clause, paper_clause, marks_clause, dict_get_or, dict_get. simpl.
  rewrite !lookup_insert_ne by done. done.
Qed.

Lemma topic_filter_ignores_case_witness :
  (lower "Thermo Dynamics" = lower "THERMO dynamics"
   ∧ Forall2 (λ t t', lower t = lower t') ["thermo"; "Optics"]%string ["THERMO"; "optics"]%string)
  ∧ _matches_filters (<["topic" := PyStr "Thermo Dynamics"]> q1)
                     (Filters (Some ["thermo"; "Optics"]%string) None None None None)
    = _matches_filters (<["topic" := PyStr "THERMO dynamics"]> q1)
                       (Filters (Some ["THERMO"; "optics"]%string) None None None None).
Proof.
  assert (lower "Thermo Dynamics" = lower "THERMO dynamics") as H1 by reflexivity.
  assert (Forall2 (λ t t', lower t = lower t')
                  ["thermo"; "Optics"]%string ["THERMO"; "optics"]%string) as H2
    by (repeat constructor).
  split; [done |].
  exact (topic_filter_ignores_case q1 no_clauses _ _ _ _ H1 H2).
Defined.

Lemma existsb_eqb_false (s : string) (l : list string) :
  s ∉ l → existsb (String.eqb s) l = false.
Proof.
  induction l as [| t rest IH]; simpl; [done |].
  intros Hnot. apply not_elem_of_cons in Hnot as [Hne Hrest].
  apply String.eqb_neq in Hne. by rewrite Hne, IH.
Qed.

Lemma topic_clause_delete (meta : metadata) (f : filters) (key : string) :
  key ≠ "topic"%string →
  topic_clause (delete key meta) f = topic_clause meta f.
Proof. intros Hk. unfold topic_clause, dict_get_or. by rewrite lookup_delete_ne. Qed.

Lemma type_clause_delete (meta : metadata) (f : filters) (key : string) :
  key ≠ "type"%string →
  type_clause (delete key meta) f = type_clause meta f.
Proof. intros Hk. unfold type_clause, dict_get_or. by rewrite lookup_delete_ne. Qed.

(** X12. Unlike the marks clause, the membership clauses exclude a record
    that lacks the field, whatever the other clauses of the filter.  With
    a non-empty list that does not contain the empty string: a record
    without a ["topic"] key gets [False] from a filter with that topics
    list; a record without a ["type"] key gets [False] from a filter with
    that types list, and a record without a ["paper_id"] key gets [False]
    from a filter with that paper-ids list, unless the topic clause, which
    runs first, raises instead.  The topic clause raises only
    [AttributeError], and only when the filter has a non-empty topics list
    and the record has a ["topic"] value that is not a string. *)
Theorem missing_field_fails_membership (meta : metadata) (f : filters) (l : list string) :
  l ≠ [] →
  ""%string ∉ l →
  (topics f = Some l → _matches_filters (delete "topic" meta) f = Ok false)
  ∧ (types f = Some l →
     _matches_filters (delete "type" meta) f
     = match topic_clause meta f with Ok _ => Ok false | Raise e => Raise e end)
  ∧ (paper_ids f = Some l →
     _matches_filters (delete "paper_id" meta) f
     = match topic_clause meta f with Ok _ => Ok false | Raise e => Raise e end)
  ∧ (∀ e, topic_clause meta f = Raise e →
          e = AttributeError
          ∧ (∃ t ts, topics f = Some (t :: ts))
          ∧ ∃ v, meta !! "topic"%string = Some v ∧ ∀ s, v ≠ PyStr s).
Proof.
  intros Hne Hnot. destruct l as [| t ts]; [done |].
  split; [| split; [| split]].
  - intros Htopics. unfold _matches_filters, topic_clause, dict_get_or.
    rewrite Htopics, lookup_delete_eq. cbn -[existsb str_contains].
    assert (existsb (λ t', str_contains (lower t') "") (t :: ts) = false) as ->; [| done].
    apply not_true_iff_false. intros (u & Hin%list_elem_of_In & Hu)%existsb_exists.
    rewrite str_contains_in_empty in Hu; [done |].
    intros Hl%lower_empty. by subst.
  - intros Htypes. unfold _matches_filters. rewrite topic_clause_delete by done.
    destruct (topic_clause meta f) as [[] | e]; [| done | done].
    assert (type_clause (delete "type" meta) f = false) as Hclause.
    { unfold type_clause, dict_get_or. rewrite Htypes, lookup_delete_eq.
      cbn -[existsb String.eqb]. by apply existsb_eqb_false. }
    cbn. by rewrite Hclause.
  - intros Hpapers. unfold _matches_filters. rewrite topic_clause_delete by done.
    destruct (topic_clause meta f) as [[] | e]; [| done | done].
    assert (paper_clause (delete "paper_id" meta) f = false) as Hclause.
    { unfold paper_clause, dict_get_or. rewrite Hpapers, lookup_delete_eq.
      cbn -[existsb String.eqb]. by apply existsb_eqb_false. }
    cbn. rewrite Hclause. by destruct (type_clause _ f).
  - intros e He. unfold topic_clause, dict_get_or in He.
    destruct (topics f) as [[| t0 ts0] |]; [done | | done].
    destruct (meta !! "topic"%string) as [v |] eqn:Hv; [| done].
    destruct v; simpl in He; simplify_eq;
      (split; [done |]; split; [by eauto |]; eexists; split; [done |]; by intros s).
Qed.

Lemma missing_field_fails_membership_witness :
  let l := ["Optics"%string] in
  let f := Filters (Some l) (Some l) (Some l) (Some 20%Z) None in
  (l ≠ [] ∧ ""%string ∉ l)
  ∧ _matches_filters (delete "topic" q2) f = Ok false
  ∧ _matches_filters (delete "type" q2) f = Ok false
  ∧ _matches_filters (delete "paper_id" q2) f = Ok false.
Proof.
  intros l f.
  assert (l ≠ []) as H1 by done.
  assert (""%string ∉ l) as H2.
  { intros [H | H]%elem_of_cons; [done | by apply elem_of_nil in H]. }
  pose proof (missing_field_fails_membership q2 f l H1 H2) as (Ha & Hb & Hc & _).
  split; [done |].
  split; [exact (Ha eq_refl) |]. split; [exact (Hb eq_refl) | exact (Hc eq_refl)].
Defined.

(** * When the save fails *)

Section OpenSaveProperties.
Context {F : Type}.
Variable f32 : F → F.

Ltac unfold_commit_with :=
  unfold commit_with, no_save, index_train, index_add, index, _create_index,
    is_trained, new_index, faiss_train, faiss_add,
    set_index, set_index_type, set_metadata,
    new_IndexIVFFlat, new_IndexFlatIP;
  unmonad; simpl.

(** With [_save_index] for the save step, these are [commit] and
    [add_documents]. *)
Lemma add_documents_with_save (embeddings : list (list F)) metas (deduplicate : bool) w :
  add_documents_with f32 _save_index embeddings metas deduplicate w
  = add_documents f32 embeddings metas deduplicate w.
Proof. reflexivity. Qed.

(** [commit_with] runs its in-memory part, and then the save on the state
    that part leaves. *)
Lemma commit_with_split (save : M (world F) unit) (embeddings : list (list F)) metas w :
  commit_with save embeddings metas w
  = match commit_with no_save embeddings metas w with
    | (Ok n, w_mem) => (save;; mret n) w_mem
    | (Raise e, w') => (Raise e, w')
    end.
Proof.
  destruct w as [[dim ty oix md ids] [fi fm]]. unfold_commit_with.
  repeat (case_match; simpl in *; simplify_eq); done.
Qed.

Lemma commit_memory_ok (embeddings : list (list F)) metas w n w' :
  commit_with no_save embeddings metas w = (Ok n, w') →
  n = length embeddings
  ∧ _metadata (mgr w') = _metadata (mgr w) ++ metas
  ∧ _id_to_idx (mgr w') = _id_to_idx (mgr w)
  ∧ fs w' = fs w.
Proof.
  destruct w as [[dim ty oix md ids] [fi fm]]. unfold_commit_with.
  repeat (case_match; simpl in *; simplify_eq); intros; simplify_eq; simpl;
    repeat split; eauto.
Qed.

Lemma commit_memory_raise (embeddings : list (list F)) metas w e w' :
  commit_with no_save embeddings metas w = (Raise e, w') →
  _metadata (mgr w') = _metadata (mgr w)
  ∧ _id_to_idx (mgr w') = _id_to_idx (mgr w)
  ∧ fs w' = fs w.
Proof.
  destruct w as [[dim ty oix md ids] [fi fm]]. unfold_commit_with.
  repeat (case_match; simpl in *; simplify_eq); intros; simplify_eq; simpl;
    repeat split; eauto.
Qed.

(** On a manager ready for exact search the in-memory part accepts any
    batch of the manager's dimension. *)
Lemma commit_memory_exact (embeddings : list (list F)) metas w :
  exact_ready (mgr w) →
  ncols embeddings = dimension (mgr w) →
  ∃ w', commit_with no_save embeddings metas w = (Ok (length embeddings), w')
        ∧ size (mgr w') = size (mgr w) + length embeddings
        ∧ fs w' = fs w.
Proof.
  destruct w as [[dim ty oix md ids] [fi fm]]. intros [Hty Hix] Hcols. simpl in *.
  assert (String.eqb ty "ivf" = false) as Hty' by by apply String.eqb_neq.
  unfold_commit_with. rewrite Hty'. simpl. unfold size, ntotal. simpl.
  destruct oix as [ix |]; simpl.
  - destruct (Hix ix eq_refl) as (Hcls & Hd & Htr).
    rewrite Hd, Hcols, Nat.eqb_refl, Htr. simpl.
    eexists. split; [done |]. simpl. by rewrite length_app.
  - rewrite Hty'. simpl. rewrite Hcols, Nat.eqb_refl. simpl.
    eexists. split; [done |]. done.
Qed.

Lemma add_documents_with_dedup_unfold (save : M (world F) unit)
    (embeddings : list (list F)) metas w :
  length embeddings = length metas →
  embeddings ≠ [] →
  add_documents_with f32 save embeddings metas true w
  = let '(ids, new_embeddings, new_metadata) :=
      dedup_loop (length (_metadata (mgr w)))
                 (zip (astype_float32 f32 embeddings) metas) (_id_to_idx (mgr w)) [] [] in
    match new_embeddings with
    | [] => (Ok 0, set_id_to_idx ids w)
    | _ => commit_with save new_embeddings new_metadata (set_id_to_idx ids w)
    end.
Proof.
  intros Hlen Hne. unfold add_documents_with. rewrite Hlen, Nat.eqb_refl. simpl.
  destruct (Nat.eqb_spec (length metas) 0) as [Hz | Hz].
  { destruct embeddings; [done | simpl in *; lia]. }
  unmonad. destruct (dedup_loop _ _ _ _ _) as [[ids ne] nm]. simpl.
  by destruct ne.
Qed.

Lemma add_documents_with_plain_unfold (save : M (world F) unit)
    (embeddings : list (list F)) metas w :
  length embeddings = length metas →
  embeddings ≠ [] →
  add_documents_with f32 save embeddings metas false w
  = commit_with save (astype_float32 f32 embeddings) metas
      (set_id_to_idx (register_all (length (_metadata (mgr w))) 0 metas
                                   (_id_to_idx (mgr w))) w).
Proof.
  intros Hlen Hne. unfold add_documents_with. rewrite Hlen, Nat.eqb_refl. simpl.
  destruct (Nat.eqb_spec (length metas) 0) as [Hz | Hz].
  { destruct embeddings; [done | simpl in *; lia]. }
  reflexivity.
Qed.

Lemma add_documents_with_all_known (save : M (world F) unit)
    (embeddings : list (list F)) metas w :
  length embeddings = length metas →
  (∀ p, p ∈ zip (astype_float32 f32 embeddings) metas →
        doc_id p.2 ∈ dom (_id_to_idx (mgr w))) →
  add_documents_with f32 save embeddings metas true w = (Ok 0, w).
Proof.
  intros Hlen Hknown. unfold add_documents_with.
  rewrite Hlen, Nat.eqb_refl. simpl.
  destruct (Nat.eqb_spec (length metas) 0) as [Hz | Hz]; [done |].
  unmonad. rewrite dedup_loop_all_known by done. simpl.
  by rewrite set_id_to_idx_same.
Qed.

(** X7. On a manager configured for exact search (any index type other
    than ["ivf"]) and constructed over an empty directory, after any calls
    of [add_documents], [search] and [clear] in which no write failed, a
    call of [add_documents] whose arrays have one length and whose rows all
    have the manager's dimension passes every check that comes before the
    save.  When nothing survives the deduplication it returns 0 without
    saving; otherwise it reaches the save with the files untouched and the
    reported [size] grown by exactly the size of the surviving batch, and
    what the call returns or raises from there is what the save step does:
    it returns that size if the save returns, and raises only what the save
    raises. *)
Theorem exact_index_accepts_well_shaped_batches (save : M (world F) unit)
    (dim : nat) (type : string) (history : list (call (F:=F)))
    (embeddings : list (list F)) metas (deduplicate : bool) :
  type ≠ "ivf"%string →
  length embeddings = length metas →
  Forall (λ row, length row = dim) embeddings →
  let w := run_calls f32 history (empty_world dim type) in
  let batch := (surviving f32 (mgr w) embeddings metas deduplicate).1 in
  length batch ≤ length embeddings
  ∧ ∃ w1,
      size (mgr w1) = size (mgr w) + length batch
      ∧ fs w1 = fs w
      ∧ add_documents_with f32 save embeddings metas deduplicate w
        = match batch with
          | [] => (Ok 0, w1)
          | _ => (save;; mret (length batch)) w1
          end.
Proof.
  intros Htype Hlen Hwidth w batch.
  assert (exact_ready (mgr w) ∧ dimension (mgr w) = dim) as [Hready Hdim].
  { apply (run_calls_keeps_exact f32 history (empty_world dim type)). by split. }
  pose proof (surviving_width f32 (mgr w) embeddings metas deduplicate dim Hwidth) as Hbw.
  fold batch in Hbw. subst batch.
  destruct (decide (embeddings = [])) as [-> | Hne].
  { destruct metas; [| done]. split; [by destruct deduplicate |].
    exists w. by destruct deduplicate. }
  unfold surviving in *. destruct deduplicate.
  - rewrite add_documents_with_dedup_unfold by done.
    destruct (dedup_loop_spec (zip (astype_float32 f32 embeddings) metas)
                (length (_metadata (mgr w))) (_id_to_idx (mgr w)) [] [])
      as (ids' & surv & Hloop & Hsub & _).
    rewrite Hloop in *. rewrite !app_nil_l in *. simpl in Hbw |- *.
    assert (length surv.*1 ≤ length embeddings) as Hle.
    { rewrite length_fmap. apply sublist_length in Hsub.
      rewrite length_zip, astype_float32_length in Hsub. lia. }
    split; [done |].
    destruct (surv.*1) as [| e0 es] eqn:Hs.
    + exists (set_id_to_idx ids' w). destruct w as [[? ? ? ? ?] ?].
      unfold size. simpl. split; [lia | done].
    + destruct (commit_memory_exact (e0 :: es) (surv.*2) (set_id_to_idx ids' w))
        as (w' & Hc & Hsize & Hfs).
      { by destruct w as [[? ? ? ? ?] ?]. }
      { rewrite (ncols_width _ dim); [| done | done].
        by destruct w as [[? ? ? ? ?] ?]. }
      rewrite commit_with_split, Hc. exists w'.
      split; [rewrite Hsize; by destruct w as [[? ? ? ? ?] ?] |].
      split; [rewrite Hfs; by destruct w as [[? ? ? ? ?] ?] | done].
  - rewrite add_documents_with_plain_unfold by done. simpl in Hbw |- *.
    split; [by rewrite astype_float32_length |].
    match goal with
    | |- context [commit_with save ?e ?ms ?w0] =>
        destruct (commit_memory_exact e ms w0) as (w' & Hc & Hsize & Hfs)
    end.
    { by destruct w as [[? ? ? ? ?] ?]. }
    { rewrite (ncols_width _ dim); [| | done].
      - by destruct w as [[? ? ? ? ?] ?].
      - intros Hnil%fmap_nil_inv. done. }
    rewrite commit_with_split, Hc. exists w'.
    split; [rewrite Hsize; by destruct w as [[? ? ? ? ?] ?] |].
    split; [rewrite Hfs; by destruct w as [[? ? ? ? ?] ?] |].
    destruct (astype_float32 f32 embeddings) eqn:Ha; [| done].
    by apply fmap_nil_inv in Ha.
Qed.

(** X9. A deduplicating call that raises after the length check leaves
    every identifier of the batch registered, so the same call made again
    returns 0, adds nothing and saves nothing, whether its own save would
    work or not.  Either the raise came before the save (a batch of the
    wrong width, for instance), and then nothing was stored and no file
    written; or it is the save that raised, on a state that already holds
    the surviving records, and they stay in the metadata list.  The save
    step is any step that leaves the manager alone. *)
Theorem failed_call_blocks_retry (save save' : M (world F) unit)
    (embeddings : list (list F)) metas w (e : exn) w1 :
  writes_only save →
  length embeddings = length metas →
  add_documents_with f32 save embeddings metas true w = (Raise e, w1) →
  Forall (λ p, doc_id p.2 ∈ dom (_id_to_idx (mgr w1)))
         (zip (astype_float32 f32 embeddings) metas)
  ∧ add_documents_with f32 save' embeddings metas true w1 = (Ok 0, w1)
  ∧ ((_metadata (mgr w1) = _metadata (mgr w) ∧ fs w1 = fs w)
     ∨ ∃ w_mem,
         save w_mem = (Raise e, w1)
         ∧ fs w_mem = fs w
         ∧ _metadata (mgr w1)
           = _metadata (mgr w) ++ (surviving f32 (mgr w) embeddings metas true).2).
Proof.
  intros Hsave Hlen Hcall.
  assert (embeddings ≠ []) as Hne.
  { intros ->. destruct metas; [| done].
    assert ((Raise e, w1) = (@Ok nat 0, w)) as Hz by (by rewrite <- Hcall). done. }
  rewrite add_documents_with_dedup_unfold in Hcall by done.
  unfold surviving.
  destruct (dedup_loop_spec (zip (astype_float32 f32 embeddings) metas)
              (length (_metadata (mgr w))) (_id_to_idx (mgr w)) [] [])
    as (ids' & surv & Hloop & Hsub & Hdom & _).
  rewrite Hloop in *. rewrite !app_nil_l in *. simpl in Hcall |- *.
  destruct (surv.*1) as [| e0 es] eqn:Hs; [done |].
  rewrite commit_with_split in Hcall.
  assert (_id_to_idx (mgr w1) = ids'
          ∧ ((_metadata (mgr w1) = _metadata (mgr w) ∧ fs w1 = fs w)
             ∨ ∃ w_mem, save w_mem = (Raise e, w1) ∧ fs w_mem = fs w
                        ∧ _metadata (mgr w1) = _metadata (mgr w) ++ surv.*2))
    as [Hids Hcases].
  { destruct (commit_with no_save (e0 :: es) surv.*2 (set_id_to_idx ids' w))
      as [[n | e'] w_mem] eqn:Hmem.
    - apply commit_memory_ok in Hmem as (_ & Hmd & Hid & Hfs).
      unmonad. destruct (save w_mem) as [[[] | e''] w2] eqn:Hsv; [done |].
      simplify_eq. pose proof (Hsave w_mem) as Hmgr. rewrite Hsv in Hmgr. simpl in Hmgr.
      rewrite Hmgr. split; [rewrite Hid; by destruct w as [[? ? ? ? ?] ?] |].
      right. exists w_mem. split; [done |].
      split; [rewrite Hfs; by destruct w as [[? ? ? ? ?] ?] |].
      rewrite Hmd. by destruct w as [[? ? ? ? ?] ?].
    - apply commit_memory_raise in Hmem as (Hmd & Hid & Hfs). simplify_eq.
      split; [rewrite Hid; by destruct w as [[? ? ? ? ?] ?] |].
      left. rewrite Hmd, Hfs. by destruct w as [[? ? ? ? ?] ?]. }
  assert (Forall (λ p, doc_id p.2 ∈ dom (_id_to_idx (mgr w1)))
                 (zip (astype_float32 f32 embeddings) metas)) as Hreg.
  { apply Forall_forall. intros p Hp. rewrite Hids, Hdom.
    apply elem_of_union_r, elem_of_list_to_set, list_elem_of_fmap.
    exists p.2. split; [done |]. apply list_elem_of_fmap. by exists p. }
  split; [done |]. split; [| done].
  apply add_documents_with_all_known; [done |]. by apply Forall_forall.
Qed.

End OpenSaveProperties.

Lemma refused_write_writes_only {F} : writes_only (refused_write (F:=F)).
Proof. by intros w. Qed.

Lemma exact_index_accepts_witness :
  let history := [AddDocuments [[1; 0]%Z] [q1] true; Clear;
                  AddDocuments [[1; 0; 0]%Z] [q2] false] in
  let w := run_calls id history (empty_world 2 "flat") in
  let batch := (surviving id (mgr w) [[1; 0]; [0; 1]]%Z [q1; q2] true).1 in
  ("flat"%string ≠ "ivf"%string
   ∧ length [[1; 0]; [0; 1]]%Z = length [q1; q2]
   ∧ Forall (λ row : list Z, length row = 2) [[1; 0]; [0; 1]]%Z)
  ∧ length batch ≤ length [[1; 0]; [0; 1]]%Z
  ∧ ∃ w1,
      size (mgr w1) = size (mgr w) + length batch
      ∧ fs w1 = fs w
      ∧ add_documents_with id refused_write [[1; 0]; [0; 1]]%Z [q1; q2] true w
        = match batch with
          | [] => (Ok 0, w1)
          | _ => (refused_write;; mret (length batch)) w1
          end.
Proof.
  intros history w batch.
  assert ("flat"%string ≠ "ivf"%string) as H1 by done.
  assert (length [[1; 0]; [0; 1]]%Z = length [q1; q2]) as H2 by reflexivity.
  assert (Forall (λ row : list Z, length row = 2) [[1; 0]; [0; 1]]%Z) as H3
    by (repeat constructor).
  split; [done |].
  exact (exact_index_accepts_well_shaped_batches id refused_write 2 "flat" history
           _ _ true H1 H2 H3).
Defined.

Lemma failed_call_blocks_retry_witness :
  let w := empty_world (F:=Z) 2 "flat" in
  let w1 := (add_documents_with id refused_write [[1; 0]%Z] [q1] true w).2 in
  (writes_only (refused_write (F:=Z))
   ∧ length [[1; 0]%Z] = length [q1]
   ∧ add_documents_with id refused_write [[1; 0]%Z] [q1] true w = (Raise RuntimeError, w1))
  ∧ Forall (λ p, doc_id p.2 ∈ dom (_id_to_idx (mgr w1)))
           (zip (astype_float32 id [[1; 0]%Z]) [q1])
  ∧ add_documents_with id _save_index [[1; 0]%Z] [q1] true w1 = (Ok 0, w1)
  ∧ ((_metadata (mgr w1) = _metadata (mgr w) ∧ fs w1 = fs w)
     ∨ ∃ w_mem,
         refused_write w_mem = (Raise RuntimeError, w1)
         ∧ fs w_mem = fs w
         ∧ _metadata (mgr w1)
           = _metadata (mgr w) ++ (surviving id (mgr w) [[1; 0]%Z] [q1] true).2).
Proof.
  intros w w1.
  assert (length [[1; 0]%Z] = length [q1]) as H1 by reflexivity.
  assert (add_documents_with id refused_write [[1; 0]%Z] [q1] true w
          = (Raise RuntimeError, w1)) as H2 by (vm_compute; reflexivity).
  split; [by split; [apply refused_write_writes_only |] |].
  exact (failed_call_blocks_retry id refused_write _save_index _ _ w RuntimeError w1
           refused_write_writes_only H1 H2).
Defined.

(** * Properties of the services around the manager *)

(** ** Text *)

Lemma length_text_of (l : list ascii) : String.length (text_of l) = length l.
Proof. induction l as [| c l IH]; simpl; [done | by rewrite IH]. Qed.

Lemma length_chars (s : string) : length (chars s) = String.length s.
Proof. induction s as [| c s IH]; simpl; [done | by rewrite IH]. Qed.

Lemma length_append (a b : string) :
  String.length (a +:+ b) = String.length a + String.length b.
Proof. induction a as [| c a IH]; simpl; [done | by rewrite IH]. Qed.

Lemma length_py_slice_to (s : string) (n : Z) :
  (0 ≤ n)%Z → String.length (py_slice_to s n) = Z.to_nat n `min` String.length s.
Proof.
  intros Hn. unfold py_slice_to.
  destruct (Z.leb_spec 0 n) as [_ | ?]; [| lia].
  by rewrite length_text_of, length_take, length_chars.
Qed.

Lemma length_py_slice_to_neg (s : string) (n : Z) :
  (n < 0)%Z →
  String.length (py_slice_to s n) = Z.to_nat (Z.of_nat (String.length s) + n).
Proof.
  intros Hn. unfold py_slice_to.
  destruct (Z.leb_spec 0 n) as [? | _]; [lia |].
  rewrite length_text_of, length_take, length_chars. lia.
Qed.

Lemma truncate_short (max_chunk_size : Z) (t : string) :
  (Z.of_nat (String.length t) ≤ max_chunk_size)%Z → truncate max_chunk_size t = t.
Proof.
  intros Hle. unfold truncate.
  by destruct (Z.ltb_spec max_chunk_size (Z.of_nat (String.length t))); [lia |].
Qed.

Lemma truncate_long (max_chunk_size : Z) (t : string) :
  (max_chunk_size < Z.of_nat (String.length t))%Z →
  Z.of_nat (String.length (truncate max_chunk_size t))
  = if (3 <=? max_chunk_size)%Z then max_chunk_size
    else (Z.max 0 (Z.of_nat (String.length t) + max_chunk_size - 3) + 3)%Z.
Proof.
  intros Hlt. unfold truncate.
  destruct (Z.ltb_spec max_chunk_size (Z.of_nat (String.length t))); [| lia].
  rewrite length_append. simpl.
  destruct (Z.leb_spec 3 max_chunk_size).
  - rewrite length_py_slice_to by lia. lia.
  - rewrite length_py_slice_to_neg by lia. lia.
Qed.

Lemma truncate_within (max_chunk_size : Z) (t : string) :
  (Z.of_nat (String.length (truncate max_chunk_size t)) ≤ max_chunk_size)%Z
  ↔ (Z.of_nat (String.length t) ≤ max_chunk_size)%Z ∨ (3 ≤ max_chunk_size)%Z.
Proof.
  destruct (Z.le_gt_cases (Z.of_nat (String.length t)) max_chunk_size) as [Hle | Hgt].
  - rewrite truncate_short by done. tauto.
  - rewrite truncate_long by lia. destruct (Z.leb_spec 3 max_chunk_size); lia.
Qed.

(** X13. The per-question strategies make one chunk per document, in
    order, and keep a text that fits unchanged; the text of a chunk stays
    within [max_chunk_size] exactly when the text it was cut from fits or
    [max_chunk_size] is at least 3, the length of the ellipsis. *)
Theorem per_question_chunks_within_limit (max_chunk_size : Z) (documents : list processed_doc) :
  Forall2 (λ doc c,
      chunk_source_id c = doc_ident doc
      ∧ ((Z.of_nat (String.length (doc_text doc)) ≤ max_chunk_size)%Z →
         chunk_text c = doc_text doc)
      ∧ ((Z.of_nat (String.length (chunk_text c)) ≤ max_chunk_size)%Z
         ↔ (Z.of_nat (String.length (doc_text doc)) ≤ max_chunk_size)%Z
           ∨ (3 ≤ max_chunk_size)%Z))
    documents (chunk max_chunk_size documents QUESTION_BASED)
  ∧ Forall2 (λ doc c,
      chunk_source_id c = doc_ident doc
      ∧ ((Z.of_nat (String.length (enriched_text doc)) ≤ max_chunk_size)%Z →
         chunk_text c = enriched_text doc)
      ∧ ((Z.of_nat (String.length (chunk_text c)) ≤ max_chunk_size)%Z
         ↔ (Z.of_nat (String.length (enriched_text doc)) ≤ max_chunk_size)%Z
           ∨ (3 ≤ max_chunk_size)%Z))
    documents (chunk max_chunk_size documents HYBRID).
Proof.
  split; simpl.
  - unfold _chunk_by_question. apply Forall2_fmap_r, Forall_Forall2_diag, Forall_forall.
    intros doc _. simpl. split; [done |]. split; [apply truncate_short | apply truncate_within].
  - unfold _chunk_hybrid. apply Forall2_fmap_r, Forall_Forall2_diag, Forall_forall.
    intros doc _. simpl. split; [done |]. split; [apply truncate_short | apply truncate_within].
Qed.

(** ** Topic chunks *)

Lemma nonempty_append_bar (a : string) : nonempty (a +:+ " | ") = true.
Proof. by destruct a. Qed.

Lemma nonempty_false (s : string) : nonempty s = false → s = ""%string.
Proof. by destruct s. Qed.

Lemma question_count_topic_chunk topic n t source_ids :
  question_count (topic_chunk topic n t source_ids) = length source_ids.
Proof.
  unfold question_count, topic_chunk, dict_get. simpl.
  rewrite lookup_insert_ne by done. rewrite lookup_singleton_eq. simpl. lia.
Qed.

Lemma total_questions_snoc chunks c :
  total_questions (chunks ++ [c]) = total_questions chunks + question_count c.
Proof.
  unfold total_questions. rewrite fmap_app, foldr_app. simpl.
  generalize (question_count c). intros n.
  induction (question_count <$> chunks) as [| x l IH]; simpl; [lia |]. rewrite IH. lia.
Qed.

Lemma topic_loop_count max_chunk_size topic docs :
  ∀ combined_text source_ids chunks combined_text' source_ids' chunks',
    in_step combined_text source_ids →
    Forall (λ c, 1 ≤ question_count c) chunks →
    topic_loop max_chunk_size topic docs combined_text source_ids chunks
    = (combined_text', source_ids', chunks') →
    in_step combined_text' source_ids'
    ∧ Forall (λ c, 1 ≤ question_count c) chunks'
    ∧ total_questions chunks' + length source_ids'
      = total_questions chunks + length source_ids + length docs.
Proof.
  induction docs as [| doc rest IH]; intros ct sids chunks ct' sids' chunks' Hstep Hpos Hloop.
  - simpl in Hloop. simplify_eq. split; [done |]. split; [done | simpl; lia].
  - simpl in Hloop. case_match.
    + apply IH in Hloop as (Hstep' & Hpos' & Hsum).
      * split; [done |]. split; [done |]. rewrite Hsum. simpl.
        destruct (nonempty ct) eqn:Hne.
        -- rewrite total_questions_snoc, question_count_topic_chunk. lia.
        -- apply nonempty_false in Hne. apply Hstep in Hne as ->. simpl. lia.
      * split; [by destruct (doc_text doc) | done].
      * destruct (nonempty ct) eqn:Hne; [| done].
        apply Forall_app. split; [done |]. apply Forall_singleton.
        rewrite question_count_topic_chunk.
        destruct sids; [| simpl; lia].
        assert (ct = ""%string) as -> by (by apply Hstep). done.
    + apply IH in Hloop as (Hstep' & Hpos' & Hsum).
      * split; [done |]. split; [done |]. rewrite Hsum, length_app. simpl. lia.
      * split; [by destruct ct, (doc_text doc) | by destruct sids].
      * done.
Qed.

Lemma topic_step_count max_chunk_size chunks group :
  Forall (λ c, 1 ≤ question_count c) chunks →
  Forall (λ c, 1 ≤ question_count c) (topic_step max_chunk_size chunks group)
  ∧ total_questions (topic_step max_chunk_size chunks group)
    = total_questions chunks + length group.2.
Proof.
  intros Hpos. unfold topic_step.
  destruct (topic_loop max_chunk_size group.1 group.2 "" [] chunks)
    as [[ct sids] chunks'] eqn:Hloop.
  apply topic_loop_count in Hloop as (Hstep & Hpos' & Hsum); [| done | done].
  simpl in Hsum. destruct (nonempty ct) eqn:Hne.
  - split.
    + apply Forall_app. split; [done |]. apply Forall_singleton.
      rewrite question_count_topic_chunk. destruct sids; [| simpl; lia].
      assert (ct = ""%string) as -> by (by apply Hstep). done.
    + rewrite total_questions_snoc, question_count_topic_chunk. lia.
  - split; [done |]. apply nonempty_false in Hne. apply Hstep in Hne as ->.
    simpl in Hsum. lia.
Qed.

Lemma grouped_cons g groups : grouped (g :: groups) = length g.2 + grouped groups.
Proof. reflexivity. Qed.

Lemma group_add_grouped topic doc groups :
  grouped (group_add topic doc groups) = S (grouped groups).
Proof.
  induction groups as [| [t docs] rest IH]; [done |].
  simpl. case_decide; rewrite !grouped_cons; simpl.
  - rewrite length_app. simpl. lia.
  - rewrite IH. lia.
Qed.

Lemma group_by_topic_grouped documents :
  grouped (group_by_topic documents) = length documents.
Proof.
  unfold group_by_topic.
  assert (∀ acc, grouped (foldl (λ groups doc, group_add (topic_of doc) doc groups)
                                acc documents)
                 = grouped acc + length documents) as H.
  { induction documents as [| doc rest IH]; intros acc; simpl; [lia |].
    rewrite IH, group_add_grouped. lia. }
  by rewrite H.
Qed.

Lemma total_questions_length chunks :
  Forall (λ c, 1 ≤ question_count c) chunks → length chunks ≤ total_questions chunks.
Proof.
  unfold total_questions. induction 1 as [| c l Hc _ IH]; [done |].
  rewrite fmap_cons. cbn [foldr length]. lia.
Qed.

Lemma topic_fold_count (max_chunk_size : Z) groups :
  ∀ acc,
    Forall (λ c, 1 ≤ question_count c) acc →
    Forall (λ c, 1 ≤ question_count c) (foldl (topic_step max_chunk_size) acc groups)
    ∧ total_questions (foldl (topic_step max_chunk_size) acc groups)
      = total_questions acc + grouped groups.
Proof.
  induction groups as [| g rest IH]; intros acc Hacc; simpl.
  - split; [done |]. unfold grouped. simpl. lia.
  - destruct (topic_step_count max_chunk_size acc g Hacc) as [Hpos Hsum].
    destruct (IH _ Hpos) as [Hpos' Hsum']. split; [done |].
    rewrite Hsum', Hsum, grouped_cons. lia.
Qed.

(** X14. The topic strategy accounts for every document exactly once: the
    [question_count] fields of the chunks add up to the number of
    documents, every chunk holds at least one question, and so there are at
    most as many chunks as documents. *)
Theorem topic_chunks_account_for_every_document (max_chunk_size : Z)
    (documents : list processed_doc) :
  total_questions (chunk max_chunk_size documents TOPIC_BASED) = length documents
  ∧ Forall (λ c, 1 ≤ question_count c) (chunk max_chunk_size documents TOPIC_BASED)
  ∧ length (chunk max_chunk_size documents TOPIC_BASED) ≤ length documents.
Proof.
  simpl. unfold _chunk_by_topic.
  destruct (topic_fold_count max_chunk_size (group_by_topic documents) [])
    as [Hpos Hsum]; [constructor |].
  rewrite group_by_topic_grouped in Hsum. simpl in Hsum.
  split; [done |]. split; [done |].
  rewrite <- Hsum. by apply total_questions_length.
Qed.

Lemma length_drop_while {A} (p : A → bool) (l : list A) :
  length (drop_while p l) ≤ length l.
Proof. induction l as [| x l IH]; simpl; [done |]. destruct (p x); simpl; lia. Qed.

Lemma length_py_strip (p : ascii → bool) (s : string) :
  String.length (py_strip p s) ≤ String.length s.
Proof.
  unfold py_strip. rewrite length_text_of, length_reverse.
  etrans; [apply length_drop_while |]. rewrite length_reverse.
  etrans; [apply length_drop_while |]. by rewrite length_chars.
Qed.

Lemma topic_loop_within max_chunk_size topic docs :
  Forall (λ doc, (Z.of_nat (String.length (doc_text doc)) + 3 ≤ max_chunk_size)%Z) docs →
  ∀ combined_text source_ids chunks combined_text' source_ids' chunks',
    (combined_text = ""%string
     ∨ (Z.of_nat (String.length combined_text) ≤ max_chunk_size)%Z) →
    Forall (λ c, (Z.of_nat (String.length (chunk_text c)) ≤ max_chunk_size)%Z) chunks →
    topic_loop max_chunk_size topic docs combined_text source_ids chunks
    = (combined_text', source_ids', chunks') →
    (combined_text' = ""%string
     ∨ (Z.of_nat (String.length combined_text') ≤ max_chunk_size)%Z)
    ∧ Forall (λ c, (Z.of_nat (String.length (chunk_text c)) ≤ max_chunk_size)%Z) chunks'.
Proof.
  induction 1 as [| doc rest Hdoc _ IH]; intros ct sids chunks ct' sids' chunks' Hct Hin Hloop.
  - simpl in Hloop. by simplify_eq.
  - simpl in Hloop.
    destruct (Z.ltb_spec max_chunk_size
                (Z.of_nat (String.length ct) + Z.of_nat (String.length (doc_text doc)) + 4))
      as [Hover | Hfits].
    + apply IH in Hloop; [done | |].
      * right. rewrite length_append. simpl. lia.
      * destruct (nonempty ct) eqn:Hne; [| done].
        apply Forall_app. split; [done |]. apply Forall_singleton. simpl.
        destruct Hct as [-> | Hct]; [done |].
        pose proof (length_py_strip py_isspace ct). lia.
    + apply IH in Hloop; [done | | done].
      right. rewrite !length_append. simpl. lia.
Qed.

Lemma group_add_Forall (P : processed_doc → Prop) topic doc groups :
  P doc → Forall (λ g, Forall P g.2) groups →
  Forall (λ g, Forall P g.2) (group_add topic doc groups).
Proof.
  intros Hdoc. induction 1 as [| [t docs] rest Hg Hrest IH]; simpl.
  - by repeat constructor.
  - case_decide; constructor; simpl in *; try done.
    apply Forall_app. split; [done | by constructor].
Qed.

Lemma group_by_topic_Forall (P : processed_doc → Prop) documents :
  Forall P documents → Forall (λ g, Forall P g.2) (group_by_topic documents).
Proof.
  unfold group_by_topic. intros Hall.
  assert (∀ acc, Forall (λ g, Forall P g.2) acc →
                 Forall (λ g, Forall P g.2)
                   (foldl (λ groups doc, group_add (topic_of doc) doc groups) acc documents))
    as H.
  { induction Hall as [| doc rest Hdoc _ IH]; intros acc Hacc; simpl; [done |].
    apply IH. by apply group_add_Forall. }
  by apply H.
Qed.

(** X15. Under the topic strategy every chunk text has at most
    [max_chunk_size] characters, when every question text with the three
    characters of its separator has at most that many. *)
Theorem topic_chunks_within_limit (max_chunk_size : Z) (documents : list processed_doc) :
  Forall (λ doc, (Z.of_nat (String.length (doc_text doc)) + 3 ≤ max_chunk_size)%Z)
         documents →
  Forall (λ c, (Z.of_nat (String.length (chunk_text c)) ≤ max_chunk_size)%Z)
         (chunk max_chunk_size documents TOPIC_BASED).
Proof.
  intros Hdocs. simpl. unfold _chunk_by_topic.
  apply (group_by_topic_Forall _ _) in Hdocs.
  revert Hdocs. generalize (group_by_topic documents). intros groups Hgroups.
  assert (∀ acc,
            Forall (λ c, (Z.of_nat (String.length (chunk_text c)) ≤ max_chunk_size)%Z) acc →
            Forall (λ c, (Z.of_nat (String.length (chunk_text c)) ≤ max_chunk_size)%Z)
                   (foldl (topic_step max_chunk_size) acc groups)) as H.
  { induction Hgroups as [| g rest Hg _ IH]; intros acc Hacc; simpl; [done |].
    apply IH. unfold topic_step.
    destruct (topic_loop max_chunk_size g.1 g.2 "" [] acc) as [[ct sids] chunks'] eqn:Hloop.
    apply (topic_loop_within _ _ _ Hg) in Hloop as [Hct Hin]; [| by left | done].
    destruct (nonempty ct) eqn:Hne; [| done].
    apply Forall_app. split; [done |]. apply Forall_singleton. simpl.
    destruct Hct as [-> | Hct]; [done |].
    pose proof (length_py_strip space_or_bar ct). lia. }
  by apply H.
Qed.

(** ** Ingestion *)

Lemma chars_text_of (l : list ascii) : chars (text_of l) = l.
Proof. apply list_ascii_of_string_of_list_ascii. Qed.

Lemma sub_spaces_chars (in_run : bool) (l : list ascii) (c : ascii) :
  c ∈ sub_spaces in_run l → c = " "%char ∨ (c ∈ l ∧ py_isspace c = false).
Proof.
  revert in_run. induction l as [| x l IH]; intros in_run; simpl; [by intros ?%elem_of_nil |].
  destruct (py_isspace x) eqn:Hx.
  - destruct in_run.
    + intros [-> | (? & ?)]%IH; [by left | right; split; [by right | done]].
    + intros [-> | [-> | (? & ?)]%IH]%elem_of_cons;
        [by left | by left | right; split; [by right | done]].
  - intros [-> | [-> | (? & ?)]%IH]%elem_of_cons;
      [right; split; [by left | done] | by left | right; split; [by right | done]].
Qed.

Lemma length_sub_spaces (in_run : bool) (l : list ascii) :
  length (sub_spaces in_run l) ≤ length l.
Proof.
  revert in_run. induction l as [| x l IH]; intros in_run; simpl; [done |].
  destruct (py_isspace x), in_run; simpl;
    first [ specialize (IH true); lia | specialize (IH false); lia ].
Qed.

(** X16. [_clean_text] never lengthens a text, and what it returns
    holds no character of the control class it removes and no whitespace
    character other than the plain space. *)
Theorem clean_text_alphabet (t : string) :
  String.length (_clean_text t) ≤ String.length t
  ∧ ∀ c, c ∈ chars (_clean_text t) →
      is_control c = false ∧ (py_isspace c = true → c = " "%char).
Proof.
  unfold _clean_text. destruct (nonempty t); simpl.
  - split.
    + rewrite length_text_of.
      etrans; [apply length_filter |].
      etrans; [apply length_sub_spaces |].
      rewrite length_chars. apply length_py_strip.
    + intros c. rewrite chars_text_of.
      intros [Hctl Hin]%list_elem_of_filter.
      split; [by destruct (is_control c) |].
      apply sub_spaces_chars in Hin as [-> | [_ Hns]]; [done | congruence].
  - split; [lia | by intros c ?%elem_of_nil].
Qed.

Lemma ingest_loop_spec sha256_hex utcnow documents :
  ∀ processed_docs s,
  ∃ new s',
    ingest_loop sha256_hex utcnow documents processed_docs s
    = (Ok (processed_docs ++ new), s')
    ∧ _ingestion_log s' = _ingestion_log s
    ∧ Forall2 processed_from
              (filter (λ q, kept q = true) documents) new.
Proof.
  induction documents as [| q rest IH]; intros acc s; simpl.
  - exists [], s. by rewrite app_nil_r.
  - unfold _process_document. destruct (decide (kept q = true)) as [Hk | Hk].
    + rewrite filter_cons_True by done. unfold kept in Hk. rewrite Hk. unmonad. simpl.
      edestruct IH as (new & s' & -> & Hlog & Hall).
      eexists (_ :: new), s'. rewrite <- app_assoc. simpl.
      split; [done |]. split; [done |]. constructor; [| done].
      split; [done |]. split; [done |]. by eexists.
    + rewrite filter_cons_False by done. unfold kept in Hk.
      apply not_true_is_false in Hk. rewrite Hk. unmonad. simpl.
      destruct (IH acc s) as (new & s' & -> & Hlog & Hall). by exists new, s'.
Qed.

Lemma ingest_spec sha256_hex utcnow documents s :
  ∃ processed_docs stamp ticks',
    ingest sha256_hex utcnow documents s
    = (Ok processed_docs,
       IngestionService
         (_ingestion_log s
          ++ [LogEntry stamp (length documents) (length processed_docs)
                (Z.of_nat (length documents) - Z.of_nat (length processed_docs))])
         ticks')
    ∧ Forall2 processed_from
              (filter (λ q, kept q = true) documents) processed_docs.
Proof.
  unfold ingest.
  destruct (ingest_loop_spec sha256_hex utcnow documents [] s) as (new & s' & Hloop & Hlog & Hall).
  simpl in Hloop. unmonad. rewrite Hloop. unfold _log_ingestion, now. unmonad. simpl.
  rewrite Hlog. by eexists _, _, _.
Qed.

Lemma run_ingests_log sha256_hex utcnow batches :
  ∀ s,
    successfully_processed <$> _ingestion_log (run_ingests sha256_hex utcnow batches s)
    = (successfully_processed <$> _ingestion_log s)
      ++ ((λ batch, length (filter (λ q, kept q = true) batch)) <$> batches).
Proof.
  induction batches as [| batch rest IH]; intros s; simpl.
  - by rewrite app_nil_r.
  - unfold run_ingests in *. simpl. rewrite IH.
    destruct (ingest_spec sha256_hex utcnow batch s) as (ps & stamp & ticks' & -> & Hall).
    simpl. rewrite fmap_app, <- app_assoc. simpl.
    by rewrite (Forall2_length _ _ _ Hall).
Qed.

Lemma sum_app (l1 l2 : list nat) :
  foldr Nat.add 0 (l1 ++ l2) = foldr Nat.add 0 l1 + foldr Nat.add 0 l2.
Proof. induction l1 as [| x l1 IH]; simpl; [done |]. rewrite IH. lia. Qed.

Lemma sum_lengths_concat {A} (p : A → bool) (ls : list (list A)) :
  foldr Nat.add 0 ((λ l, length (filter (λ x, p x = true) l)) <$> ls)
  = length (filter (λ x, p x = true) (concat ls)).
Proof.
  induction ls as [| l ls IH]; [done |].
  rewrite fmap_cons. cbn [foldr concat]. by rewrite filter_app, length_app, IH.
Qed.

(** X17. The ingestion statistics add up: after any number of [ingest]
    calls on a new service, [total_ingestions] is the number of calls and
    [total_documents] the number of questions, over all batches, whose
    cleaned text is not empty; [ingest] itself returns those questions, in
    order, with their identifiers and cleaned texts. *)
Theorem ingestion_stats_add_up (sha256_hex : string → string) (utcnow : nat → string)
    (batches : list (list QuestionDocument)) (batch : list QuestionDocument) :
  let s := run_ingests sha256_hex utcnow batches (IngestionService [] 0) in
  total_ingestions (get_ingestion_stats s) = length batches
  ∧ total_documents (get_ingestion_stats s)
    = length (filter (λ q, kept q = true) (concat batches))
  ∧ ∃ processed_docs,
      (ingest sha256_hex utcnow batch s).1 = Ok processed_docs
      ∧ doc_ident <$> processed_docs = q_id <$> filter (λ q, kept q = true) batch
      ∧ doc_text <$> processed_docs
        = (λ q, _clean_text (q_text q)) <$> filter (λ q, kept q = true) batch.
Proof.
  intros s.
  pose proof (run_ingests_log sha256_hex utcnow batches (IngestionService [] 0)) as Hlog.
  simpl in Hlog. fold s in Hlog.
  assert (length (_ingestion_log s) = length batches) as Hlen.
  { rewrite <- (length_fmap successfully_processed), Hlog. by rewrite length_fmap. }
  split; [| split].
  - unfold get_ingestion_stats. destruct (_ingestion_log s); [by destruct batches | done].
  - rewrite <- sum_lengths_concat, <- Hlog. unfold get_ingestion_stats.
    by destruct (_ingestion_log s).
  - destruct (ingest_spec sha256_hex utcnow batch s) as (ps & stamp & ticks' & -> & Hall).
    exists ps. split; [done |].
    induction Hall as [| q p qs ps' (Hid & Htext & _) _ [IH1 IH2]]; [done |].
    rewrite !fmap_cons. by rewrite Hid, Htext, IH1, IH2.
Qed.

(** ** The embedding cache *)

Section EmbeddingProperties.
Context {F : Type}.
Variable encode : list string → list (list F).

Lemma insert_by_index_perm {A} (x : nat * A) l : insert_by_index x l ≡ₚ x :: l.
Proof.
  induction l as [| y l IH]; simpl; [done |].
  destruct (x.1 <=? y.1); [done |]. rewrite IH. apply Permutation_swap.
Qed.

Lemma sort_by_index_perm {A} (l : list (nat * A)) : sort_by_index l ≡ₚ l.
Proof.
  induction l as [| x l IH]; simpl; [done |].
  rewrite insert_by_index_perm. by rewrite IH.
Qed.

Lemma insert_by_index_sorted {A} (x : nat * A) l :
  StronglySorted index_le l → StronglySorted index_le (insert_by_index x l).
Proof.
  induction 1 as [| y l Hl IH Hy]; simpl.
  - by repeat constructor.
  - destruct (Nat.leb_spec x.1 y.1) as [Hle | Hgt].
    + constructor; [by constructor |]. constructor; [done |].
      eapply Forall_impl; [exact Hy |]. unfold index_le. intros z ?. lia.
    + constructor; [done |].
      rewrite insert_by_index_perm. constructor; [unfold index_le; lia | done].
Qed.

Lemma sort_by_index_sorted {A} (l : list (nat * A)) :
  StronglySorted index_le (sort_by_index l).
Proof.
  induction l as [| x l IH]; simpl; [constructor |]. by apply insert_by_index_sorted.
Qed.

Lemma sort_by_index_unique {A} (l l' : list (nat * A)) :
  l ≡ₚ l' → NoDup (l'.*1) → StronglySorted index_le l' → sort_by_index l = l'.
Proof.
  intros Hperm Hnodup Hsorted.
  apply (StronglySorted_unique_strong index_le).
  - intros x1 x2 Hx1 Hx2 H12 H21. unfold index_le in *.
    rewrite sort_by_index_perm, Hperm in Hx1.
    assert (x1.1 = x2.1) as Heq by lia.
    apply list_elem_of_lookup in Hx1 as [i1 Hi1], Hx2 as [i2 Hi2].
    assert (i1 = i2) as ->.
    { eapply NoDup_lookup; [exact Hnodup | |];
        rewrite list_lookup_fmap; [by rewrite Hi1 | by rewrite Hi2, Heq]. }
    congruence.
  - apply sort_by_index_sorted.
  - done.
  - by rewrite sort_by_index_perm.
Qed.

End EmbeddingProperties.

Section EmbedProperties.
Context {F : Type}.
Variable encode : list string → list (list F).

Lemma split_cached_spec (c : cache F) texts :
  ∀ i embeddings_list texts_to_embed text_indices,
    split_cached c i texts embeddings_list texts_to_embed text_indices
    = (embeddings_list ++ hits_of c i texts,
       texts_to_embed ++ misses c texts,
       text_indices ++ miss_ix c i texts).
Proof.
  induction texts as [| text rest IH]; intros i h m ix; simpl.
  - by rewrite !app_nil_r.
  - unfold misses. destruct (dict_lookup (_get_cache_key text) c) as [e |] eqn:Hlook.
    + rewrite IH, filter_cons_False by (by rewrite Hlook). by rewrite <- app_assoc.
    + rewrite IH, filter_cons_True by done. by rewrite <- !app_assoc.
Qed.

Lemma length_miss_ix (c : cache F) texts i :
  length (miss_ix c i texts) = length (misses c texts).
Proof.
  revert i. induction texts as [| text rest IH]; intros i; simpl; [done |].
  unfold misses. destruct (dict_lookup (_get_cache_key text) c) as [e |] eqn:Hlook.
  - rewrite filter_cons_False by (by rewrite Hlook). apply IH.
  - rewrite filter_cons_True by done. simpl. f_equal. apply IH.
Qed.

Lemma hits_misses_perm (c : cache F) texts :
  ∀ i fresh,
    hits_of c i texts ++ zip (miss_ix c i texts) fresh ≡ₚ fill_ix c i texts fresh.
Proof.
  induction texts as [| text rest IH]; intros i fresh; simpl; [done |].
  destruct (dict_lookup (_get_cache_key text) c) as [e |].
  - simpl. by rewrite IH.
  - destruct fresh as [| e fresh]; simpl.
    + rewrite <- IH. by destruct (miss_ix c (S i) rest).
    + rewrite <- Permutation_middle. by rewrite IH.
Qed.

Lemma fill_ix_sorted (c : cache F) texts :
  ∀ i fresh,
    Forall (λ x, i ≤ x.1) (fill_ix c i texts fresh)
    ∧ StronglySorted index_le (fill_ix c i texts fresh)
    ∧ NoDup (fill_ix c i texts fresh).*1.
Proof.
  assert (∀ i e (l : list (nat * list F)),
            Forall (λ x, S i ≤ x.1) l ∧ StronglySorted index_le l ∧ NoDup l.*1 →
            Forall (λ x, i ≤ x.1) ((i, e) :: l)
            ∧ StronglySorted index_le ((i, e) :: l)
            ∧ NoDup ((i, e) :: l).*1) as Hcons.
  { intros i e l (Hge & Hsorted & Hnodup). split; [| split].
    - constructor; [done |]. eapply Forall_impl; [exact Hge |]. simpl. lia.
    - constructor; [done |]. eapply Forall_impl; [exact Hge |].
      unfold index_le. simpl. lia.
    - rewrite fmap_cons. constructor; [| done]. simpl.
      intros ((k & v) & Hk & Hin)%list_elem_of_fmap. simpl in Hk. subst k.
      rewrite Forall_forall in Hge. specialize (Hge _ Hin). simpl in Hge. lia. }
  assert (∀ i (l : list (nat * list F)),
            Forall (λ x, S i ≤ x.1) l ∧ StronglySorted index_le l ∧ NoDup l.*1 →
            Forall (λ x, i ≤ x.1) l ∧ StronglySorted index_le l ∧ NoDup l.*1) as Hweak.
  { intros i l (Hge & Hsorted & Hnodup). split; [| done].
    eapply Forall_impl; [exact Hge |]. simpl. lia. }
  induction texts as [| text rest IH]; intros i fresh; simpl.
  - split; [constructor |]. split; constructor.
  - destruct (dict_lookup (_get_cache_key text) c) as [e |].
    + apply Hcons, IH.
    + destruct fresh as [| e fresh]; [apply Hweak, IH | apply Hcons, IH].
Qed.

Lemma fill_ix_values (c : cache F) texts :
  ∀ i fresh, (fill_ix c i texts fresh).*2 = fill c texts fresh.
Proof.
  induction texts as [| text rest IH]; intros i fresh; simpl; [done |].
  destruct (dict_lookup (_get_cache_key text) c) as [e |].
  - rewrite fmap_cons. simpl. by rewrite IH.
  - destruct fresh as [| e fresh]; [apply IH |]. rewrite fmap_cons. simpl. by rewrite IH.
Qed.

Lemma _add_to_cache_ok text embedding (c : cache F) :
  ∃ c', _add_to_cache text embedding c = (Ok tt, c').
Proof. unfold _add_to_cache. unmonad. destruct (_cache_max_size <=? length c); by eexists. Qed.

Lemma cache_all_ok pairs :
  ∀ c : cache F, ∃ c', cache_all pairs c = (Ok tt, c').
Proof.
  induction pairs as [| [text embedding] rest IH]; intros c; simpl.
  - by eexists.
  - destruct (_add_to_cache_ok text embedding c) as [c1 H1].
    unfold mbind, M_bind. rewrite H1. apply IH.
Qed.

(** A cached [embed] of a non-empty list, with its sort resolved. *)
Lemma embed_cached_unfold (c : cache F) (texts : list string) :
  texts ≠ [] →
  embed encode (Many texts) true c
  = (vstack (fill c texts (encode (misses c texts))),
     match misses c texts with
     | [] => c
     | ms => (cache_all (zip ms (encode ms)) c).2
     end).
Proof.
  intros Hne. destruct texts as [| t ts]; [done |]. clear Hne.
  unfold embed. remember (t :: ts) as texts eqn:Htexts.
  rewrite Htexts at 1. rewrite <- Htexts.
  unfold mbind at 1. unfold M_bind at 1. unfold get at 1.
  rewrite split_cached_spec. simpl app.
  assert (sort_by_index (hits_of c 0 texts
                         ++ zip (miss_ix c 0 texts) (encode (misses c texts)))
          = fill_ix c 0 texts (encode (misses c texts))) as Hsort.
  { destruct (fill_ix_sorted c texts 0 (encode (misses c texts))) as (_ & Hsorted & Hnodup).
    apply sort_by_index_unique; [apply hits_misses_perm | done | done]. }
  destruct (misses c texts) as [| m ms] eqn:Hmiss.
  - unmonad. simpl.
    assert (miss_ix c 0 texts = []) as Hix.
    { apply length_zero_iff_nil. by rewrite length_miss_ix, Hmiss. }
    rewrite Hix in Hsort. simpl in Hsort. rewrite app_nil_r in Hsort.
    by rewrite Hsort, fill_ix_values.
  - unfold _embed_batch.
    destruct (cache_all_ok (zip (m :: ms) (encode (m :: ms))) c) as [c' Hall].
    unmonad. rewrite Hall. simpl. by rewrite Hsort, fill_ix_values.
Qed.

(** X18. A cached [embed] returns its rows in the order of the texts: for
    each text in turn the vector cached under its key when the call starts,
    or else the next row of what the model returns for the uncached texts;
    sorting the two partial lists by position restores that order.  Without
    the cache the result is the model's.  An empty list of texts gives no
    row either way, without a call of the model. *)
Theorem cached_embed_keeps_order (c : cache F) (texts : list string) :
  (embed encode (Many texts) true c).1
  = match texts with
    | [] => Ok []
    | _ => vstack (fill c texts (encode (misses c texts)))
    end
  ∧ (embed encode (Many texts) false c).1
    = match texts with
      | [] => Ok []
      | _ => Ok (encode texts)
      end.
Proof.
  split; [| by destruct texts].
  destruct texts as [| t ts]; [done |].
  by rewrite embed_cached_unfold.
Qed.

Lemma length_fill (c : cache F) texts :
  ∀ fresh, length fresh = length (misses c texts) →
           length (fill c texts fresh) = length texts.
Proof.
  induction texts as [| text rest IH]; intros fresh; simpl; [done |].
  unfold misses. destruct (dict_lookup (_get_cache_key text) c) as [e |] eqn:Hlook.
  - rewrite filter_cons_False by (by rewrite Hlook). intros Hlen. simpl. f_equal. by apply IH.
  - rewrite filter_cons_True by done. destruct fresh as [| e fresh]; [done |].
    simpl. intros [= Hlen]. f_equal. by apply IH.
Qed.

Lemma dict_lookup_elem_of {V} (k : string) (v : V) (dict : list (string * V)) :
  dict_lookup k dict = Some v → (k, v) ∈ dict.
Proof.
  induction dict as [| [k' v'] rest IH]; simpl; [done |].
  case_decide; [intros [= ->]; subst; by left | intros ?; right; by apply IH].
Qed.

Lemma fill_rows (n : nat) (c : cache F) texts :
  cache_rows n c →
  ∀ fresh, Forall (λ row, length row = n) fresh →
           Forall (λ row, length row = n) (fill c texts fresh).
Proof.
  intros Hc. induction texts as [| text rest IH]; intros fresh Hfresh; simpl; [done |].
  destruct (dict_lookup (_get_cache_key text) c) as [e |] eqn:Hlook.
  - constructor; [| by apply IH].
    apply dict_lookup_elem_of in Hlook. unfold cache_rows in Hc.
    rewrite Forall_forall in Hc. by apply (Hc _ Hlook).
  - destruct Hfresh as [| e fresh He Hfresh]; [by apply IH |].
    constructor; [done | by apply IH].
Qed.

Lemma vstack_rows (n : nat) (rows : list (list F)) :
  rows ≠ [] → Forall (λ row, length row = n) rows → vstack rows = Ok rows.
Proof.
  destruct rows as [| row rest]; [done |]. intros _ Hrows.
  apply Forall_cons in Hrows as [Hrow Hrest]. unfold vstack.
  assert (forallb (λ r, length r =? length row) rest = true) as ->; [| done].
  apply forallb_forall. intros r Hr%list_elem_of_In.
  rewrite Forall_forall in Hrest. rewrite (Hrest _ Hr), Hrow. apply Nat.eqb_refl.
Qed.

Lemma dict_del_rows (n : nat) (k : string) (c : cache F) :
  cache_rows n c → cache_rows n (dict_del k c).
Proof.
  unfold cache_rows. induction 1 as [| [k' v'] rest Hkv Hrest IH]; simpl; [done |].
  case_decide; [done | by constructor].
Qed.

Lemma dict_set_rows (n : nat) (k : string) (v : list F) (c : cache F) :
  length v = n → cache_rows n c → cache_rows n (dict_set k v c).
Proof.
  unfold cache_rows. intros Hv. induction 1 as [| [k' v'] rest Hkv Hrest IH]; simpl.
  - by repeat constructor.
  - case_decide; by constructor.
Qed.

Lemma _add_to_cache_rows (n : nat) text embedding (c : cache F) :
  length embedding = n → cache_rows n c →
  cache_rows n (_add_to_cache text embedding c).2.
Proof.
  intros Hv Hc. unfold _add_to_cache. unmonad.
  destruct (_cache_max_size <=? length c); simpl.
  - apply dict_set_rows; [done |].
    generalize (take 100 c.*1). intros keys. revert c Hc.
    induction keys as [| key rest IH]; intros c Hc; simpl; [done |].
    by apply IH, dict_del_rows.
  - by apply dict_set_rows.
Qed.

Lemma cache_all_rows (n : nat) pairs :
  Forall (λ kv : string * list F, length kv.2 = n) pairs →
  ∀ c : cache F, cache_rows n c → cache_rows n (cache_all pairs c).2.
Proof.
  induction 1 as [| [text embedding] rest Hkv _ IH]; intros c Hc; simpl; [done |].
  pose proof (_add_to_cache_rows n text embedding c Hkv Hc) as H1.
  destruct (_add_to_cache_ok text embedding c) as [c1 Hadd].
  unfold mbind, M_bind. rewrite Hadd in *. by apply IH.
Qed.

(** With a model that returns one row of [n] components per text, a
    cached [embed] of a non-empty list returns one row of [n] components
    per text. *)
Lemma embed_cached_total (n : nat) (c : cache F) (texts : list string) :
  good_encoder encode n → cache_rows n c → texts ≠ [] →
  ∃ rows c',
    embed encode (Many texts) true c = (Ok rows, c')
    ∧ length rows = length texts
    ∧ Forall (λ row, length row = n) rows
    ∧ cache_rows n c'.
Proof.
  intros Henc Hc Hne. rewrite embed_cached_unfold by done.
  destruct (Henc (misses c texts)) as [Hlen Hrows].
  pose proof (length_fill c texts _ Hlen) as Hfill.
  pose proof (fill_rows n c texts Hc _ Hrows) as Hwidth.
  rewrite (vstack_rows n); [| | done].
  - eexists _, _. split; [done |]. split; [done |]. split; [done |].
    destruct (misses c texts) as [| m ms]; [done |].
    apply cache_all_rows; [| done].
    apply Forall_forall. intros [t e] Hin%elem_of_zip_r. simpl.
    rewrite Forall_forall in Hrows. by apply Hrows.
  - intros Hnil. rewrite Hnil in Hfill. by destruct texts.
Qed.

End EmbedProperties.

Section CacheProperties.
Context {F : Type}.
Variable encode : list string → list (list F).

Lemma dict_del_head {V} (k : string) (v : V) (rest : list (string * V)) :
  dict_del k ((k, v) :: rest) = rest.
Proof. simpl. by rewrite decide_True. Qed.

Lemma evict_drop {V} (n : nat) :
  ∀ dict : list (string * V),
    foldl (λ c key, dict_del key c) dict (take n dict.*1) = drop n dict.
Proof.
  induction n as [| n IH]; intros dict; [done |].
  destruct dict as [| [k v] rest]; [done |].
  rewrite fmap_cons. cbn [take foldl drop fst]. rewrite dict_del_head. apply IH.
Qed.

Lemma dict_set_keys {V} (k : string) (v : V) (dict : list (string * V)) :
  (dict_set k v dict).*1 = if decide (k ∈ dict.*1) then dict.*1 else dict.*1 ++ [k].
Proof.
  induction dict as [| [k' v'] rest IH].
  - simpl. destruct (decide (k ∈ [])) as [Hin | _]; [by apply elem_of_nil in Hin | done].
  - cbn [dict_set]. destruct (decide (k' = k)) as [-> | Hne].
    + rewrite !fmap_cons. cbn [fst].
      destruct (decide (k ∈ k :: rest.*1)) as [_ | Hnot]; [done |].
      exfalso. apply Hnot. by left.
    + rewrite !fmap_cons, IH. cbn [fst].
      destruct (decide (k ∈ rest.*1)) as [Hin | Hnot],
               (decide (k ∈ k' :: rest.*1)) as [Hin' | Hnot']; try done.
      * exfalso. apply Hnot'. by right.
      * apply elem_of_cons in Hin' as [? | ?]; [congruence | done].
Qed.

Lemma dict_lookup_set {V} (k : string) (v : V) (dict : list (string * V)) :
  dict_lookup k (dict_set k v dict) = Some v.
Proof.
  induction dict as [| [k' v'] rest IH]; simpl.
  - by rewrite decide_True.
  - destruct (decide (k' = k)) as [-> | Hne]; simpl.
    + by rewrite decide_True.
    + by rewrite decide_False.
Qed.

Lemma dict_set_ok (k : string) (v : list F) (c : cache F) :
  NoDup c.*1 → NoDup (dict_set k v c).*1 ∧ length (dict_set k v c) ≤ S (length c).
Proof.
  intros Hnodup.
  rewrite <- (length_fmap fst (dict_set k v c)), <- (length_fmap fst c), dict_set_keys.
  case_decide.
  - split; [done | lia].
  - split.
    + apply NoDup_app. split; [done |]. split; [| apply NoDup_singleton].
      intros x Hx ->%list_elem_of_singleton. done.
    + rewrite length_app. simpl. lia.
Qed.

Lemma _add_to_cache_keeps text embedding (c : cache F) :
  cache_ok c → cache_ok (_add_to_cache text embedding c).2.
Proof.
  intros [Hnodup Hlen]. unfold _add_to_cache, cache_ok, _cache_max_size in *. unmonad.
  destruct (Nat.leb_spec 1000 (length c)) as [Hfull | Hroom]; simpl.
  - rewrite evict_drop.
    assert (NoDup (drop 100 c).*1) as Hnodup'.
    { rewrite fmap_drop. eapply sublist_NoDup; [exact Hnodup | apply sublist_drop]. }
    destruct (dict_set_ok (_get_cache_key text) embedding _ Hnodup') as [H1 H2].
    split; [done |]. rewrite length_drop in H2. lia.
  - destruct (dict_set_ok (_get_cache_key text) embedding _ Hnodup) as [H1 H2].
    split; [done | lia].
Qed.

Lemma cache_all_keeps pairs :
  ∀ c : cache F, cache_ok c → cache_ok (cache_all pairs c).2.
Proof.
  induction pairs as [| [text embedding] rest IH]; intros c Hc; simpl; [done |].
  pose proof (_add_to_cache_keeps text embedding c Hc) as H1.
  destruct (_add_to_cache_ok text embedding c) as [c1 Hadd].
  unfold mbind, M_bind. rewrite Hadd in *. simpl in H1. by apply IH.
Qed.

Lemma embed_keeps texts use_cache (c : cache F) :
  cache_ok c → cache_ok (embed encode texts use_cache c).2.
Proof.
  intros Hc. unfold embed.
  destruct (match texts with Single t => [t] | Many ts => ts end) as [| t ts] eqn:Htexts;
    [done |].
  destruct use_cache; [| done].
  unfold mbind at 1. unfold M_bind at 1. unfold get at 1.
  rewrite split_cached_spec. simpl app.
  destruct (misses c (t :: ts)) as [| m ms].
  - unmonad. simpl. by case_match.
  - pose proof (cache_all_keeps (zip (m :: ms) (_embed_batch encode (m :: ms))) c Hc) as H1.
    destruct (cache_all_ok (zip (m :: ms) (_embed_batch encode (m :: ms))) c) as [c' Hall].
    unmonad. rewrite Hall in *. simpl in *. by case_match.
Qed.

(** X19. The cache stays within its limit: after any number of [embed]
    calls on a new service, with or without the cache, it holds at most
    [_cache_max_size] entries, under pairwise distinct keys. *)
Theorem cache_stays_within_limit (calls : list (text_input * bool)) :
  length (run_embeds encode calls []) ≤ _cache_max_size
  ∧ NoDup (run_embeds encode calls []).*1.
Proof.
  assert (∀ c : cache F, cache_ok c → cache_ok (run_embeds encode calls c)) as H.
  { induction calls as [| call rest IH]; intros c Hc; simpl; [done |].
    apply IH. by apply embed_keeps. }
  destruct (H []) as [Hnodup Hlen].
  - split; [constructor | unfold _cache_max_size; simpl; lia].
  - done.
Qed.

Lemma _get_cache_key_collision (t1 t2 : string) :
  py_slice_to t1 100 = py_slice_to t2 100 →
  String.length t1 = String.length t2 →
  _get_cache_key t1 = _get_cache_key t2.
Proof. unfold _get_cache_key. by intros -> ->. Qed.

Lemma sort_by_index_singleton {A} (x : nat * A) : sort_by_index [x] = [x].
Proof. done. Qed.

(** X20. The cache key of a text is made of its first hundred characters
    and its length only.  When two texts agree on both, a cached [embed] of
    the second that follows a cached [embed] of the first returns the rows
    of the first, whatever the texts hold after the hundredth character,
    and leaves the cache as it is. *)
Theorem cache_key_collision (t1 t2 : string) (c c' : cache F) (rows : list (list F)) :
  py_slice_to t1 100 = py_slice_to t2 100 →
  String.length t1 = String.length t2 →
  embed encode (Many [t1]) true c = (Ok rows, c') →
  embed encode (Many [t2]) true c' = (Ok rows, c').
Proof.
  intros Hprefix Hlen Hfirst.
  pose proof (_get_cache_key_collision t1 t2 Hprefix Hlen) as Hkey.
  assert (∃ e, dict_lookup (_get_cache_key t1) c' = Some e ∧ rows = [e]) as (e & Hlook & ->).
  { unfold embed in Hfirst. unmonad. simpl in Hfirst.
    destruct (dict_lookup (_get_cache_key t1) c) as [e |] eqn:Hlook; simpl in Hfirst.
    - simplify_eq. by exists e.
    - unfold _embed_batch in Hfirst.
      destruct (encode [t1]) as [| e rest]; simpl in Hfirst; [done |].
      unfold _add_to_cache in Hfirst. unmonad.
      destruct (_cache_max_size <=? length c); simpl in Hfirst; simplify_eq;
        exists e; by rewrite dict_lookup_set. }
  unfold embed. unmonad. simpl. rewrite <- Hkey, Hlook. done.
Qed.

End CacheProperties.

(** ** The pipeline *)

Lemma length_chunk (max_chunk_size : Z) (documents : list processed_doc)
    (strategy : ChunkingStrategy) :
  length (chunk max_chunk_size documents strategy) ≤ length documents
  ∧ (documents ≠ [] → chunk max_chunk_size documents strategy ≠ []).
Proof.
  destruct strategy; simpl.
  - unfold _chunk_by_question. rewrite length_fmap. split; [done |]. by destruct documents.
  - unfold _chunk_by_topic.
    destruct (topic_fold_count max_chunk_size (group_by_topic documents) [])
      as [Hpos Hsum]; [constructor |].
    rewrite group_by_topic_grouped in Hsum. simpl in Hsum.
    split; [rewrite <- Hsum; by apply total_questions_length |].
    intros Hne Hnil. rewrite Hnil in Hsum. by destruct documents.
  - unfold _chunk_hybrid. rewrite length_fmap. split; [done |]. by destruct documents.
Qed.

Lemma add_documents_dedup_exact {F} (f32 : F → F) (dim : nat)
    (embeddings : list (list F)) metas (w : world F) :
  exact_ready (mgr w) →
  dimension (mgr w) = dim →
  length embeddings = length metas →
  Forall (λ row, length row = dim) embeddings →
  ∃ n w',
    add_documents f32 embeddings metas true w = (Ok n, w')
    ∧ size (mgr w') = size (mgr w) + n
    ∧ n ≤ length embeddings.
Proof.
  intros Hready Hdim Hlen Hwidth.
  destruct (decide (embeddings = [])) as [-> | Hne].
  { destruct metas; [| done]. exists 0, w. split; [done |]. split; lia. }
  pose proof (surviving_width f32 (mgr w) embeddings metas true dim Hwidth) as Hbw.
  unfold surviving in Hbw.
  rewrite add_documents_dedup_unfold by done.
  destruct (dedup_loop_spec (zip (astype_float32 f32 embeddings) metas)
              (length (_metadata (mgr w))) (_id_to_idx (mgr w)) [] [])
    as (ids' & surv & Hloop & Hsub & _).
  rewrite Hloop in *. rewrite !app_nil_l in *. simpl in Hbw |- *.
  assert (length surv.*1 ≤ length embeddings) as Hle.
  { rewrite length_fmap. apply sublist_length in Hsub.
    rewrite length_zip, astype_float32_length in Hsub. lia. }
  destruct (surv.*1) as [| e0 es] eqn:Hs.
  - exists 0, (set_id_to_idx ids' w). split; [done |]. split; [| lia].
    destruct w as [[? ? ? ? ?] ?]. unfold size. simpl. lia.
  - destruct (commit_exact (e0 :: es) (surv.*2) (set_id_to_idx ids' w))
      as (w' & Hc & _ & _ & Hsize).
    { by destruct w as [[? ? ? ? ?] ?]. }
    { rewrite (ncols_width _ dim); [| done | done].
      by destruct w as [[? ? ? ? ?] ?]. }
    rewrite Hc. eexists _, w'. split; [done |]. split; [| done].
    rewrite Hsize. by destruct w as [[? ? ? ? ?] ?].
Qed.

Section PipelineProperties.
Context {F : Type}.
Variable f32 : F → F.
Variable knn : faiss_index F → list F → Z → list (F * Z).
Variable encode : list string → list (list F).
Variable sha256_hex : string → string.
Variable utcnow : nat → string.
Variable round4 : F → F.

Abbreviation p_ingest := (RetrievalPipeline.ingest f32 encode sha256_hex utcnow).
Abbreviation p_run := (RetrievalPipeline.run_ingests f32 encode sha256_hex utcnow).
Abbreviation p_query := (RetrievalPipeline.query f32 knn encode round4).

Lemma init_ready (strategy : ChunkingStrategy) :
  pipeline_ready (RetrievalPipeline.init (F:=F) strategy empty_disk)
  ∧ chunking_strategy (RetrievalPipeline.init (F:=F) strategy empty_disk) = strategy.
Proof.
  split; [| done]. split; [| split]; [| done | constructor].
  split; [done |]. by intros ix [=].
Qed.

(** One call of [ingest] on a ready pipeline, step by step. *)
Lemma ingest_step (questions : list QuestionDocument) (p : pipeline F) :
  good_encoder encode EMBEDDING_DIMENSION →
  pipeline_ready p →
  ∃ processed_docs report p',
    p_ingest questions p = (Ok report, p')
    ∧ pipeline_ready p'
    ∧ chunking_strategy p' = chunking_strategy p
    ∧ Forall2 processed_from (filter (λ q, kept q = true) questions) processed_docs
    ∧ match processed_docs with
      | [] => report = IngestWarning 0 (RetrievalPipeline.index_size p)
              ∧ _index_manager p' = _index_manager p
      | _ =>
          let chunks := chunk DEFAULT_MAX_CHUNK_SIZE processed_docs (chunking_strategy p) in
          ∃ rows n,
            length rows = length chunks
            ∧ add_documents f32 rows (chunk_record <$> chunks) true (_index_manager p)
              = (Ok n, _index_manager p')
            ∧ RetrievalPipeline.index_size p' = RetrievalPipeline.index_size p + n
            ∧ n ≤ length chunks
            ∧ report = IngestSuccess n (length processed_docs) (length chunks)
                                     (RetrievalPipeline.index_size p')
      end.
Proof.
  intros Henc (Hready & Hdim & Hcache).
  destruct p as [strategy svc c w]. simpl in *.
  destruct (ingest_spec sha256_hex utcnow questions svc)
    as (ps & stamp & ticks' & Hing & Hall).
  unfold RetrievalPipeline.ingest, RetrievalPipeline.on_ingestion.
  unfold mbind at 1. unfold M_bind at 1. simpl. rewrite Hing.
  exists ps. destruct ps as [| d ds].
  - unmonad. simpl. eexists _, _. split; [done |].
    split; [by split |]. split; [done |]. split; [done |]. by split.
  - destruct (length_chunk DEFAULT_MAX_CHUNK_SIZE (d :: ds) strategy) as [Hle Hnonempty].
    specialize (Hnonempty ltac:(done)).
    set (chunks := chunk DEFAULT_MAX_CHUNK_SIZE (d :: ds) strategy) in *.
    destruct (embed_cached_total encode EMBEDDING_DIMENSION c (chunk_text <$> chunks))
      as (rows & c' & Hembed & Hrows & Hwidth & Hcache'); [done | done | |].
    { intros Hnil%fmap_nil_inv. done. }
    rewrite length_fmap in Hrows.
    destruct (add_documents_dedup_exact f32 EMBEDDING_DIMENSION rows
                (chunk_record <$> chunks) w)
      as (n & w' & Hadd & Hsize & Hn); [done | done | by rewrite length_fmap | done |].
    pose proof (add_documents_keeps_exact f32 rows (chunk_record <$> chunks) true w Hready)
      as [Hready' Hdim'].
    rewrite Hadd in Hready', Hdim'. simpl in Hready', Hdim'.
    unfold RetrievalPipeline.on_embedding, RetrievalPipeline.on_index.
    unmonad. simpl. fold chunks. rewrite Hembed. simpl. rewrite Hadd. simpl.
    eexists _, _. split; [done |]. split.
    { split; [done |]. split; [by etrans | done]. }
    split; [done |]. split; [done |].
    exists rows, n. unfold RetrievalPipeline.index_size. simpl.
    split; [done |]. split; [done |]. split; [done |].
    split; [lia | done].
Qed.

Lemma run_ingests_ready (batches : list (list QuestionDocument)) :
  good_encoder encode EMBEDDING_DIMENSION →
  ∀ p, pipeline_ready p →
       pipeline_ready (p_run batches p)
       ∧ chunking_strategy (p_run batches p) = chunking_strategy p.
Proof.
  intros Henc. induction batches as [| batch rest IH]; intros p Hp; simpl; [done |].
  destruct (ingest_step batch p Henc Hp) as (ps & report & p' & Hing & Hp' & Hs & _).
  unfold RetrievalPipeline.run_ingests in *. simpl. rewrite Hing. simpl.
  destruct (IH p' Hp') as [H1 H2]. split; [done |]. by rewrite H2.
Qed.

(** X21. A pipeline built over an empty index directory, with a model
    that returns one row of the configured dimension per text, after any
    number of [ingest] calls that returned: whenever a further call returns
    a report, the report adds up.  With no question whose cleaned text is
    non-empty it is the warning, nothing is ingested and the index is as
    before; otherwise [documents_processed] counts those questions, at
    least one chunk is made and at most one per question,
    [documents_ingested] is at most the number of chunks, and [index_size]
    has grown by [documents_ingested]. *)
Theorem pipeline_ingest_adds_up (strategy : ChunkingStrategy)
    (batches : list (list QuestionDocument)) (questions : list QuestionDocument)
    (report : ingest_report) (p' : pipeline F) :
  good_encoder encode EMBEDDING_DIMENSION →
  let p := p_run batches (RetrievalPipeline.init strategy empty_disk) in
  p_ingest questions p = (Ok report, p') →
  reported_index_size report = RetrievalPipeline.index_size p'
  ∧ RetrievalPipeline.index_size p'
    = RetrievalPipeline.index_size p + documents_ingested report
  ∧ match report with
    | IngestWarning n _ =>
        n = 0 ∧ filter (λ q, kept q = true) questions = []
    | IngestSuccess n processed chunks _ =>
        processed = length (filter (λ q, kept q = true) questions)
        ∧ n ≤ chunks ∧ chunks ≤ processed ∧ 0 < chunks
    end.
Proof.
  intros Henc p Hcall.
  destruct (init_ready strategy) as [Hready0 _].
  destruct (run_ingests_ready batches Henc _ Hready0) as [Hready _]. fold p in Hready.
  destruct (ingest_step questions p Henc Hready)
    as (ps & report0 & p0 & Hing & _ & _ & Hall & Hcase).
  rewrite Hing in Hcall. simplify_eq.
  destruct ps as [| d ds].
  - destruct Hcase as [-> Hsame]. simpl. unfold RetrievalPipeline.index_size.
    rewrite Hsame. split; [done |]. split; [lia |]. split; [done |].
    by apply Forall2_nil_inv_r in Hall.
  - destruct Hcase as (rows & n & Hrows & Hadd & Hsize & Hn & ->). simpl.
    split; [done |]. split; [done |].
    destruct (length_chunk DEFAULT_MAX_CHUNK_SIZE (d :: ds) (chunking_strategy p))
      as [Hle Hnonempty].
    split; [by rewrite (Forall2_length _ _ _ Hall) |]. split; [done |]. split; [done |].
    destruct (chunk DEFAULT_MAX_CHUNK_SIZE (d :: ds) (chunking_strategy p));
      [by exfalso; apply Hnonempty | simpl; lia].
Qed.

End PipelineProperties.

(** ** Chunk identifiers *)

Lemma topic_loop_same max_chunk_size topic docs docs' :
  Forall2 same_content docs docs' →
  ∀ combined_text source_ids chunks,
    topic_loop max_chunk_size topic docs combined_text source_ids chunks
    = topic_loop max_chunk_size topic docs' combined_text source_ids chunks.
Proof.
  induction 1 as [| d d' ds ds' (Hid & Htext & _) _ IH]; intros ct sids chunks; simpl; [done |].
  rewrite Hid, Htext. by rewrite !IH.
Qed.

Lemma group_add_same d d' groups groups' :
  same_content d d' →
  Forall2 (λ g g', g.1 = g'.1 ∧ Forall2 same_content g.2 g'.2) groups groups' →
  Forall2 (λ g g', g.1 = g'.1 ∧ Forall2 same_content g.2 g'.2)
          (group_add (topic_of d) d groups) (group_add (topic_of d') d' groups').
Proof.
  intros Hsame. pose proof Hsame as (_ & _ & Htopic). rewrite <- Htopic.
  induction 1 as [| [t docs] [t' docs'] gs gs' [Ht Hdocs] Hrest IH]; simpl in *.
  - constructor; [| constructor]. split; [done |]. by constructor.
  - subst t'. case_decide.
    + constructor; [| done]. split; [done |]. simpl.
      apply Forall2_app; [done |]. by constructor.
    + constructor; [by split | done].
Qed.

Lemma _chunk_by_topic_same max_chunk_size docs docs' :
  Forall2 same_content docs docs' →
  _chunk_by_topic max_chunk_size docs = _chunk_by_topic max_chunk_size docs'.
Proof.
  intros Hdocs. unfold _chunk_by_topic, group_by_topic.
  assert (∀ acc acc',
            Forall2 (λ g g', g.1 = g'.1 ∧ Forall2 same_content g.2 g'.2) acc acc' →
            Forall2 (λ g g', g.1 = g'.1 ∧ Forall2 same_content g.2 g'.2)
              (foldl (λ groups doc, group_add (topic_of doc) doc groups) acc docs)
              (foldl (λ groups doc, group_add (topic_of doc) doc groups) acc' docs'))
    as Hgroups.
  { induction Hdocs as [| d d' ds ds' Hd _ IH]; intros acc acc' Hacc; simpl; [done |].
    apply IH. by apply group_add_same. }
  specialize (Hgroups [] [] ltac:(constructor)).
  revert Hgroups.
  generalize (foldl (λ groups doc, group_add (topic_of doc) doc groups) [] docs).
  generalize (foldl (λ groups doc, group_add (topic_of doc) doc groups) [] docs').
  intros groups' groups Hgroups. generalize (@nil Chunk).
  induction Hgroups as [| [t g] [t' g'] gs gs' [Ht Hg] _ IH]; intros acc; simpl; [done |].
  simpl in *. subst t'. rewrite <- IH. f_equal.
  unfold topic_step. simpl. by rewrite (topic_loop_same _ _ _ _ Hg).
Qed.

Lemma chunk_ids_same max_chunk_size docs docs' strategy :
  Forall2 same_content docs docs' →
  chunk_id <$> chunk max_chunk_size docs strategy
  = chunk_id <$> chunk max_chunk_size docs' strategy.
Proof.
  intros Hdocs. destruct strategy; simpl.
  - unfold _chunk_by_question. rewrite <- !list_fmap_compose.
    induction Hdocs as [| d d' ds ds' (Hid & _) _ IH]; [done |].
    rewrite !fmap_cons. simpl. by rewrite Hid, IH.
  - by rewrite (_chunk_by_topic_same _ _ _ Hdocs).
  - unfold _chunk_hybrid. rewrite <- !list_fmap_compose.
    induction Hdocs as [| d d' ds ds' (Hid & _) _ IH]; [done |].
    rewrite !fmap_cons. simpl. by rewrite Hid, IH.
Qed.

Lemma processed_from_canonical q p : processed_from q p → same_content p (canonical q).
Proof.
  intros (Hid & Htext & stamp & Hmeta). split; [done |]. split; [done |].
  unfold topic_of. simpl. by rewrite Hmeta.
Qed.

Lemma chunk_ids_of_batch strategy questions processed_docs :
  Forall2 processed_from (filter (λ q, kept q = true) questions) processed_docs →
  chunk_id <$> chunk DEFAULT_MAX_CHUNK_SIZE processed_docs strategy
  = batch_chunk_ids strategy questions.
Proof.
  intros Hall. unfold batch_chunk_ids. apply chunk_ids_same.
  apply Forall2_fmap_r, Forall2_flip.
  eapply Forall2_impl; [exact Hall |]. intros q p. apply processed_from_canonical.
Qed.

Lemma group_add_keys (P : pyval → Prop) topic doc groups :
  P topic → Forall (λ g, P g.1) groups → Forall (λ g, P g.1) (group_add topic doc groups).
Proof.
  intros Htopic. induction 1 as [| [t docs] rest Hg Hrest IH]; simpl.
  - by repeat constructor.
  - case_decide; by constructor.
Qed.

Lemma group_by_topic_keys docs :
  Forall (λ g, ∃ d, d ∈ docs ∧ g.1 = topic_of d) (group_by_topic docs).
Proof.
  unfold group_by_topic.
  assert (∀ ds acc,
            Forall (λ d, d ∈ docs) ds →
            Forall (λ g : pyval * list processed_doc, ∃ d, d ∈ docs ∧ g.1 = topic_of d) acc →
            Forall (λ g : pyval * list processed_doc, ∃ d, d ∈ docs ∧ g.1 = topic_of d)
                   (foldl (λ groups doc, group_add (topic_of doc) doc groups) acc ds)) as H.
  { induction ds as [| d ds IH]; intros acc Hds Hacc; simpl; [done |].
    apply Forall_cons in Hds as [Hd Hds]. apply IH; [done |].
    apply (group_add_keys (λ t, ∃ d, d ∈ docs ∧ t = topic_of d)); [by exists d | done]. }
  apply H; [by apply Forall_forall | constructor].
Qed.

(** The chunks of the topic strategy are all made by [topic_chunk], for
    the topic of one of the documents. *)
Lemma _chunk_by_topic_shape max_chunk_size docs :
  Forall (λ c, ∃ topic n t source_ids,
               c = topic_chunk topic n t source_ids
               ∧ ∃ d, d ∈ docs ∧ topic = topic_of d)
         (_chunk_by_topic max_chunk_size docs).
Proof.
  unfold _chunk_by_topic. pose proof (group_by_topic_keys docs) as Hkeys.
  revert Hkeys. generalize (group_by_topic docs). intros groups Hkeys.
  set (shape := λ c, ∃ topic n t source_ids,
                       c = topic_chunk topic n t source_ids
                       ∧ ∃ d, d ∈ docs ∧ topic = topic_of d).
  assert (∀ topic ds ct sids chunks,
            (∃ d, d ∈ docs ∧ topic = topic_of d) →
            Forall shape chunks →
            Forall shape (topic_loop max_chunk_size topic ds ct sids chunks).2) as Hloop.
  { intros topic ds ct sids chunks Htopic. revert ct sids chunks.
    induction ds as [| d ds IH]; intros ct sids chunks Hc; simpl; [done |].
    case_match; apply IH; [| done].
    destruct (nonempty ct); [| done].
    apply Forall_app. split; [done |]. apply Forall_singleton. by eexists _, _, _, _. }
  assert (∀ acc, Forall shape acc →
                 Forall shape (foldl (topic_step max_chunk_size) acc groups)) as H.
  { induction Hkeys as [| g rest Hg _ IH]; intros acc Hacc; simpl; [done |].
    apply IH. unfold topic_step.
    specialize (Hloop g.1 g.2 ""%string [] acc Hg Hacc).
    destruct (topic_loop max_chunk_size g.1 g.2 "" [] acc) as [[ct sids] chunks'].
    simpl in Hloop. destruct (nonempty ct); [| done].
    apply Forall_app. split; [done |]. apply Forall_singleton. by eexists _, _, _, _. }
  by apply H.
Qed.

(** The record stored for a chunk made of ingested documents is
    identified by the chunk identifier. *)
Lemma doc_id_chunk_record max_chunk_size docs strategy c :
  Forall (λ d, ∃ q, processed_from q d) docs →
  c ∈ chunk max_chunk_size docs strategy →
  doc_id (chunk_record c) = PyStr (chunk_id c).
Proof.
  intros Hdocs Hc. rewrite Forall_forall in Hdocs. destruct strategy; simpl in Hc.
  - apply list_elem_of_fmap in Hc as (d & -> & Hd).
    destruct (Hdocs d Hd) as (q & _ & _ & stamp & Hmeta).
    unfold doc_id, chunk_record. simpl. rewrite Hmeta. reflexivity.
  - pose proof (_chunk_by_topic_shape max_chunk_size docs) as Hshape.
    rewrite Forall_forall in Hshape.
    destruct (Hshape c Hc) as (topic & n & t & sids & -> & _). reflexivity.
  - apply list_elem_of_fmap in Hc as (d & -> & Hd).
    destruct (Hdocs d Hd) as (q & _ & _ & stamp & Hmeta).
    unfold doc_id, chunk_record. simpl. rewrite Hmeta. reflexivity.
Qed.

Lemma elem_of_zip_with_r {A B} (l1 : list A) (l2 : list B) (y : B) :
  length l1 = length l2 → y ∈ l2 → ∃ x, (x, y) ∈ zip l1 l2.
Proof.
  revert l2. induction l1 as [| x l1 IH]; intros [| y' l2] Hlen Hy; simplify_eq/=.
  - by apply elem_of_nil in Hy.
  - apply elem_of_cons in Hy as [-> | Hy].
    + exists x. by left.
    + destruct (IH l2 Hlen Hy) as [x' Hx']. exists x'. by right.
Qed.

Section PipelineRuns.
Context {F : Type}.
Variable f32 : F → F.
Variable knn : faiss_index F → list F → Z → list (F * Z).
Variable encode : list string → list (list F).
Variable sha256_hex : string → string.
Variable utcnow : nat → string.
Variable round4 : F → F.

Abbreviation p_ingest := (RetrievalPipeline.ingest f32 encode sha256_hex utcnow).
Abbreviation p_run := (RetrievalPipeline.run_ingests f32 encode sha256_hex utcnow).
Abbreviation p_query := (RetrievalPipeline.query f32 knn encode round4).

Lemma exact_ready_untrained_is_empty (m : manager F) :
  exact_ready m → untrained_is_empty m.
Proof.
  intros [_ Hix] ix Hsome Htrained. destruct (Hix ix Hsome) as (_ & _ & Htrue). congruence.
Qed.

Lemma processed_from_Forall qs ps :
  Forall2 processed_from qs ps → Forall (λ d, ∃ q, processed_from q d) ps.
Proof. induction 1; constructor; eauto. Qed.

Lemma chunk_nil max_chunk_size strategy : chunk max_chunk_size [] strategy = [].
Proof. by destruct strategy. Qed.

(** The chunk identifiers of a batch a ready pipeline has just ingested
    are registered, and those registered before stay so. *)
Lemma ingest_registers (questions : list QuestionDocument) (p : pipeline F)
    (earlier : list (list QuestionDocument)) :
  good_encoder encode EMBEDDING_DIMENSION →
  pipeline_ready p →
  batches_registered p earlier →
  batches_registered (p_ingest questions p).2 (earlier ++ [questions]).
Proof.
  intros Henc Hready Hdone.
  destruct (ingest_step f32 encode sha256_hex utcnow questions p Henc Hready)
    as (ps & report & p' & Hing & Hready' & Hs & Hall & Hcase).
  rewrite Hing. simpl. unfold batches_registered in *. rewrite Hs.
  intros batch i [Hold | ->%list_elem_of_singleton]%elem_of_app Hi.
  - specialize (Hdone batch i Hold Hi).
    destruct ps as [| d ds]; [destruct Hcase as [_ ->]; done |].
    destruct Hcase as (rows & n & Hrows & Hadd & _).
    destruct (add_documents_effect f32 rows
                (chunk_record <$> chunk DEFAULT_MAX_CHUNK_SIZE (d :: ds) (chunking_strategy p))
                true (_index_manager p))
      as (r & w' & appended & Hadd' & _ & _ & _ & _ & _ & Hdom & _).
    { apply exact_ready_untrained_is_empty, Hready. }
    rewrite Hadd in Hadd'. simplify_eq. by apply Hdom.
  - rewrite <- (chunk_ids_of_batch _ _ _ Hall) in Hi.
    destruct ps as [| d ds]; [by rewrite chunk_nil in Hi; apply elem_of_nil in Hi |].
    destruct Hcase as (rows & n & Hrows & Hadd & _).
    apply list_elem_of_fmap in Hi as (c & -> & Hc).
    set (chunks := chunk DEFAULT_MAX_CHUNK_SIZE (d :: ds) (chunking_strategy p)) in *.
    assert (length rows = length (chunk_record <$> chunks)) as Hlen
      by (by rewrite length_fmap).
    assert (rows ≠ []) as Hne.
    { intros ->. simpl in Hrows. destruct chunks; [by apply elem_of_nil in Hc | done]. }
    destruct (elem_of_zip_with_r (astype_float32 f32 rows) (chunk_record <$> chunks)
                (chunk_record c)) as [row Hrow].
    { by rewrite astype_float32_length. }
    { apply list_elem_of_fmap. by exists c. }
    pose proof (add_documents_registers f32 rows (chunk_record <$> chunks)
                  (_index_manager p) Hlen Hne _ Hrow) as Hreg.
    rewrite Hadd in Hreg. simpl in Hreg.
    by rewrite (doc_id_chunk_record DEFAULT_MAX_CHUNK_SIZE (d :: ds) (chunking_strategy p) c
                  (processed_from_Forall _ _ Hall) Hc) in Hreg.
Qed.

Lemma run_ingests_registered (batches : list (list QuestionDocument)) :
  good_encoder encode EMBEDDING_DIMENSION →
  ∀ p earlier,
    pipeline_ready p →
    batches_registered p earlier →
    pipeline_ready (p_run batches p)
    ∧ batches_registered (p_run batches p) (earlier ++ batches).
Proof.
  intros Henc. induction batches as [| batch rest IH]; intros p earlier Hready Hdone.
  - simpl. by rewrite app_nil_r.
  - pose proof (ingest_registers batch p earlier Henc Hready Hdone) as Hreg.
    destruct (ingest_step f32 encode sha256_hex utcnow batch p Henc Hready)
      as (ps & report & p' & Hing & Hready' & _).
    unfold RetrievalPipeline.run_ingests in *. simpl.
    rewrite Hing in *. simpl in *.
    destruct (IH p' (earlier ++ [batch]) Hready' Hreg) as [H1 H2].
    split; [done |]. by rewrite <- app_assoc in H2.
Qed.

(** An [ingest] whose chunk identifiers are all registered adds nothing. *)
Lemma ingest_known (questions : list QuestionDocument) (p : pipeline F) :
  good_encoder encode EMBEDDING_DIMENSION →
  pipeline_ready p →
  (∀ i, i ∈ batch_chunk_ids (chunking_strategy p) questions →
        PyStr i ∈ dom (_id_to_idx (mgr (_index_manager p)))) →
  ∃ report p',
    p_ingest questions p = (Ok report, p')
    ∧ documents_ingested report = 0
    ∧ _index_manager p' = _index_manager p.
Proof.
  intros Henc Hready Hknown.
  destruct (ingest_step f32 encode sha256_hex utcnow questions p Henc Hready)
    as (ps & report & p' & Hing & _ & _ & Hall & Hcase).
  exists report, p'. split; [done |].
  destruct ps as [| d ds]; [by destruct Hcase as [-> ->] |].
  destruct Hcase as (rows & n & Hrows & Hadd & _ & _ & ->). simpl.
  set (chunks := chunk DEFAULT_MAX_CHUNK_SIZE (d :: ds) (chunking_strategy p)) in *.
  rewrite add_documents_all_known in Hadd.
  - by simplify_eq.
  - by rewrite length_fmap.
  - intros [row meta] Hpair. simpl.
    apply elem_of_zip_r, list_elem_of_fmap in Hpair as (c & -> & Hc).
    rewrite (doc_id_chunk_record DEFAULT_MAX_CHUNK_SIZE (d :: ds) (chunking_strategy p) c
               (processed_from_Forall _ _ Hall) Hc).
    apply Hknown.
    rewrite <- (chunk_ids_of_batch _ _ _ Hall). apply list_elem_of_fmap. by exists c.
Qed.

Lemma run_from_init (strategy : ChunkingStrategy) (batches : list (list QuestionDocument)) :
  good_encoder encode EMBEDDING_DIMENSION →
  let p := p_run batches (RetrievalPipeline.init strategy empty_disk) in
  pipeline_ready p ∧ chunking_strategy p = strategy ∧ batches_registered p batches.
Proof.
  intros Henc p. subst p.
  destruct (init_ready (F:=F) strategy) as [Hready0 Hs0].
  destruct (run_ingests_registered batches Henc _ [] Hready0) as [Hready Hreg].
  { intros batch i Hb. by apply elem_of_nil in Hb. }
  destruct (run_ingests_ready f32 encode sha256_hex utcnow batches Henc _ Hready0)
    as [_ Hs].
  split; [done |]. split; [by rewrite Hs |]. done.
Qed.

(** X22. Ingesting a batch again adds nothing: on a pipeline built over
    an empty index directory, with a model that returns one row of the
    configured dimension per text, an [ingest] of a batch that is among
    those ingested before returns, reports no document ingested, and leaves
    the index manager and its files exactly as they were. *)
Theorem repeated_batch_adds_nothing (strategy : ChunkingStrategy)
    (batches : list (list QuestionDocument)) (questions : list QuestionDocument) :
  good_encoder encode EMBEDDING_DIMENSION →
  questions ∈ batches →
  let p := p_run batches (RetrievalPipeline.init strategy empty_disk) in
  ∃ report p',
    p_ingest questions p = (Ok report, p')
    ∧ documents_ingested report = 0
    ∧ _index_manager p' = _index_manager p.
Proof.
  intros Henc Hin p.
  destruct (run_from_init strategy batches Henc) as (Hready & Hs & Hreg). fold p in Hready, Hs, Hreg.
  apply ingest_known; [done | done |].
  intros i Hi. by apply (Hreg questions i Hin).
Qed.

(** X25. What decides whether [ingest] adds a chunk is its identifier
    alone: on such a pipeline an [ingest] whose chunk identifiers all occur
    among those of batches ingested before reports no document ingested and
    leaves the index manager as it was, also when its questions are new.
    Under the topic strategy the identifier of a chunk is made of the topic
    and of the number of chunks made before it in the same call. *)
Theorem known_chunk_ids_add_nothing (strategy : ChunkingStrategy)
    (batches : list (list QuestionDocument)) (questions : list QuestionDocument) :
  good_encoder encode EMBEDDING_DIMENSION →
  (∀ i, i ∈ batch_chunk_ids strategy questions →
        ∃ batch, batch ∈ batches ∧ i ∈ batch_chunk_ids strategy batch) →
  let p := p_run batches (RetrievalPipeline.init strategy empty_disk) in
  ∃ report p',
    p_ingest questions p = (Ok report, p')
    ∧ documents_ingested report = 0
    ∧ _index_manager p' = _index_manager p.
Proof.
  intros Henc Hids p.
  destruct (run_from_init strategy batches Henc) as (Hready & Hs & Hreg). fold p in Hready, Hs, Hreg.
  apply ingest_known; [done | done |].
  intros i Hi. rewrite Hs in Hi. destruct (Hids i Hi) as (batch & Hbatch & Hin).
  apply (Hreg batch i Hbatch). by rewrite Hs.
Qed.

End PipelineRuns.

Section PipelineQueries.
Context {F : Type}.
Variable f32 : F → F.
Variable knn : faiss_index F → list F → Z → list (F * Z).
Variable encode : list string → list (list F).
Variable sha256_hex : string → string.
Variable utcnow : nat → string.
Variable round4 : F → F.

Abbreviation p_ingest := (RetrievalPipeline.ingest f32 encode sha256_hex utcnow).
Abbreviation p_run := (RetrievalPipeline.run_ingests f32 encode sha256_hex utcnow).
Abbreviation p_query := (RetrievalPipeline.query f32 knn encode round4).

Lemma Forall2_elem_of_r {A B} (R : A → B → Prop) l k y :
  Forall2 R l k → y ∈ k → ∃ x, x ∈ l ∧ R x y.
Proof.
  induction 1 as [| x y' l k Hxy _ IH]; [by intros ?%elem_of_nil |].
  intros [-> | Hy]%elem_of_cons.
  - exists x. split; [by left | done].
  - destruct (IH Hy) as (x' & Hx' & HR). exists x'. split; [by right | done].
Qed.

(** Under the question strategy every record a ready pipeline stores is
    that of a kept question. *)
Lemma ingest_stores (questions history : list QuestionDocument) (p : pipeline F) :
  good_encoder encode EMBEDDING_DIMENSION →
  pipeline_ready p →
  chunking_strategy p = QUESTION_BASED →
  stores_questions p history →
  stores_questions (p_ingest questions p).2 (history ++ questions).
Proof.
  intros Henc Hready Hstrategy Hstored.
  assert (stores_questions p (history ++ questions)) as Hweak.
  { unfold stores_questions in *. eapply Forall_impl; [exact Hstored |].
    intros meta (q & stamp & Hq & Hkept & ->). exists q, stamp.
    split; [by apply elem_of_app; left | done]. }
  destruct (ingest_step f32 encode sha256_hex utcnow questions p Henc Hready)
    as (ps & report & p' & Hing & Hready' & Hs & Hall & Hcase).
  rewrite Hing. simpl. unfold stores_questions in *.
  destruct ps as [| d ds]; [destruct Hcase as [_ ->]; done |].
  destruct Hcase as (rows & n & Hrows & Hadd & _).
  rewrite Hstrategy in Hadd.
  destruct (add_documents_effect f32 rows
              (chunk_record <$> chunk DEFAULT_MAX_CHUNK_SIZE (d :: ds) QUESTION_BASED)
              true (_index_manager p))
    as (r & w' & appended & Hadd' & _ & Hsub & _ & Hmeta & _).
  { apply (exact_ready_untrained_is_empty (F:=F)), Hready. }
  rewrite Hadd in Hadd'. simplify_eq. rewrite Hmeta.
  apply Forall_app. split; [done |].
  apply Forall_forall. intros meta ([row meta'] & -> & Hpair)%list_elem_of_fmap. simpl.
  eapply elem_of_sublist in Hpair; [| exact Hsub].
  apply elem_of_zip_r in Hpair.
  apply list_elem_of_fmap in Hpair as (c & -> & Hc).
  unfold chunk, _chunk_by_question in Hc.
  apply list_elem_of_fmap in Hc as (doc & -> & Hdoc).
  destruct (Forall2_elem_of_r _ _ _ _ Hall Hdoc) as (q & Hq & Hid & Htext & stamp & Hmd).
  apply list_elem_of_filter in Hq as [Hkept Hq].
  exists q, stamp. split; [by apply elem_of_app; right |]. split; [done |].
  unfold question_chunk. by rewrite Hid, Htext, Hmd.
Qed.

Lemma run_ingests_stores (batches : list (list QuestionDocument)) :
  good_encoder encode EMBEDDING_DIMENSION →
  ∀ p history,
    pipeline_ready p →
    chunking_strategy p = QUESTION_BASED →
    stores_questions p history →
    pipeline_ready (p_run batches p)
    ∧ stores_questions (p_run batches p) (history ++ concat batches).
Proof.
  intros Henc. induction batches as [| batch rest IH]; intros p history Hready Hs Hstored.
  - simpl. by rewrite app_nil_r.
  - pose proof (ingest_stores batch history p Henc Hready Hs Hstored) as Hstep.
    destruct (ingest_step f32 encode sha256_hex utcnow batch p Henc Hready)
      as (ps & report & p' & Hing & Hready' & Hs' & _).
    unfold RetrievalPipeline.run_ingests in *. simpl.
    rewrite Hing in *. simpl in *.
    destruct (IH p' (history ++ batch) Hready') as [H1 H2]; [congruence | done |].
    split; [done |]. by rewrite <- app_assoc in H2.
Qed.

Lemma question_record_id (q : QuestionDocument) (stamp : string) :
  py_or (dict_get (chunk_record (question_chunk q stamp)) "source_id")
        (dict_get (chunk_record (question_chunk q stamp)) "id")
  = PyStr (if nonempty (q_id q) then q_id q else "chunk_").
Proof. unfold question_chunk. destruct (q_id q); reflexivity. Qed.

(** The filter of [search] never raises on the record of a question. *)
Lemma question_record_lets_through (q : QuestionDocument) (stamp : string)
    (fo : option filters) :
  is_Some (lets_through fo (chunk_record (question_chunk q stamp))).
Proof.
  unfold lets_through. destruct fo as [f |]; [| done].
  destruct (filters_nonempty f); [| done].
  assert (∃ b, _matches_filters (chunk_record (question_chunk q stamp)) f = Ok b)
    as [b ->]; [| done].
  unfold _matches_filters, topic_clause, marks_clause.
  assert (dict_get_or (chunk_record (question_chunk q stamp)) "topic" (PyStr "")
          = PyStr (q_topic q)) as -> by reflexivity.
  assert (dict_get (chunk_record (question_chunk q stamp)) "marks"
          = of_opt_int (q_marks q)) as -> by reflexivity.
  unmonad. unfold py_lt_int, py_gt_int.
  destruct (topics f) as [[| t ts] |], (q_marks q), (min_marks f), (max_marks f); simpl;
    repeat (case_match; simpl; eauto).
Qed.

(** On a manager that holds a non-empty exact index, [search] with a
    query of the manager's dimension and a positive [k] returns, when the
    filter raises on no stored record: at most [k] results, each a stored
    record. *)
Lemma search_exact_total (m : manager F) (query_embedding : list F) (k : Z)
    (fo : option filters) :
  labels_from_minus_one knn →
  exact_ready m →
  length query_embedding = dimension m →
  0 < size m →
  (1 ≤ k)%Z →
  Forall (λ meta, is_Some (lets_through fo meta)) (_metadata m) →
  ∃ found,
    search f32 knn m query_embedding k fo = Ok found
    ∧ (Z.of_nat (length found) ≤ k)%Z
    ∧ Forall (λ r : metadata * F,
                r.1 ∈ _metadata m ∧ lets_through fo r.1 = Some true) found.
Proof.
  intros Hlabels [_ Hix] Hlen Hsize Hk Hfilter. unfold search.
  destruct (Nat.eqb_spec (size m) 0) as [? | _]; [lia |].
  unfold size in Hsize. destruct (_index m) as [ix |] eqn:Hindex; [| lia].
  destruct (Hix ix eq_refl) as (_ & Hd & Htrained). simpl.
  unfold faiss_search. rewrite length_map, Hlen, Hd, Nat.eqb_refl, Htrained. simpl.
  assert ((0 <? search_width m k fo)%Z = true) as ->.
  { apply Z.ltb_lt. unfold search_width, size. rewrite Hindex.
    destruct (filters_given fo); lia. }
  simpl. unmonad.
  rewrite (collect_results_take (_metadata m) fo k) with (acc := []);
    [| apply Hlabels | done | simpl; lia].
  eexists. split; [done |]. simpl. split.
  - rewrite length_take. lia.
  - apply Forall_forall. intros r (i & Hr%list_elem_of_lookup_2 & _)%elem_of_take.
    apply list_elem_of_omap in Hr as (c & _ & Hc).
    unfold eligible in Hc. repeat case_match; simplify_eq. simpl.
    split; [by eapply list_elem_of_lookup_2 | done].
Qed.

(** X23. Under the question strategy a query returns ingested questions:
    on a pipeline built over an empty index directory, with a model that
    returns one row of the configured dimension per text and an index that
    labels candidates with a position or -1, a [query] with [top_k] at
    least 1 returns after any number of [ingest] calls; it reports the
    index size, gives at most [top_k] results, and every result carries the
    identifier (or ["chunk_"] when that is empty), the cleaned and possibly
    truncated text, the topic, type, marks and paper of a question that was
    ingested with a non-empty cleaned text. *)
Theorem query_returns_ingested_questions (batches : list (list QuestionDocument))
    (query_text : string) (top_k : Z) (fo : option filters) :
  good_encoder encode EMBEDDING_DIMENSION →
  labels_from_minus_one knn →
  (1 ≤ top_k)%Z →
  let p := p_run batches (RetrievalPipeline.init QUESTION_BASED empty_disk) in
  ∃ response,
    (p_query query_text top_k fo p).1 = Ok response
    ∧ response_total_documents response = RetrievalPipeline.index_size p
    ∧ (Z.of_nat (length (results response)) ≤ top_k)%Z
    ∧ Forall (λ r, ∃ q, q ∈ concat batches
                        ∧ kept q = true
                        ∧ r_id r = PyStr (if nonempty (q_id q) then q_id q else "chunk_")
                        ∧ r_text r = PyStr (truncate DEFAULT_MAX_CHUNK_SIZE
                                                     (_clean_text (q_text q)))
                        ∧ r_topic r = PyStr (q_topic q)
                        ∧ r_type r = PyStr (q_type q)
                        ∧ r_marks r = of_opt_int (q_marks q)
                        ∧ r_paper_id r = PyStr (q_paper_id q))
             (results response).
Proof.
  intros Henc Hlabels Hk p.
  destruct (init_ready (F:=F) QUESTION_BASED) as [Hready0 Hs0].
  destruct (run_ingests_stores batches Henc _ [] Hready0 Hs0) as [Hready Hstored].
  { constructor. }
  fold p in Hready, Hstored. simpl in Hstored.
  destruct Hready as (Hexact & Hdim & _).
  unfold RetrievalPipeline.query. unmonad.
  destruct (Nat.eqb_spec (RetrievalPipeline.index_size p) 0) as [Hzero | Hpos].
  { simpl. eexists. split; [done |]. simpl. split; [done |]. split; [lia | constructor]. }
  unfold RetrievalPipeline.on_embedding, embed_query, embed. unmonad. simpl.
  unfold _embed_batch. destruct (Henc [query_text]) as [Hone Hwidth].
  destruct (encode [query_text]) as [| row [| row' rest]] eqn:Hrows; [done | | done].
  rewrite Forall_singleton in Hwidth. simpl.
  assert (length row = dimension (mgr (_index_manager p))) as Hrow by congruence.
  assert (0 < size (mgr (_index_manager p))) as Hsize.
  { unfold RetrievalPipeline.index_size in Hpos. lia. }
  assert (Forall (λ meta, is_Some (lets_through fo meta))
                 (_metadata (mgr (_index_manager p)))) as Hfilter.
  { unfold stores_questions in Hstored. eapply Forall_impl; [exact Hstored |].
    intros meta (q & stamp & _ & _ & ->). apply question_record_lets_through. }
  destruct (search_exact_total (mgr (_index_manager p)) row top_k fo
              Hlabels Hexact Hrow Hsize Hk Hfilter)
    as (found & Hsearch & Hlen & Hfrom).
  rewrite Hsearch. simpl. eexists. split; [done |]. simpl.
  split; [done |]. split; [by rewrite length_fmap |].
  apply Forall_fmap, Forall_forall. intros [meta score] Hr.
  rewrite Forall_forall in Hfrom. destruct (Hfrom _ Hr) as [Hmeta _]. simpl in Hmeta.
  unfold stores_questions in Hstored. rewrite Forall_forall in Hstored.
  destruct (Hstored meta Hmeta) as (q & stamp & Hq & Hkept & ->).
  exists q. split; [done |]. split; [done |].
  unfold RetrievalPipeline.format_result. cbn [fst snd r_id r_text r_topic r_type r_marks r_paper_id].
  split; [apply question_record_id | by repeat split].
Qed.

(** Under the topic strategy every stored record is that of a topic
    chunk. *)
Lemma ingest_stores_topics (questions : list QuestionDocument) (p : pipeline F) :
  good_encoder encode EMBEDDING_DIMENSION →
  pipeline_ready p →
  chunking_strategy p = TOPIC_BASED →
  stores_topics p →
  stores_topics (p_ingest questions p).2.
Proof.
  intros Henc Hready Hstrategy Hstored.
  destruct (ingest_step f32 encode sha256_hex utcnow questions p Henc Hready)
    as (ps & report & p' & Hing & Hready' & Hs & Hall & Hcase).
  rewrite Hing. simpl. unfold stores_topics in *.
  destruct ps as [| d ds]; [destruct Hcase as [_ ->]; done |].
  destruct Hcase as (rows & n & Hrows & Hadd & _).
  rewrite Hstrategy in Hadd.
  destruct (add_documents_effect f32 rows
              (chunk_record <$> chunk DEFAULT_MAX_CHUNK_SIZE (d :: ds) TOPIC_BASED)
              true (_index_manager p))
    as (r & w' & appended & Hadd' & _ & Hsub & _ & Hmeta & _).
  { apply (exact_ready_untrained_is_empty (F:=F)), Hready. }
  rewrite Hadd in Hadd'. simplify_eq. rewrite Hmeta.
  apply Forall_app. split; [done |].
  apply Forall_forall. intros meta ([row meta'] & -> & Hpair)%list_elem_of_fmap. simpl.
  eapply elem_of_sublist in Hpair; [| exact Hsub].
  apply elem_of_zip_r in Hpair.
  apply list_elem_of_fmap in Hpair as (c & -> & Hc).
  unfold chunk in Hc.
  pose proof (_chunk_by_topic_shape DEFAULT_MAX_CHUNK_SIZE (d :: ds)) as Hshape.
  rewrite Forall_forall in Hshape.
  destruct (Hshape c Hc) as (topic & k & t & sids & -> & doc & Hdoc & ->).
  destruct (Forall2_elem_of_r _ _ _ _ Hall Hdoc) as (q & _ & _ & _ & stamp & Hmd).
  exists (q_topic q), k, t, sids. unfold topic_of. by rewrite Hmd.
Qed.

Lemma run_ingests_stores_topics (batches : list (list QuestionDocument)) :
  good_encoder encode EMBEDDING_DIMENSION →
  ∀ p,
    pipeline_ready p →
    chunking_strategy p = TOPIC_BASED →
    stores_topics p →
    pipeline_ready (p_run batches p) ∧ stores_topics (p_run batches p).
Proof.
  intros Henc. induction batches as [| batch rest IH]; intros p Hready Hs Hstored; [done |].
  pose proof (ingest_stores_topics batch p Henc Hready Hs Hstored) as Hstep.
  destruct (ingest_step f32 encode sha256_hex utcnow batch p Henc Hready)
    as (ps & report & p' & Hing & Hready' & Hs' & _).
  unfold RetrievalPipeline.run_ingests in *. simpl.
  rewrite Hing in *. simpl in *.
  apply IH; [done | congruence | done].
Qed.

(** A types or paper-ids clause rejects the record of a topic chunk, which
    carries neither field. *)
Lemma topic_record_rejected (s : string) (n : nat) (t : string) (source_ids : list string)
    (f : filters) (l : list string) :
  l ≠ [] → ""%string ∉ l →
  types f = Some l ∨ paper_ids f = Some l →
  lets_through (Some f) (chunk_record (topic_chunk (PyStr s) n t source_ids)) = Some false.
Proof.
  intros Hne Hnot Hclause.
  assert (existsb (String.eqb "") l = false) as Hl by by apply existsb_eqb_false.
  destruct l as [| x l']; [done |].
  unfold lets_through.
  assert (filters_nonempty f = true) as ->.
  { unfold filters_nonempty. destruct Hclause as [-> | ->]; simpl;
      by rewrite ?orb_true_r. }
  unfold _matches_filters, topic_clause, type_clause, paper_clause.
  assert (dict_get_or (chunk_record (topic_chunk (PyStr s) n t source_ids)) "topic"
                      (PyStr "") = PyStr s) as -> by reflexivity.
  assert (dict_get_or (chunk_record (topic_chunk (PyStr s) n t source_ids)) "type"
                      (PyStr "") = PyStr "") as -> by reflexivity.
  assert (dict_get_or (chunk_record (topic_chunk (PyStr s) n t source_ids)) "paper_id"
                      (PyStr "") = PyStr "") as -> by reflexivity.
  unmonad. unfold in_strs.
  destruct Hclause as [Htypes | Hpapers].
  - rewrite Htypes, Hl.
    destruct (topics f) as [[| t0 ts] |]; [done | | done].
    by destruct (existsb _ (t0 :: ts)).
  - rewrite Hpapers, Hl.
    destruct (topics f) as [[| t0 ts] |], (types f) as [[| y ys] |]; try done;
      repeat match goal with
             | |- context [existsb ?g (?a :: ?b)] => destruct (existsb g (a :: b))
             end; done.
Qed.

Lemma topic_record_lets_through (s : string) (n : nat) (t : string)
    (source_ids : list string) (fo : option filters) :
  is_Some (lets_through fo (chunk_record (topic_chunk (PyStr s) n t source_ids))).
Proof.
  unfold lets_through. destruct fo as [f |]; [| done].
  destruct (filters_nonempty f); [| done].
  assert (∃ b, _matches_filters (chunk_record (topic_chunk (PyStr s) n t source_ids)) f
               = Ok b) as [b ->]; [| done].
  unfold _matches_filters, topic_clause, marks_clause.
  assert (dict_get_or (chunk_record (topic_chunk (PyStr s) n t source_ids)) "topic"
                      (PyStr "") = PyStr s) as -> by reflexivity.
  assert (dict_get (chunk_record (topic_chunk (PyStr s) n t source_ids)) "marks"
          = PyNone) as -> by reflexivity.
  unmonad. destruct (topics f) as [[| ? ?] |]; simpl; repeat (case_match; simpl; eauto).
Qed.

(** X24. Under the topic strategy the stored records carry a topic and a
    question count but neither a type nor a paper: on a pipeline built over
    an empty index directory, with a model that returns one row of the
    configured dimension per text and an index that labels candidates with a
    position or -1, a [query] whose filter has a types clause or a paper-ids
    clause (a non-empty list without the empty string) returns no result,
    whatever was ingested. *)
Theorem topic_strategy_answers_no_type_or_paper_filter
    (batches : list (list QuestionDocument)) (query_text : string) (top_k : Z)
    (f : filters) (l : list string) :
  good_encoder encode EMBEDDING_DIMENSION →
  labels_from_minus_one knn →
  (1 ≤ top_k)%Z →
  l ≠ [] →
  ""%string ∉ l →
  types f = Some l ∨ paper_ids f = Some l →
  let p := p_run batches (RetrievalPipeline.init TOPIC_BASED empty_disk) in
  ∃ response,
    (p_query query_text top_k (Some f) p).1 = Ok response
    ∧ results response = [].
Proof.
  intros Henc Hlabels Hk Hne Hnot Hclause p.
  destruct (init_ready (F:=F) TOPIC_BASED) as [Hready0 Hs0].
  destruct (run_ingests_stores_topics batches Henc _ Hready0 Hs0) as [Hready Hstored].
  { constructor. }
  fold p in Hready, Hstored.
  destruct Hready as (Hexact & Hdim & _).
  unfold RetrievalPipeline.query. unmonad.
  destruct (Nat.eqb_spec (RetrievalPipeline.index_size p) 0) as [Hzero | Hpos].
  { simpl. by eexists. }
  unfold RetrievalPipeline.on_embedding, embed_query, embed. unmonad. simpl.
  unfold _embed_batch. destruct (Henc [query_text]) as [Hone Hwidth].
  destruct (encode [query_text]) as [| row [| row' rest]] eqn:Hrows; [done | | done].
  rewrite Forall_singleton in Hwidth. simpl.
  assert (length row = dimension (mgr (_index_manager p))) as Hrow by congruence.
  assert (0 < size (mgr (_index_manager p))) as Hsize.
  { unfold RetrievalPipeline.index_size in Hpos. lia. }
  assert (Forall (λ meta, is_Some (lets_through (Some f) meta))
                 (_metadata (mgr (_index_manager p)))) as Hfilter.
  { unfold stores_topics in Hstored. eapply Forall_impl; [exact Hstored |].
    intros meta (s & n & t & sids & ->). apply topic_record_lets_through. }
  destruct (search_exact_total (mgr (_index_manager p)) row top_k (Some f)
              Hlabels Hexact Hrow Hsize Hk Hfilter)
    as (found & Hsearch & Hlen & Hfrom).
  rewrite Hsearch. simpl. eexists. split; [done |]. simpl.
  destruct found as [| [meta score] rest]; [done |].
  apply Forall_cons in Hfrom as [[Hmeta Hpass] _]. cbn [fst] in Hmeta, Hpass.
  unfold stores_topics in Hstored. rewrite Forall_forall in Hstored.
  destruct (Hstored meta Hmeta) as (s & n & t & sids & ->).
  rewrite (topic_record_rejected s n t sids f l Hne Hnot Hclause) in Hpass. done.
Qed.

End PipelineQueries.

(** ** The properties on concrete inputs *)

Lemma zero_encoder_good : good_encoder zero_encoder EMBEDDING_DIMENSION.
Proof.
  intros texts. unfold zero_encoder. split; [by rewrite length_fmap |].
  apply Forall_fmap, Forall_forall. intros t _. apply length_replicate.
Qed.

Lemma topic_chunks_within_limit_witness :
  let documents := [canonical entropy_question; canonical lens_question] in
  Forall (λ doc, (Z.of_nat (String.length (doc_text doc)) + 3 ≤ 512)%Z) documents
  ∧ Forall (λ c, (Z.of_nat (String.length (chunk_text c)) ≤ 512)%Z)
           (chunk 512 documents TOPIC_BASED).
Proof.
  intros documents.
  assert (Forall (λ doc, (Z.of_nat (String.length (doc_text doc)) + 3 ≤ 512)%Z) documents)
    as H1 by (repeat constructor; vm_compute; discriminate).
  split; [done |].
  exact (topic_chunks_within_limit 512 documents H1).
Defined.

Lemma cache_key_collision_witness :
  let t1 := long_text "x" in
  let t2 := long_text "y" in
  let c' := [(_get_cache_key t1, [101%Z])] in
  (py_slice_to t1 100 = py_slice_to t2 100
   ∧ String.length t1 = String.length t2
   ∧ embed length_encoder (Many [t1]) true [] = (Ok [[101%Z]], c'))
  ∧ embed length_encoder (Many [t2]) true c' = (Ok [[101%Z]], c').
Proof.
  intros t1 t2 c'.
  assert (py_slice_to t1 100 = py_slice_to t2 100) as H1 by (vm_compute; reflexivity).
  assert (String.length t1 = String.length t2) as H2 by (vm_compute; reflexivity).
  assert (embed length_encoder (Many [t1]) true [] = (Ok [[101%Z]], c')) as H3
    by (vm_compute; reflexivity).
  split; [done |].
  exact (cache_key_collision length_encoder t1 t2 [] c' [[101%Z]] H1 H2 H3).
Defined.

Lemma pipeline_ingest_adds_up_witness :
  let batches := [[entropy_question; blank_question]] in
  let questions := [lens_question; entropy_question] in
  let p := RetrievalPipeline.run_ingests id zero_encoder id counting_clock batches
             (RetrievalPipeline.init HYBRID empty_disk) in
  let report := IngestSuccess 1 2 2 2 in
  let p' := (RetrievalPipeline.ingest id zero_encoder id counting_clock questions p).2 in
  (good_encoder zero_encoder EMBEDDING_DIMENSION
   ∧ RetrievalPipeline.ingest id zero_encoder id counting_clock questions p
     = (Ok report, p'))
  ∧ reported_index_size report = RetrievalPipeline.index_size p'
  ∧ RetrievalPipeline.index_size p'
    = RetrievalPipeline.index_size p + documents_ingested report
  ∧ 2 = length (filter (λ q, kept q = true) questions)
  ∧ 1 ≤ 2 ∧ 2 ≤ 2 ∧ 0 < 2.
Proof.
  intros batches questions p report p'.
  assert (RetrievalPipeline.ingest id zero_encoder id counting_clock questions p
          = (Ok report, p')) as H1 by (vm_compute; reflexivity).
  split; [split; [apply zero_encoder_good | done] |].
  exact (pipeline_ingest_adds_up id zero_encoder id counting_clock HYBRID batches questions
           report p' zero_encoder_good H1).
Defined.

Lemma repeated_batch_adds_nothing_witness :
  let batch := [entropy_question; lens_question] in
  let batches := [batch; [blank_question]] in
  (good_encoder zero_encoder EMBEDDING_DIMENSION ∧ batch ∈ batches)
  ∧ (let p := RetrievalPipeline.run_ingests id zero_encoder id counting_clock batches
                (RetrievalPipeline.init TOPIC_BASED empty_disk) in
     ∃ report p',
       RetrievalPipeline.ingest id zero_encoder id counting_clock batch p = (Ok report, p')
       ∧ documents_ingested report = 0
       ∧ _index_manager p' = _index_manager p).
Proof.
  intros batch batches.
  assert (batch ∈ batches) as H2 by (by left).
  split; [split; [apply zero_encoder_good | done] |].
  exact (repeated_batch_adds_nothing id zero_encoder id counting_clock TOPIC_BASED
           batches batch zero_encoder_good H2).
Defined.

Lemma known_chunk_ids_add_nothing_witness :
  let batches := [[entropy_question]] in
  let questions := [heat_question] in
  (good_encoder zero_encoder EMBEDDING_DIMENSION
   ∧ ∀ i, i ∈ batch_chunk_ids TOPIC_BASED questions →
          ∃ batch, batch ∈ batches ∧ i ∈ batch_chunk_ids TOPIC_BASED batch)
  ∧ (let p := RetrievalPipeline.run_ingests id zero_encoder id counting_clock batches
                (RetrievalPipeline.init TOPIC_BASED empty_disk) in
     ∃ report p',
       RetrievalPipeline.ingest id zero_encoder id counting_clock questions p
       = (Ok report, p')
       ∧ documents_ingested report = 0
       ∧ _index_manager p' = _index_manager p).
Proof.
  intros batches questions.
  assert (∀ i, i ∈ batch_chunk_ids TOPIC_BASED questions →
               ∃ batch, batch ∈ batches ∧ i ∈ batch_chunk_ids TOPIC_BASED batch) as H2.
  { intros i Hi. exists [entropy_question]. split; [by left |].
    assert (batch_chunk_ids TOPIC_BASED questions
            = batch_chunk_ids TOPIC_BASED [entropy_question]) as <-
      by (vm_compute; reflexivity).
    done. }
  split; [split; [apply zero_encoder_good | done] |].
  exact (known_chunk_ids_add_nothing id zero_encoder id counting_clock TOPIC_BASED
           batches questions zero_encoder_good H2).
Defined.

Lemma query_returns_ingested_questions_witness :
  let batches := [[entropy_question; blank_question]; [lens_question]] in
  let fo := Some (Filters (Some ["optics"%string]) None None None None) in
  (good_encoder zero_encoder EMBEDDING_DIMENSION
   ∧ labels_from_minus_one exact_knn
   ∧ (1 ≤ 3)%Z)
  ∧ (let p := RetrievalPipeline.run_ingests id zero_encoder id counting_clock batches
                (RetrievalPipeline.init QUESTION_BASED empty_disk) in
     ∃ response,
       (RetrievalPipeline.query id exact_knn zero_encoder id "lens" 3 fo p).1 = Ok response
       ∧ response_total_documents response = RetrievalPipeline.index_size p
       ∧ (Z.of_nat (length (results response)) ≤ 3)%Z
       ∧ Forall (λ r, ∃ q, q ∈ concat batches
                           ∧ kept q = true
                           ∧ r_id r = PyStr (if nonempty (q_id q) then q_id q else "chunk_")
                           ∧ r_text r = PyStr (truncate DEFAULT_MAX_CHUNK_SIZE
                                                        (_clean_text (q_text q)))
                           ∧ r_topic r = PyStr (q_topic q)
                           ∧ r_type r = PyStr (q_type q)
                           ∧ r_marks r = of_opt_int (q_marks q)
                           ∧ r_paper_id r = PyStr (q_paper_id q))
                (results response)).
Proof.
  intros batches fo.
  assert (1 ≤ 3)%Z as H3 by lia.
  split; [split; [apply zero_encoder_good | split; [apply exact_knn_labels | done]] |].
  exact (query_returns_ingested_questions id exact_knn zero_encoder id counting_clock id
           batches "lens" 3 fo zero_encoder_good exact_knn_labels H3).
Defined.

Lemma topic_strategy_answers_no_type_or_paper_filter_witness :
  let batches := [[entropy_question; lens_question]] in
  let f := Filters None (Some ["Short Answer"%string]) None None None in
  (good_encoder zero_encoder EMBEDDING_DIMENSION
   ∧ labels_from_minus_one exact_knn
   ∧ (1 ≤ 5)%Z
   ∧ ["Short Answer"%string] ≠ []
   ∧ (""%string ∉ ["Short Answer"%string])
   ∧ (types f = Some ["Short Answer"%string] ∨ paper_ids f = Some ["Short Answer"%string]))
  ∧ (let p := RetrievalPipeline.run_ingests id zero_encoder id counting_clock batches
                (RetrievalPipeline.init TOPIC_BASED empty_disk) in
     ∃ response,
       (RetrievalPipeline.query id exact_knn zero_encoder id "entropy" 5 (Some f) p).1
       = Ok response
       ∧ results response = []).
Proof.
  intros batches f.
  assert (1 ≤ 5)%Z as H3 by lia.
  assert (["Short Answer"%string] ≠ []) as H4 by done.
  assert (""%string ∉ ["Short Answer"%string]) as H5.
  { intros [H | H]%elem_of_cons; [done | by apply elem_of_nil in H]. }
  assert (types f = Some ["Short Answer"%string] ∨ paper_ids f = Some ["Short Answer"%string])
    as H6 by (by left).
  split; [by repeat split; try apply zero_encoder_good; try apply exact_knn_labels |].
  exact (topic_strategy_answers_no_type_or_paper_filter id exact_knn zero_encoder id
           counting_clock id batches "entropy" 5 f _ zero_encoder_good exact_knn_labels
           H3 H4 H5 H6).
Defined.
